(** * The inventory-management schema initializer (setup_database.py)

    The program opens a SQLite database file, switches foreign-key
    enforcement on for its session, and runs nine
    [CREATE TABLE IF NOT EXISTS] statements.

    The development has three layers.
    - [Sql]: the storage engine as the program relies on it: values,
      the data-definition language the nine statements are written in, a
      database as a catalogue of tables with rows, and the engine's row
      statements (INSERT, UPDATE, DELETE) with the constraint checks and
      the foreign-key actions that the declared schema asks for.
    - [Py]: the part of the Python runtime the program touches: standard
      output, the sqlite3 connection objects, exceptions, the file system
      that holds the database files.
    - the program itself: [create_connection], [create_tables], [main].  *)

From Stdlib Require Import List String Ascii ZArith Bool Lia Arith.
Import ListNotations.
Local Open Scope string_scope.
Local Open Scope Z_scope.

(* ================================================================== *)
(** ** The storage engine *)
(* ================================================================== *)

Module Sql.

(** *** Values

    A stored value is NULL, an integer or a text.  REAL and BLOB values
    are outside the model.  A value stands for what the engine stores,
    that is, after the column's type affinity has been applied to what the
    application supplied. *)
Inductive value : Type :=
| VNull
| VInt (z : Z)
| VText (s : string).

Definition value_eqb (a b : value) : bool :=
  match a, b with
  | VNull, VNull => true
  | VInt x, VInt y => Z.eqb x y
  | VText x, VText y => String.eqb x y
  | _, _ => false
  end.

Definition is_null (v : value) : bool :=
  match v with VNull => true | _ => false end.

(** Equality as the engine uses it for keys: NULL matches nothing. *)
Definition key_eqb (a b : value) : bool :=
  negb (is_null a) && value_eqb a b.

(** *** Identifiers are compared without regard to ASCII case. *)
Definition lower_ascii (c : ascii) : ascii :=
  let n := nat_of_ascii c in
  if (Nat.leb 65 n && Nat.leb n 90)%bool then ascii_of_nat (n + 32) else c.

Fixpoint lower (s : string) : string :=
  match s with
  | EmptyString => EmptyString
  | String c r => String (lower_ascii c) (lower r)
  end.

Definition name_eqb (a b : string) : bool := String.eqb (lower a) (lower b).

(** *** Data definition language *)

(** The declared column types that occur in the program's statements. *)
Inductive sql_type : Type :=
| INTEGER
| INT
| VARCHAR (n : nat)
| DATE
| TIMESTAMP
| TEXT.

Inductive default_value : Type :=
| DefaultLiteral (v : value)
| DefaultCurrentTimestamp.

(** Expressions of CHECK constraints: a column, an integer literal and
    the comparison [>=]. *)
Inductive expr : Type :=
| ECol (name : string)
| EInt (z : Z)
| EGe (a b : expr).

Record column_def : Type := Column {
  col_name : string;
  col_type : sql_type;
  col_primary_key : bool;
  col_not_null : bool;
  col_unique : bool;
  col_default : option default_value;
  col_check : option expr
}.

(** The ON DELETE actions that occur in the program's statements. *)
Inductive on_delete : Type :=
| CASCADE
| SET_NULL
| RESTRICT.

Record foreign_key : Type := ForeignKey {
  fk_column : string;
  fk_parent_table : string;
  fk_parent_column : string;
  fk_on_delete : on_delete
}.

Record table_def : Type := TableDef {
  tbl_name : string;
  tbl_columns : list column_def;
  tbl_foreign_keys : list foreign_key
}.

(** The statements are written with the clauses of a column in the order
    of the SQL text: [column "Username" (VARCHAR 100) |> NOT_NULL |> UNIQUE]. *)
Definition column (n : string) (t : sql_type) : column_def :=
  Column n t false false false None None.

Definition PRIMARY_KEY (c : column_def) : column_def :=
  Column (col_name c) (col_type c) true (col_not_null c) (col_unique c)
         (col_default c) (col_check c).

Definition NOT_NULL (c : column_def) : column_def :=
  Column (col_name c) (col_type c) (col_primary_key c) true (col_unique c)
         (col_default c) (col_check c).

Definition UNIQUE (c : column_def) : column_def :=
  Column (col_name c) (col_type c) (col_primary_key c) (col_not_null c) true
         (col_default c) (col_check c).

Definition DEFAULT (v : default_value) (c : column_def) : column_def :=
  Column (col_name c) (col_type c) (col_primary_key c) (col_not_null c)
         (col_unique c) (Some v) (col_check c).

Definition CHECK (e : expr) (c : column_def) : column_def :=
  Column (col_name c) (col_type c) (col_primary_key c) (col_not_null c)
         (col_unique c) (col_default c) (Some e).

Notation "c |> f" := (f c) (at level 45, left associativity, only parsing).

(** [FOREIGN KEY (c) REFERENCES p(pc) ON DELETE a]. *)
Definition FOREIGN_KEY (c p pc : string) (a : on_delete) : foreign_key :=
  ForeignKey c p pc a.

(** *** Databases *)

Definition row : Type := list value.

Record table : Type := Table {
  t_def : table_def;
  t_rows : list row
}.

(** A database is the catalogue of its tables, in creation order. *)
Definition database : Type := list table.

Inductive sqlite_error : Type :=
| OperationalError (msg : string)
| IntegrityError (msg : string)
| ProgrammingError (msg : string).

Definition error_message (e : sqlite_error) : string :=
  match e with
  | OperationalError m => m
  | IntegrityError m => m
  | ProgrammingError m => m
  end.

Inductive result (A : Type) : Type :=
| Ok (a : A)
| Err (e : sqlite_error).
Arguments Ok {A} a.
Arguments Err {A} e.

Definition rbind {A B} (r : result A) (k : A -> result B) : result B :=
  match r with
  | Ok a => k a
  | Err e => Err e
  end.

Notation "x <-- r ;; k" := (rbind r (fun x => k))
  (at level 61, r at next level, right associativity).

Definition guard (b : bool) (e : sqlite_error) : result unit :=
  if b then Ok tt else Err e.

(** *** Catalogue look-up *)

Definition table_names (db : database) : list string :=
  map (fun t => tbl_name (t_def t)) db.

Definition schema (db : database) : list table_def := map t_def db.

Fixpoint find_table (n : string) (db : database) : option table :=
  match db with
  | [] => None
  | t :: rest =>
      if name_eqb n (tbl_name (t_def t)) then Some t else find_table n rest
  end.

Definition has_table (n : string) (db : database) : bool :=
  match find_table n db with Some _ => true | None => false end.

(** Replace the rows of the (first) table named [n]. *)
Fixpoint set_rows (n : string) (rs : list row) (db : database) : database :=
  match db with
  | [] => []
  | t :: rest =>
      if name_eqb n (tbl_name (t_def t))
      then Table (t_def t) rs :: rest
      else t :: set_rows n rs rest
  end.

Definition rows_of (n : string) (db : database) : list row :=
  match find_table n db with Some t => t_rows t | None => [] end.

Fixpoint col_index_from (i : nat) (n : string) (cols : list column_def)
  : option nat :=
  match cols with
  | [] => None
  | c :: rest =>
      if name_eqb n (col_name c) then Some i else col_index_from (S i) n rest
  end.

Definition col_index (n : string) (d : table_def) : option nat :=
  col_index_from 0%nat n (tbl_columns d).

Definition get (i : nat) (r : row) : value := nth i r VNull.

Fixpoint put (i : nat) (v : value) (r : row) : row :=
  match r, i with
  | [], _ => []
  | _ :: rest, O => v :: rest
  | x :: rest, S j => x :: put j v rest
  end.

(** *** CREATE TABLE *)

Fixpoint distinct_names (l : list string) : bool :=
  match l with
  | [] => true
  | n :: rest => negb (existsb (name_eqb n) rest) && distinct_names rest
  end.

Fixpoint expr_columns (e : expr) : list string :=
  match e with
  | ECol n => [n]
  | EInt _ => []
  | EGe a b => (expr_columns a ++ expr_columns b)%list
  end.

Definition known_column (d : table_def) (n : string) : bool :=
  match col_index n d with Some _ => true | None => false end.

(** What the engine verifies of a definition before it records it:
    distinct column names, at most one primary key, and CHECK constraints
    and foreign keys that name columns of the table.  The parent table of
    a foreign key is not looked at when the child is created. *)
Definition valid_def (d : table_def) : bool :=
  distinct_names (map col_name (tbl_columns d))
  && Nat.leb (List.length (filter col_primary_key (tbl_columns d))) 1
  && forallb (fun c => match col_check c with
                       | None => true
                       | Some e => forallb (known_column d) (expr_columns e)
                       end) (tbl_columns d)
  && forallb (fun f => known_column d (fk_column f)) (tbl_foreign_keys d).

(** [CREATE TABLE [IF NOT EXISTS] d]. *)
Definition create_table (if_not_exists : bool) (d : table_def)
  (db : database) : result database :=
  if has_table (tbl_name d) db then
    if if_not_exists then Ok db
    else Err (OperationalError ("table " ++ tbl_name d ++ " already exists"))
  else if valid_def d then Ok (db ++ [Table d []])%list
  else Err (OperationalError ("malformed definition of table " ++ tbl_name d)).


(** *** Expressions and row constraints *)

(** The engine's order on values of different classes puts every integer
    below every text; a comparison with NULL is NULL. *)
Definition value_ge (a b : value) : value :=
  match a, b with
  | VNull, _ | _, VNull => VNull
  | VInt x, VInt y => VInt (if Z.geb x y then 1 else 0)
  | VText _, VInt _ => VInt 1
  | VInt _, VText _ => VInt 0
  | VText x, VText y => VInt (if String.leb y x then 1 else 0)
  end.

Fixpoint eval (d : table_def) (r : row) (e : expr) : value :=
  match e with
  | ECol n => match col_index n d with Some i => get i r | None => VNull end
  | EInt z => VInt z
  | EGe a b => value_ge (eval d r a) (eval d r b)
  end.

(** A CHECK constraint is violated when its expression is 0; NULL and
    every other value pass. *)
Definition check_passes (d : table_def) (r : row) (c : column_def) : bool :=
  match col_check c with
  | None => true
  | Some e => negb (value_eqb (eval d r e) (VInt 0))
  end.

Definition not_null_passes (r : row) (ic : nat * column_def) : bool :=
  negb (col_not_null (snd ic)) || negb (is_null (get (fst ic) r)).

Definition indexed (d : table_def) : list (nat * column_def) :=
  combine (seq 0 (List.length (tbl_columns d))) (tbl_columns d).

Definition not_nulls_ok (d : table_def) (r : row) : bool :=
  forallb (not_null_passes r) (indexed d).

Definition checks_ok (d : table_def) (r : row) : bool :=
  forallb (check_passes d r) (tbl_columns d).

(** A row that satisfies every NOT NULL and CHECK constraint of [d]. *)
Definition row_ok (d : table_def) (r : row) : bool :=
  not_nulls_ok d r && checks_ok d r.

(** Key columns: the primary key and the UNIQUE columns. *)
Definition is_key (c : column_def) : bool :=
  col_primary_key c || col_unique c.

Fixpoint distinct_values (l : list value) : bool :=
  match l with
  | [] => true
  | v :: rest => negb (existsb (key_eqb v) rest) && distinct_values rest
  end.

Definition pk_index (d : table_def) : option nat :=
  match filter (fun ic => col_primary_key (snd ic)) (indexed d) with
  | ic :: _ => Some (fst ic)
  | [] => None
  end.

(** The primary keys of the program's tables are INTEGER PRIMARY KEY
    columns, that is, the row identifier: it holds an integer. *)
Definition pk_typed (d : table_def) (r : row) : bool :=
  match pk_index d with
  | None => true
  | Some i => match get i r with VInt _ => true | _ => false end
  end.

Fixpoint mem_nat (i : nat) (l : list nat) : bool :=
  match l with
  | [] => false
  | j :: rest => Nat.eqb i j || mem_nat i rest
  end.

(** *** Foreign keys, child side *)

(** Every non-NULL child key of [r] has a parent row. *)
Definition child_key_ok (db : database) (d : table_def) (r : row)
  (f : foreign_key) : result unit :=
  match find_table (fk_parent_table f) db with
  | None => Err (OperationalError ("no such table: " ++ fk_parent_table f))
  | Some p =>
      match col_index (fk_column f) d,
            col_index (fk_parent_column f) (t_def p) with
      | Some ci, Some pi =>
          guard (is_null (get ci r)
                 || existsb (fun pr => key_eqb (get ci r) (get pi pr)) (t_rows p))
                (IntegrityError "FOREIGN KEY constraint failed")
      | _, _ => Err (OperationalError "foreign key mismatch")
      end
  end.

Fixpoint all_ok {A} (f : A -> result unit) (l : list A) : result unit :=
  match l with
  | [] => Ok tt
  | a :: rest => _ <-- f a ;; all_ok f rest
  end.

Definition child_keys_ok (db : database) (d : table_def)
  (fks : list foreign_key) (rs : list row) : result unit :=
  all_ok (fun f => all_ok (fun r => child_key_ok db d r f) rs) fks.

(** *** INSERT *)

Fixpoint lookup_first {A} (n : string) (l : list (string * A)) : option A :=
  match l with
  | [] => None
  | (m, a) :: rest => if name_eqb n m then Some a else lookup_first n rest
  end.

(** The value of a column of a new row: the supplied one (the first, when
    a column is named twice), else the declared default, else NULL.  An
    explicit NULL is a supplied value. *)
Definition initial_value (now : string) (asg : list (string * value))
  (c : column_def) : value :=
  match lookup_first (col_name c) asg with
  | Some v => v
  | None =>
      match col_default c with
      | Some (DefaultLiteral v) => v
      | Some DefaultCurrentTimestamp => VText now
      | None => VNull
      end
  end.

Definition int_keys (i : nat) (rs : list row) : list Z :=
  flat_map (fun r => match get i r with VInt z => [z] | _ => [] end) rs.

(** The next row identifier: 1 in an empty table, else one more than the
    largest in use.  (What the engine does once the largest 64-bit
    identifier is in use is outside the model.) *)
Definition next_rowid (i : nat) (rs : list row) : Z :=
  match int_keys i rs with
  | [] => 1
  | z :: zs => fold_left Z.max zs z + 1
  end.

Definition assign_rowid (d : table_def) (rs : list row) (r : row) : row :=
  match pk_index d with
  | None => r
  | Some i => if is_null (get i r) then put i (VInt (next_rowid i rs)) r else r
  end.

(** No key of the new row [r] is in use in [rs]. *)
Definition keys_fresh (d : table_def) (rs : list row) (r : row) : bool :=
  forallb (fun ic => negb (is_key (snd ic))
                     || negb (existsb (key_eqb (get (fst ic) r))
                                      (map (get (fst ic)) rs)))
          (indexed d).

(** The key columns among [cols] hold distinct values in [rs]. *)
Definition keys_distinct (cols : list (nat * column_def)) (rs : list row)
  : bool :=
  forallb (fun ic => negb (is_key (snd ic))
                     || distinct_values (map (get (fst ic)) rs)) cols.

(** [INSERT INTO tname (columns of asg) VALUES (values of asg)] at time
    [now], on a session whose foreign-key enforcement is [fk]. *)
Definition sql_insert (fk : bool) (now : string) (tname : string)
  (asg : list (string * value)) (db : database) : result database :=
  match find_table tname db with
  | None => Err (OperationalError ("no such table: " ++ tname))
  | Some t =>
      let d := t_def t in
      _ <-- guard (forallb (fun a => known_column d (fst a)) asg)
                  (OperationalError ("table " ++ tname ++ " has no such column")) ;;
      let r := assign_rowid d (t_rows t) (map (initial_value now asg) (tbl_columns d)) in
      _ <-- guard (pk_typed d r) (IntegrityError "datatype mismatch") ;;
      _ <-- guard (not_nulls_ok d r) (IntegrityError "NOT NULL constraint failed") ;;
      _ <-- guard (checks_ok d r) (IntegrityError "CHECK constraint failed") ;;
      _ <-- guard (keys_fresh d (t_rows t) r)
                  (IntegrityError "UNIQUE constraint failed") ;;
      let db' := set_rows tname (t_rows t ++ [r])%list db in
      _ <-- (if fk then child_keys_ok db' d (tbl_foreign_keys d) [r] else Ok tt) ;;
      Ok db'
  end.

(** *** Foreign keys, parent side *)

(** The foreign keys of the catalogue that reference table [tname], each
    with the definition of its child table. *)
Definition referencing (tname : string) (db : database)
  : list (table_def * foreign_key) :=
  flat_map (fun t =>
              map (pair (t_def t))
                  (filter (fun f => name_eqb (fk_parent_table f) tname)
                          (tbl_foreign_keys (t_def t)))) db.

(** [r], a row of the child table, references one of [keys] through its
    column [ci]. *)
Definition child_of (ci : nat) (keys : list value) (r : row) : bool :=
  existsb (key_eqb (get ci r)) keys.

Definition count_children (ci : nat) (k : value) (rs : list row) : Z :=
  Z.of_nat (List.length (filter (fun r => key_eqb (get ci r) k) rs)).

(** *** UPDATE *)

(** An assignment of the SET list: a column and its new value, computed
    from the row as it is before the statement. *)
Definition assignment : Type := (string * (row -> value))%type.

Fixpoint resolve (d : table_def) (set_ : list assignment)
  : option (list (nat * (row -> value))) :=
  match set_ with
  | [] => Some []
  | (n, f) :: rest =>
      match col_index n d, resolve d rest with
      | Some i, Some l => Some ((i, f) :: l)
      | _, _ => None
      end
  end.

(** The assignments are applied left to right, so the rightmost one of a
    column named twice is the one that counts. *)
Definition apply_set (asg : list (nat * (row -> value))) (r : row) : row :=
  fold_left (fun acc a => put (fst a) (snd a r) acc) asg r.

Definition touches (d : table_def) (chg : list nat) (e : expr) : bool :=
  existsb (fun n => match col_index n d with
                    | Some i => mem_nat i chg
                    | None => false
                    end) (expr_columns e).

(** On UPDATE the engine re-examines the constraints of the columns in
    the SET list only. *)
Definition pk_typed_upd (d : table_def) (chg : list nat) (r : row) : bool :=
  match pk_index d with
  | None => true
  | Some i => negb (mem_nat i chg) || pk_typed d r
  end.

Definition not_nulls_ok_upd (d : table_def) (chg : list nat) (r : row) : bool :=
  forallb (fun ic => negb (mem_nat (fst ic) chg) || not_null_passes r ic)
          (indexed d).

Definition checks_ok_upd (d : table_def) (chg : list nat) (r : row) : bool :=
  forallb (fun c => match col_check c with
                    | None => true
                    | Some e => negb (touches d chg e) || check_passes d r c
                    end) (tbl_columns d).

(** The foreign keys of this schema carry no ON UPDATE clause, so a parent
    key that children reference may not be changed away: over the updated
    rows [olds] (before) and [news] (after), the children that lose their
    parent must not outnumber those that gain one. *)
Definition parent_key_ok (tname : string) (d : table_def) (chg : list nat)
  (olds news : list row) (db : database) (cf : table_def * foreign_key)
  : result unit :=
  match col_index (fk_parent_column (snd cf)) d,
        col_index (fk_column (snd cf)) (fst cf) with
  | Some pi, Some ci =>
      if mem_nat pi chg then
        let kids := rows_of (tbl_name (fst cf)) db in
        let lost := fold_right Z.add 0
                      (map (fun r => count_children ci (get pi r) kids) olds) in
        let won := fold_right Z.add 0
                     (map (fun r => count_children ci (get pi r) kids) news) in
        guard (lost <=? won) (IntegrityError "FOREIGN KEY constraint failed")
      else Ok tt
  | _, _ => Err (OperationalError "foreign key mismatch")
  end.

Definition fk_in (d : table_def) (chg : list nat) (f : foreign_key) : bool :=
  match col_index (fk_column f) d with
  | Some i => mem_nat i chg
  | None => false
  end.

(** [UPDATE tname SET set_ WHERE where_], on a session whose foreign-key
    enforcement is [fk].  The statement is all or nothing; the keys that
    it changes must be distinct in the table as it leaves it. *)
Definition sql_update (fk : bool) (tname : string) (where_ : row -> bool)
  (set_ : list assignment) (db : database) : result database :=
  match find_table tname db with
  | None => Err (OperationalError ("no such table: " ++ tname))
  | Some t =>
      let d := t_def t in
      match resolve d set_ with
      | None => Err (OperationalError "no such column")
      | Some asg =>
          let chg := map fst asg in
          let olds := filter where_ (t_rows t) in
          let news := map (apply_set asg) olds in
          _ <-- guard (forallb (pk_typed_upd d chg) news)
                      (IntegrityError "datatype mismatch") ;;
          _ <-- guard (forallb (not_nulls_ok_upd d chg) news)
                      (IntegrityError "NOT NULL constraint failed") ;;
          _ <-- guard (forallb (checks_ok_upd d chg) news)
                      (IntegrityError "CHECK constraint failed") ;;
          let rs := map (fun r => if where_ r then apply_set asg r else r)
                        (t_rows t) in
          _ <-- guard (keys_distinct
                         (filter (fun ic => mem_nat (fst ic) chg) (indexed d)) rs)
                      (IntegrityError "UNIQUE constraint failed") ;;
          let db' := set_rows tname rs db in
          _ <-- (if fk then
                   _ <-- child_keys_ok db' d
                           (filter (fk_in d chg) (tbl_foreign_keys d)) news ;;
                   all_ok (parent_key_ok tname d chg olds news db')
                          (referencing tname db')
                 else Ok tt) ;;
          Ok db'
      end
  end.

(** *** DELETE *)

(** The engine runs a foreign-key action as a nested program and refuses
    to nest deeper than this. *)
Definition max_trigger_depth : nat := 1000.

(** RESTRICT: the delete is refused at once when a child row references
    one of the rows about to go. *)
Definition restrict_ok (d : table_def) (gone : list row) (db : database)
  (cf : table_def * foreign_key) : result unit :=
  match fk_on_delete (snd cf) with
  | RESTRICT =>
      match col_index (fk_parent_column (snd cf)) d,
            col_index (fk_column (snd cf)) (fst cf) with
      | Some pi, Some ci =>
          guard (negb (existsb (child_of ci (map (get pi) gone))
                               (rows_of (tbl_name (fst cf)) db)))
                (IntegrityError "FOREIGN KEY constraint failed")
      | _, _ => Err (OperationalError "foreign key mismatch")
      end
  | _ => Ok tt
  end.

(** The ON DELETE action of the foreign key [cf] (with the definition of
    its child table) once the rows [gone] have left the parent table [d].
    [nested] runs a nested delete; it is absent when no nesting is
    allowed any more.  The action runs when some child row references a
    row that went: CASCADE deletes these child rows, SET NULL updates
    their key to NULL. *)
Definition on_delete_action
  (nested : option (string -> (row -> bool) -> database -> result database))
  (d : table_def) (gone : list row) (db : database)
  (cf : table_def * foreign_key) : result database :=
  match col_index (fk_parent_column (snd cf)) d,
        col_index (fk_column (snd cf)) (fst cf) with
  | Some pi, Some ci =>
      let hit := child_of ci (map (get pi) gone) in
      if existsb hit (rows_of (tbl_name (fst cf)) db) then
        match nested with
        | None => Err (OperationalError "too many levels of trigger recursion")
        | Some delete_nested =>
            match fk_on_delete (snd cf) with
            | CASCADE => delete_nested (tbl_name (fst cf)) hit db
            | SET_NULL =>
                sql_update true (tbl_name (fst cf)) hit
                           [(fk_column (snd cf), fun _ => VNull)] db
            | RESTRICT => Ok db
            end
        end
      else Ok db
  | _, _ => Err (OperationalError "foreign key mismatch")
  end.

(** [delete_rows depth tname dead db] removes the rows of [tname] that
    satisfy [dead], with foreign-key enforcement on: first the RESTRICT
    checks, then the removal, then the ON DELETE action of every foreign
    key that references the table, in catalogue order.  [depth] is the
    nesting still allowed. *)
Fixpoint delete_rows (depth : nat) (tname : string) (dead : row -> bool)
  (db : database) : result database :=
  match find_table tname db with
  | None => Err (OperationalError ("no such table: " ++ tname))
  | Some t =>
      let d := t_def t in
      let gone := filter dead (t_rows t) in
      let refs := referencing tname db in
      _ <-- all_ok (restrict_ok d gone db) refs ;;
      let db1 := set_rows tname (filter (fun r => negb (dead r)) (t_rows t)) db in
      fold_left
        (fun acc cf =>
           db2 <-- acc ;;
           on_delete_action
             (match depth with
              | O => None
              | S depth' => Some (delete_rows depth')
              end) d gone db2 cf)
        refs (Ok db1)
  end.

(** [DELETE FROM tname WHERE where_], on a session whose foreign-key
    enforcement is [fk].  Without enforcement the rows just go. *)
Definition sql_delete (fk : bool) (tname : string) (where_ : row -> bool)
  (db : database) : result database :=
  if fk then delete_rows max_trigger_depth tname where_ db
  else
    match find_table tname db with
    | None => Err (OperationalError ("no such table: " ++ tname))
    | Some t =>
        Ok (set_rows tname (filter (fun r => negb (where_ r)) (t_rows t)) db)
    end.

(** *** Statements *)

Inductive dml : Type :=
| Insert (tname : string) (asg : list (string * value))
| Update (tname : string) (where_ : row -> bool) (set_ : list assignment)
| Delete (tname : string) (where_ : row -> bool).

Definition exec_dml (fk : bool) (now : string) (s : dml) (db : database)
  : result database :=
  match s with
  | Insert tname asg => sql_insert fk now tname asg db
  | Update tname where_ set_ => sql_update fk tname where_ set_ db
  | Delete tname where_ => sql_delete fk tname where_ db
  end.

Inductive ddl : Type :=
| CreateTable (if_not_exists : bool) (d : table_def).

Definition exec_ddl (s : ddl) (db : database) : result database :=
  match s with
  | CreateTable ine d => create_table ine d db
  end.

End Sql.

(* ================================================================== *)
(** ** The Python runtime the program runs on *)
(* ================================================================== *)

Module Py.
Import Sql.

(** What the process is started with: the sqlite3 library's version
    string, the path of the script ([__file__]) and the functions of
    [os.path], which the program only composes. *)
Record environment : Type := Environment {
  sqlite_version : string;
  script_file : string;
  abspath : string -> string;
  dirname : string -> string;
  join : string -> string -> string
}.

(** The session state of a [sqlite3.Connection] object. *)
Record session : Type := Session {
  s_path : string;
  s_foreign_keys : bool;
  s_open : bool
}.

(** A connection is a reference to its session. *)
Definition connection : Type := nat.

Inductive statement : Type :=
| PragmaForeignKeys (on : bool)
| Ddl (s : ddl).

(** The state the program runs in.  [w_faults] is the fate of the coming
    calls into the engine, one entry per call, in order: [None] when the
    engine does its work, [Some e] when it fails with [e] (file cannot be
    opened, disk error, database locked, ...); past the end of the list
    the engine works.  [w_log] records the statements handed to the
    engine. *)
Record world : Type := World {
  w_env : environment;
  w_files : list (string * database);
  w_sessions : list session;
  w_stdout : list string;
  w_faults : list (option sqlite_error);
  w_log : list statement
}.

Inductive outcome (A : Type) : Type :=
| Return (a : A)
| Raise (e : sqlite_error).
Arguments Return {A} a.
Arguments Raise {A} e.

Definition M (A : Type) : Type := world -> outcome A * world.

Definition ret {A} (a : A) : M A := fun w => (Return a, w).

Definition bind {A B} (m : M A) (k : A -> M B) : M B :=
  fun w => match m w with
           | (Return a, w') => k a w'
           | (Raise e, w') => (Raise e, w')
           end.

Definition raise {A} (e : sqlite_error) : M A := fun w => (Raise e, w).

(** [try: body  except sqlite3.Error as e: handler e]. *)
Definition try_except {A} (body : M A) (handler : sqlite_error -> M A) : M A :=
  fun w => match body w with
           | (Return a, w') => (Return a, w')
           | (Raise e, w') => handler e w'
           end.

Declare Scope py_scope.
Delimit Scope py_scope with py.
Notation "x <- m ;; k" := (bind m (fun x => k))
  (at level 61, m at next level, right associativity) : py_scope.
Notation "m ;; k" := (bind m (fun _ => k))
  (at level 61, right associativity) : py_scope.

(** *** Files *)

Fixpoint lookup_file (p : string) (fs : list (string * database))
  : option database :=
  match fs with
  | [] => None
  | (q, db) :: rest => if String.eqb p q then Some db else lookup_file p rest
  end.

Fixpoint write_file (p : string) (db : database) (fs : list (string * database))
  : list (string * database) :=
  match fs with
  | [] => [(p, db)]
  | (q, old) :: rest =>
      if String.eqb p q then (q, db) :: rest else (q, old) :: write_file p db rest
  end.

(** The database stored at [p]; a missing file reads as the empty
    database. *)
Definition db_at (p : string) (w : world) : database :=
  match lookup_file p (w_files w) with Some db => db | None => [] end.

(** *** Primitives *)

Definition print (line : string) : M unit :=
  fun w => (Return tt,
            World (w_env w) (w_files w) (w_sessions w)
                  (w_stdout w ++ [line])%list (w_faults w) (w_log w)).

Definition getenv : M environment := fun w => (Return (w_env w), w).

(** One call into the engine: take the next entry of the schedule. *)
Definition engine_call : M unit :=
  fun w =>
    let w' := World (w_env w) (w_files w) (w_sessions w) (w_stdout w)
                    (tl (w_faults w)) (w_log w) in
    match w_faults w with
    | Some e :: _ => (Raise e, w')
    | _ => (Return tt, w')
    end.

(** [sqlite3.connect(db_file)]: opens the file, creating it empty when it
    does not exist, and returns a new connection, whose foreign-key
    enforcement is off. *)
Definition sqlite3_connect (db_file : string) : M connection :=
  (engine_call ;;
   fun w =>
     (Return (List.length (w_sessions w)),
      World (w_env w)
            (match lookup_file db_file (w_files w) with
             | Some _ => w_files w
             | None => write_file db_file [] (w_files w)
             end)
            (w_sessions w ++ [Session db_file false true])%list
            (w_stdout w) (w_faults w) (w_log w)))%py.

Definition closed_error : sqlite_error :=
  ProgrammingError "Cannot operate on a closed database.".

(** The open session behind a connection. *)
Definition the_session (conn : connection) : M session :=
  fun w => match nth_error (w_sessions w) conn with
           | Some s => if s_open s then (Return s, w) else (Raise closed_error, w)
           | None => (Raise closed_error, w)
           end.

Fixpoint set_nth {A} (i : nat) (a : A) (l : list A) : list A :=
  match l, i with
  | [], _ => []
  | _ :: rest, O => a :: rest
  | x :: rest, S j => x :: set_nth j a rest
  end.

Definition set_session (conn : connection) (s : session) : M unit :=
  fun w => (Return tt,
            World (w_env w) (w_files w) (set_nth conn s (w_sessions w))
                  (w_stdout w) (w_faults w) (w_log w)).

Definition store (p : string) (db : database) : M unit :=
  fun w => (Return tt,
            World (w_env w) (write_file p db (w_files w)) (w_sessions w)
                  (w_stdout w) (w_faults w) (w_log w)).

Definition load (p : string) : M database := fun w => (Return (db_at p w), w).

Definition log (st : statement) : M unit :=
  fun w => (Return tt,
            World (w_env w) (w_files w) (w_sessions w) (w_stdout w)
                  (w_faults w) (w_log w ++ [st])%list).

(** [conn.execute(st)] and [cursor.execute(st)].  The sqlite3 module opens
    no transaction before a data-definition statement, so the statement
    takes effect in the file as soon as it has run. *)
Definition execute (conn : connection) (st : statement) : M unit :=
  (s <- the_session conn ;;
   log st ;;
   engine_call ;;
   match st with
   | PragmaForeignKeys on =>
       set_session conn (Session (s_path s) on (s_open s))
   | Ddl d =>
       db <- load (s_path s) ;;
       match exec_ddl d db with
       | Ok db' => store (s_path s) db'
       | Err e => raise e
       end
   end)%py.

(** [conn.cursor()]: a cursor runs its statements on its connection. *)
Definition cursor (conn : connection) : M connection :=
  (_ <- the_session conn ;; ret conn)%py.

(** [conn.commit()]: there is no open transaction to end. *)
Definition commit (conn : connection) : M unit :=
  (_ <- the_session conn ;; engine_call)%py.

(** [conn.close()]. *)
Definition close (conn : connection) : M unit :=
  fun w => match nth_error (w_sessions w) conn with
           | Some s => set_session conn (Session (s_path s) (s_foreign_keys s) false) w
           | None => (Return tt, w)
           end.

End Py.

(* ================================================================== *)
(** ** The program: setup_database.py *)
(* ================================================================== *)

Import Sql Py.
Local Open Scope py_scope.

Definition DATABASE_FILENAME : string := "inventory_management_v1.db".

(** Create a database connection to a SQLite database.

    [conn] is [None] until [sqlite3.connect] has returned: an exception
    raised by [connect] leaves it so, one raised later in the [try] block
    finds it bound to the new connection.  Either way the handler prints
    the exception and the function returns [conn]. *)
Definition create_connection (db_file : string) : M (option connection) :=
  try_except
    (conn <- sqlite3_connect db_file ;;
     try_except
       (env <- getenv ;;
        print ("SQLite version: " ++ sqlite_version env) ;;
        print ("Successfully connected to database: " ++ abspath env db_file) ;;
        (* Enable foreign key constraint enforcement *)
        execute conn (PragmaForeignKeys true) ;;
        ret (Some conn))
       (fun e => print (error_message e) ;; ret (Some conn)))
    (fun e => print (error_message e) ;; ret None).

Definition sql_create_user_account_table : ddl :=
  CreateTable true (TableDef "UserAccount"
    [ column "UserID" INTEGER |> PRIMARY_KEY;
      column "FullName" (VARCHAR 255) |> NOT_NULL;
      column "Role" (VARCHAR 100);
      column "Username" (VARCHAR 100) |> NOT_NULL |> UNIQUE;
      column "PasswordHash" (VARCHAR 255) |> NOT_NULL;
      column "AccessLevel" (VARCHAR 50) ]
    []).

Definition sql_create_production_line_table : ddl :=
  CreateTable true (TableDef "ProductionLine"
    [ column "ProductionLineID" INTEGER |> PRIMARY_KEY;
      column "LineName" (VARCHAR 255) |> NOT_NULL |> UNIQUE;
      column "Status" (VARCHAR 50) ]
    []).

Definition sql_create_production_batch_table : ddl :=
  CreateTable true (TableDef "ProductionBatch"
    [ column "BatchID" INTEGER |> PRIMARY_KEY;
      column "ProductionLineID" INT |> NOT_NULL;
      column "ShiftDate" DATE |> NOT_NULL;
      column "ShiftType" (VARCHAR 50);
      column "QuantityProduced" INT |> NOT_NULL
        |> CHECK (EGe (ECol "QuantityProduced") (EInt 0));
      column "CreatedByUserID" INT;
      column "CreatedAt" TIMESTAMP |> DEFAULT DefaultCurrentTimestamp ]
    [ FOREIGN_KEY "ProductionLineID" "ProductionLine" "ProductionLineID" CASCADE;
      FOREIGN_KEY "CreatedByUserID" "UserAccount" "UserID" SET_NULL ]).

Definition sql_create_inventory_item_table : ddl :=
  CreateTable true (TableDef "InventoryItem"
    [ column "InventoryItemID" INTEGER |> PRIMARY_KEY;
      column "ItemType" (VARCHAR 100);
      column "ItemName" (VARCHAR 255) |> NOT_NULL |> UNIQUE;
      column "QuantityInStock" INT |> NOT_NULL |> DEFAULT (DefaultLiteral (VInt 0))
        |> CHECK (EGe (ECol "QuantityInStock") (EInt 0));
      column "ReorderThreshold" INT |> DEFAULT (DefaultLiteral (VInt 0))
        |> CHECK (EGe (ECol "ReorderThreshold") (EInt 0));
      column "LastUpdated" TIMESTAMP |> DEFAULT DefaultCurrentTimestamp ]
    []).

Definition sql_create_inventory_transaction_table : ddl :=
  CreateTable true (TableDef "InventoryTransaction"
    [ column "TransactionID" INTEGER |> PRIMARY_KEY;
      column "InventoryItemID" INT |> NOT_NULL;
      column "BatchID" INT;
      column "QuantityChange" INT |> NOT_NULL;
      column "Reason" (VARCHAR 255);
      column "TransactionDate" TIMESTAMP |> DEFAULT DefaultCurrentTimestamp;
      column "UpdatedByUserID" INT ]
    [ FOREIGN_KEY "InventoryItemID" "InventoryItem" "InventoryItemID" CASCADE;
      FOREIGN_KEY "BatchID" "ProductionBatch" "BatchID" SET_NULL;
      FOREIGN_KEY "UpdatedByUserID" "UserAccount" "UserID" SET_NULL ]).

Definition sql_create_defect_type_table : ddl :=
  CreateTable true (TableDef "DefectType"
    [ column "DefectTypeID" INTEGER |> PRIMARY_KEY;
      column "DefectName" (VARCHAR 255) |> NOT_NULL |> UNIQUE ]
    []).

Definition sql_create_defect_log_table : ddl :=
  CreateTable true (TableDef "DefectLog"
    [ column "DefectID" INTEGER |> PRIMARY_KEY;
      column "BatchID" INT |> NOT_NULL;
      column "DefectTypeID" INT |> NOT_NULL;
      column "SeverityLevel" (VARCHAR 50);
      column "DefectDescription" TEXT;
      column "LoggedByUserID" INT;
      column "DateLogged" TIMESTAMP |> DEFAULT DefaultCurrentTimestamp ]
    [ FOREIGN_KEY "BatchID" "ProductionBatch" "BatchID" CASCADE;
      FOREIGN_KEY "DefectTypeID" "DefectType" "DefectTypeID" RESTRICT;
      FOREIGN_KEY "LoggedByUserID" "UserAccount" "UserID" SET_NULL ]).

Definition sql_create_return_reason_table : ddl :=
  CreateTable true (TableDef "ReturnReason"
    [ column "ReturnReasonID" INTEGER |> PRIMARY_KEY;
      column "ReasonDescription" (VARCHAR 255) |> NOT_NULL |> UNIQUE ]
    []).

Definition sql_create_return_log_table : ddl :=
  CreateTable true (TableDef "ReturnLog"
    [ column "ReturnID" INTEGER |> PRIMARY_KEY;
      column "CustomerID" INT;
      column "BatchID" INT;
      column "ReturnReasonID" INT;
      column "DateReturned" TIMESTAMP |> DEFAULT DefaultCurrentTimestamp;
      column "Notes" TEXT;
      column "ProcessedByUserID" INT ]
    [ FOREIGN_KEY "BatchID" "ProductionBatch" "BatchID" SET_NULL;
      FOREIGN_KEY "ReturnReasonID" "ReturnReason" "ReturnReasonID" SET_NULL;
      FOREIGN_KEY "ProcessedByUserID" "UserAccount" "UserID" SET_NULL ]).

(** Create tables from the SQL statements. *)
Definition create_tables (conn : connection) : M unit :=
  try_except
    (cursor_ <- cursor conn ;;
     print "Creating table UserAccount..." ;;
     execute cursor_ (Ddl sql_create_user_account_table) ;;
     print "Creating table ProductionLine..." ;;
     execute cursor_ (Ddl sql_create_production_line_table) ;;
     print "Creating table ProductionBatch..." ;;
     execute cursor_ (Ddl sql_create_production_batch_table) ;;
     print "Creating table InventoryItem..." ;;
     execute cursor_ (Ddl sql_create_inventory_item_table) ;;
     print "Creating table InventoryTransaction..." ;;
     execute cursor_ (Ddl sql_create_inventory_transaction_table) ;;
     print "Creating table DefectType..." ;;
     execute cursor_ (Ddl sql_create_defect_type_table) ;;
     print "Creating table DefectLog..." ;;
     execute cursor_ (Ddl sql_create_defect_log_table) ;;
     print "Creating table ReturnReason..." ;;
     execute cursor_ (Ddl sql_create_return_reason_table) ;;
     print "Creating table ReturnLog..." ;;
     execute cursor_ (Ddl sql_create_return_log_table) ;;
     commit conn ;;
     print "All tables created successfully (if they didn't already exist).")
    (fun e => print ("Error creating tables: " ++ error_message e)).

Definition db_path (env : environment) : string :=
  (* Get the directory of the current script *)
  let script_dir := dirname env (abspath env (script_file env)) in
  (* Join it with the desired database filename *)
  join env script_dir DATABASE_FILENAME.

Definition main : M unit :=
  env <- getenv ;;
  let db_path := db_path env in
  (* Create a database connection *)
  conn <- create_connection db_path ;;
  (* Create tables *)
  match conn with
  | Some conn =>
      create_tables conn ;;
      close conn ;;
      print ("Database setup complete. File saved at: " ++ db_path)
  | None =>
      print "Error! Cannot create the database connection."
  end.

(* ================================================================== *)
(** ** Vocabulary of the properties *)
(* ================================================================== *)

Definition def_of (s : ddl) : table_def :=
  match s with CreateTable _ d => d end.

(** The nine statements, in the order [create_tables] runs them. *)
Definition the_statements : list ddl :=
  [ sql_create_user_account_table;
    sql_create_production_line_table;
    sql_create_production_batch_table;
    sql_create_inventory_item_table;
    sql_create_inventory_transaction_table;
    sql_create_defect_type_table;
    sql_create_defect_log_table;
    sql_create_return_reason_table;
    sql_create_return_log_table ].

Definition the_schema : list table_def := map def_of the_statements.

Definition UserAccount : table_def := def_of sql_create_user_account_table.
Definition ProductionLine : table_def := def_of sql_create_production_line_table.
Definition ProductionBatch : table_def := def_of sql_create_production_batch_table.
Definition InventoryItem : table_def := def_of sql_create_inventory_item_table.
Definition InventoryTransaction : table_def :=
  def_of sql_create_inventory_transaction_table.
Definition DefectType : table_def := def_of sql_create_defect_type_table.
Definition DefectLog : table_def := def_of sql_create_defect_log_table.
Definition ReturnReason : table_def := def_of sql_create_return_reason_table.
Definition ReturnLog : table_def := def_of sql_create_return_log_table.

(** The database right after initialization of an empty location: the
    nine tables, no rows. *)
Definition initialized : database := map (fun d => Table d []) the_schema.

(** [CREATE TABLE IF NOT EXISTS d] as a function on databases. *)
Definition ensure (d : table_def) (db : database) : database :=
  if has_table (tbl_name d) db then db else (db ++ [Table d []])%list.

Definition ensure_all (ds : list table_def) (db : database) : database :=
  fold_left (fun acc d => ensure d acc) ds db.

Definition db_of (p : string) (fs : list (string * database)) : database :=
  match lookup_file p fs with Some db => db | None => [] end.

(** The lines the program prints. *)
Definition creating (d : table_def) : string :=
  "Creating table " ++ tbl_name d ++ "...".

Definition connected (env : environment) (p : string) : list string :=
  [ "SQLite version: " ++ sqlite_version env;
    "Successfully connected to database: " ++ abspath env p ].

Definition all_created : string :=
  "All tables created successfully (if they didn't already exist).".

Definition setup_complete (p : string) : string :=
  "Database setup complete. File saved at: " ++ p.

(** What a run without any error prints. *)
Definition transcript (env : environment) : list string :=
  (connected env (db_path env) ++ map creating the_schema
     ++ [all_created; setup_complete (db_path env)])%list.

(** Every table that a foreign key of [d] references is among [earlier]. *)
Definition parents_among (earlier : list table_def) (d : table_def) : Prop :=
  forall f, In f (tbl_foreign_keys d) ->
            exists p, In p earlier /\ tbl_name p = fk_parent_table f.

(** In the sequence [ds] every table comes after the tables it references. *)
Definition parents_first (ds : list table_def) : Prop :=
  forall before d after,
    ds = (before ++ d :: after)%list -> parents_among before d.

(** The value of the column named [n] in a row of table [d]. *)
Definition field (d : table_def) (n : string) (r : row) : value :=
  eval d r (ECol n).

Definition negative (v : value) : Prop :=
  exists z, v = VInt z /\ z < 0.

(** [child] references [parent]: its key is not NULL and equals the
    parent's. *)
Definition references (child_key parent_key : value) : Prop :=
  key_eqb child_key parent_key = true.

(** The databases that row statements, on sessions with or without
    foreign-key enforcement and at any time, lead to from the initialized
    one. *)
Inductive reachable : database -> Prop :=
| reach_initialized : reachable initialized
| reach_step (db db' : database) (fk : bool) (now : string) (s : dml) :
    reachable db -> exec_dml fk now s db = Ok db' -> reachable db'.

(** A decision procedure for [parents_first]. *)
Fixpoint parents_firstb (earlier ds : list table_def) : bool :=
  match ds with
  | [] => true
  | d :: rest =>
      forallb (fun f => existsb (fun p => String.eqb (tbl_name p) (fk_parent_table f))
                                earlier)
              (tbl_foreign_keys d)
      && parents_firstb (earlier ++ [d]) rest
  end.

(** A process environment and a world to run the program in: no file, no
    connection, nothing printed, an engine that works. *)
Definition example_env : environment :=
  Environment "3.45.1" "/srv/app/setup_database.py"
              (fun p => p) (fun _ => "/srv/app")
              (fun a b => (a ++ "/" ++ b)%string).

Definition example_world : world := World example_env [] [] [] [] [].

(** Opening a location gives it a file without changing what a reader of
    the location sees. *)
Definition opened (p : string) (fs : list (string * database))
  : list (string * database) :=
  match lookup_file p fs with
  | Some _ => fs
  | None => write_file p [] fs
  end.


(** *** The data model in the words of the specification

    The specification (its section 3) describes each entity by its
    attributes and its references to other entities; every entity is
    identified by an integer that the store assigns.  [data_model] is that
    description, entity by entity and in its order; [conforms] compares a
    table definition with it. *)
Inductive rule : Type :=
| Unique           (* "(unique)" *)
| NonNegative      (* "(>= 0)" *)
| DefaultZero      (* "default 0" *)
| DefaultNow       (* "defaults to creation time" *)
| IsTimestamp.     (* "timestamp" *)

Record spec_attribute : Type := Attribute {
  attr_name : string;
  attr_rules : list rule
}.

Record spec_reference : Type := Reference {
  ref_column : option string;   (* the referencing field, where it is named *)
  ref_target : string;
  ref_required : bool;
  ref_on_delete : on_delete
}.

Record spec_entity : Type := Entity {
  ent_name : string;
  ent_attributes : list spec_attribute;
  ent_references : list spec_reference
}.

Definition data_model : list spec_entity :=
  [ Entity "UserAccount"
      [ Attribute "FullName" []; Attribute "Role" [];
        Attribute "Username" [Unique]; Attribute "PasswordHash" [];
        Attribute "AccessLevel" [] ]
      [];
    Entity "ProductionLine"
      [ Attribute "LineName" [Unique]; Attribute "Status" [] ]
      [];
    Entity "ProductionBatch"
      [ Attribute "ShiftDate" []; Attribute "ShiftType" [];
        Attribute "QuantityProduced" [NonNegative];
        Attribute "CreatedAt" [IsTimestamp; DefaultNow] ]
      [ Reference None "ProductionLine" true CASCADE;
        Reference None "UserAccount" false SET_NULL ];
    Entity "InventoryItem"
      [ Attribute "ItemType" []; Attribute "ItemName" [Unique];
        Attribute "QuantityInStock" [NonNegative; DefaultZero];
        Attribute "ReorderThreshold" [NonNegative; DefaultZero];
        Attribute "LastUpdated" [IsTimestamp] ]
      [];
    Entity "InventoryTransaction"
      [ Attribute "QuantityChange" []; Attribute "Reason" [];
        Attribute "TransactionDate" [] ]
      [ Reference None "InventoryItem" true CASCADE;
        Reference None "ProductionBatch" false SET_NULL;
        Reference (Some "UpdatedByUserID") "UserAccount" false SET_NULL ];
    Entity "DefectType"
      [ Attribute "DefectName" [Unique] ]
      [];
    Entity "DefectLog"
      [ Attribute "SeverityLevel" []; Attribute "DefectDescription" [];
        Attribute "DateLogged" [] ]
      [ Reference None "ProductionBatch" true CASCADE;
        Reference None "DefectType" true RESTRICT;
        Reference (Some "LoggedByUserID") "UserAccount" false SET_NULL ];
    Entity "ReturnReason"
      [ Attribute "ReasonDescription" [Unique] ]
      [];
    Entity "ReturnLog"
      [ Attribute "CustomerID" []; Attribute "DateReturned" [];
        Attribute "Notes" [] ]
      [ Reference None "ProductionBatch" false SET_NULL;
        Reference None "ReturnReason" false SET_NULL;
        Reference (Some "ProcessedByUserID") "UserAccount" false SET_NULL ] ].

Definition rule_eqb (a b : rule) : bool :=
  match a, b with
  | Unique, Unique | NonNegative, NonNegative | DefaultZero, DefaultZero
  | DefaultNow, DefaultNow | IsTimestamp, IsTimestamp => true
  | _, _ => false
  end.

Definition has_rule (r : rule) (a : spec_attribute) : bool :=
  existsb (rule_eqb r) (attr_rules a).

Definition on_delete_eqb (a b : on_delete) : bool :=
  match a, b with
  | CASCADE, CASCADE | SET_NULL, SET_NULL | RESTRICT, RESTRICT => true
  | _, _ => false
  end.

Definition find_column (n : string) (d : table_def) : option column_def :=
  find (fun c => String.eqb (col_name c) n) (tbl_columns d).

(** The column of an attribute: not a key of the table's identity, unique
    exactly when the attribute is, checked [>= 0] exactly when the
    attribute is non-negative, and with the default and type that the
    attribute is given. *)
Definition attribute_conforms (d : table_def) (a : spec_attribute) : bool :=
  match find_column (attr_name a) d with
  | None => false
  | Some c =>
      negb (col_primary_key c)
      && Bool.eqb (col_unique c) (has_rule Unique a)
      && match col_check c with
         | None => negb (has_rule NonNegative a)
         | Some (EGe (ECol n) (EInt 0)) =>
             has_rule NonNegative a && String.eqb n (attr_name a)
         | Some _ => false
         end
      && (negb (has_rule DefaultZero a)
          || match col_default c with
             | Some (DefaultLiteral (VInt 0)) => true
             | _ => false
             end)
      && (negb (has_rule DefaultNow a)
          || match col_default c with
             | Some DefaultCurrentTimestamp => true
             | _ => false
             end)
      && (negb (has_rule IsTimestamp a)
          || match col_type c with TIMESTAMP => true | _ => false end)
  end.

(** The foreign key of a reference: to the identifier of the target, with
    the delete behaviour stated, on a column that is NOT NULL exactly when
    the reference is required. *)
Definition reference_conforms (schema_ : list table_def) (d : table_def)
  (r : spec_reference) (f : foreign_key) : bool :=
  String.eqb (fk_parent_table f) (ref_target r)
  && on_delete_eqb (fk_on_delete f) (ref_on_delete r)
  && match ref_column r with
     | None => true
     | Some n => String.eqb (fk_column f) n
     end
  && match find_column (fk_column f) d with
     | Some c => Bool.eqb (col_not_null c) (ref_required r)
                 && negb (col_primary_key c)
     | None => false
     end
  && match find (fun p => String.eqb (tbl_name p) (ref_target r)) schema_ with
     | Some p =>
         match find_column (fk_parent_column f) p with
         | Some c => col_primary_key c
         | None => false
         end
     | None => false
     end.

Fixpoint forallb2 {A B} (f : A -> B -> bool) (l : list A) (m : list B) : bool :=
  match l, m with
  | [], [] => true
  | a :: l', b :: m' => f a b && forallb2 f l' m'
  | _, _ => false
  end.

(** A table conforms to an entity: same name; one identifier column, an
    INTEGER PRIMARY KEY, which the store assigns; a column for every
    attribute and a foreign key for every reference; no other column. *)
Definition conforms (schema_ : list table_def) (e : spec_entity) (d : table_def)
  : bool :=
  String.eqb (tbl_name d) (ent_name e)
  && match filter col_primary_key (tbl_columns d) with
     | [c] => match col_type c with INTEGER => true | _ => false end
     | _ => false
     end
  && forallb (attribute_conforms d) (ent_attributes e)
  && forallb2 (reference_conforms schema_ d) (ent_references e)
              (tbl_foreign_keys d)
  && Nat.eqb (List.length (tbl_columns d))
             (1 + List.length (ent_attributes e) + List.length (ent_references e)).

Definition schema_conforms (m : list spec_entity) (schema_ : list table_def)
  : bool :=
  forallb2 (conforms schema_) m schema_.


(** *** Vocabulary of the row statements *)

(** A database with the nine tables, given their rows. *)
Definition the_database (users lines batches items transactions
                           defect_types defect_logs return_reasons return_logs
                           : list row) : database :=
  [ Table UserAccount users; Table ProductionLine lines;
    Table ProductionBatch batches; Table InventoryItem items;
    Table InventoryTransaction transactions; Table DefectType defect_types;
    Table DefectLog defect_logs; Table ReturnReason return_reasons;
    Table ReturnLog return_logs ].

(** The rows [rs] with column [ci] set to NULL in those that satisfy
    [hit]; the rows [rs] without those that satisfy [dead]. *)
Definition nullify (ci : nat) (hit : row -> bool) (rs : list row) : list row :=
  map (fun r => if hit r then put ci VNull r else r) rs.

Definition without (dead : row -> bool) (rs : list row) : list row :=
  filter (fun r => negb (dead r)) rs.

(** The row [r] of table [d] with the column named [n] set to [v]. *)
Definition with_field (d : table_def) (n : string) (v : value) (r : row) : row :=
  match col_index n d with Some i => put i v r | None => r end.

(** Column [ci] of table [tname] can be set to NULL as far as the
    declarations go: it is not the primary key, not declared NOT NULL, not
    a key column, the parent tables of its foreign keys exist, and no
    foreign key references it. *)
Definition nullable_column (db : database) (tname : string) (ci : nat) : bool :=
  match find_table tname db with
  | None => false
  | Some t =>
      let d := t_def t in
      match pk_index d with Some i => negb (Nat.eqb i ci) | None => true end
      && forallb (fun ic => negb (Nat.eqb (fst ic) ci)
                            || (negb (col_not_null (snd ic))
                                && negb (is_key (snd ic)))) (indexed d)
      && forallb (fun f =>
                    match find_table (fk_parent_table f) db with
                    | Some p => known_column (t_def p) (fk_parent_column f)
                    | None => false
                    end)
                 (filter (fk_in d [ci]) (tbl_foreign_keys d))
      && forallb (fun cf =>
                    match col_index (fk_parent_column (snd cf)) d,
                          col_index (fk_column (snd cf)) (fst cf) with
                    | Some pi, Some _ => negb (Nat.eqb pi ci)
                    | _, _ => false
                    end)
                 (referencing tname db)
  end.

(** The key [k] references a row of [parents] that satisfies [dead];
    [pk] reads the parent key of a row. *)
Definition refers_to_dead (k : value) (pk : row -> value) (dead : row -> bool)
  (parents : list row) : bool :=
  existsb (fun p => dead p && key_eqb k (pk p)) parents.

(** A small database on the schema: one user, two lines with a batch
    each, a defect logged on the first batch, an item with a transaction
    and a return for that batch. *)
Definition example_database : database :=
  the_database
    [ [VInt 1; VText "Ann"; VNull; VText "ann"; VText "hash"; VNull] ]
    [ [VInt 1; VText "Line 1"; VNull]; [VInt 2; VText "Line 2"; VNull] ]
    [ [VInt 1; VInt 1; VText "2026-01-05"; VNull; VInt 5; VInt 1;
       VText "2026-01-05 08:00:00"];
      [VInt 2; VInt 2; VText "2026-01-05"; VNull; VInt 7; VInt 1;
       VText "2026-01-05 08:00:00"] ]
    [ [VInt 1; VNull; VText "bolt"; VInt 0; VInt 0; VText "2026-01-05 08:00:00"] ]
    [ [VInt 1; VInt 1; VInt 1; VInt (-3); VNull; VText "2026-01-05 08:00:00"; VNull] ]
    [ [VInt 1; VText "scratch"] ]
    [ [VInt 1; VInt 1; VInt 1; VNull; VNull; VNull; VText "2026-01-05 08:00:00"] ]
    []
    [ [VInt 1; VNull; VInt 1; VNull; VText "2026-01-05 08:00:00"; VNull; VNull] ].

(** The rows whose first column, the identifier, is [k]. *)
Definition with_id (k : Z) (r : row) : bool := value_eqb (get 0%nat r) (VInt k).

(** Every row of [db] satisfies the NOT NULL and CHECK constraints of its
    table, and the schema of [db] is [s]. *)
Definition sound (s : list table_def) (db : database) : Prop :=
  schema db = s
  /\ forall t, In t db -> forall r, In r (t_rows t) -> row_ok (t_def t) r = true.

(** A value that is not a negative number: an integer is [>= 0]; NULL
    and texts are no negative numbers. *)
Definition non_negative (v : value) : Prop :=
  forall z, v = VInt z -> 0 <= z.

(** The stock, threshold and quantity fields. *)
Definition non_negative_fields : list (table_def * string) :=
  [ (InventoryItem, "QuantityInStock");
    (InventoryItem, "ReorderThreshold");
    (ProductionBatch, "QuantityProduced") ].

(** The column [n] of [d] carries the constraint [CHECK (n >= 0)]. *)
Definition checked_non_negative (d : table_def) (n : string) : Prop :=
  exists c, In c (tbl_columns d) /\ col_check c = Some (EGe (ECol n) (EInt 0)).

(** The SET list [set_] names the column [n] of [d]; the row that it
    makes of [r]. *)
Definition assigned (d : table_def) (set_ : list assignment) (n : string) : bool :=
  match resolve d set_, col_index n d with
  | Some asg, Some i => mem_nat i (map fst asg)
  | _, _ => false
  end.

Definition new_row (d : table_def) (set_ : list assignment) (r : row)
  : option row :=
  option_map (fun asg => apply_set asg r) (resolve d set_).

(** *** Quantities that are numbers *)

(** The integers that the store holds: 64 bits, signed. *)
Definition min_integer : Z := -9223372036854775808.
Definition max_integer : Z := 9223372036854775807.

Definition stored_integer (z : Z) : Prop := min_integer <= z <= max_integer.

(** NULL, or an integer that the store holds. *)
Definition number_or_null (v : value) : Prop :=
  v = VNull \/ exists z, v = VInt z /\ stored_integer z.

(** [n] names one of the stock, threshold and quantity fields. *)
Definition quantity_column (n : string) : bool :=
  existsb (fun dn => name_eqb n (snd dn)) non_negative_fields.

(** The statement [st] gives the stock, threshold and quantity fields
    numbers: what its VALUES or SET list holds for a column of such a
    name is NULL or an integer that the store holds. *)
Definition supplies_numbers (st : dml) : Prop :=
  match st with
  | Insert _ asg =>
      forall n v, In (n, v) asg -> quantity_column n = true -> number_or_null v
  | Update _ _ set_ =>
      forall n f r, In (n, f) set_ -> quantity_column n = true ->
                    number_or_null (f r)
  | Delete _ _ => True
  end.

(** The databases that such statements, on sessions with or without
    foreign-key enforcement and at any time, lead to from the initialized
    one. *)
Inductive reachable_with_numbers : database -> Prop :=
| numbers_initialized : reachable_with_numbers initialized
| numbers_step (db db' : database) (fk : bool) (now : string) (st : dml) :
    reachable_with_numbers db -> supplies_numbers st ->
    exec_dml fk now st db = Ok db' -> reachable_with_numbers db'.

(** Column [k] of the rows [rs] holds numbers or NULL. *)
Definition numbers_at (k : nat) (rs : list row) : Prop :=
  forall r, In r rs -> number_or_null (get k r).

(** *** Vocabulary of the further properties *)

(** The first [n] coming calls into the engine do not fail. *)
Definition clean (n : nat) (faults : list (option sqlite_error)) : Prop :=
  forall i, (i < n)%nat -> nth i faults None = None.

(** The tables of [ds] that [db] has no table named like. *)
Definition missing (ds : list table_def) (db : database) : list table_def :=
  filter (fun d => negb (has_table (tbl_name d) db)) ds.

(** The parent keys that the foreign key [f] can reference in [db]. *)
Definition parent_keys (db : database) (f : foreign_key) : list value :=
  match find_table (fk_parent_table f) db with
  | Some p =>
      match col_index (fk_parent_column f) (t_def p) with
      | Some pi => map (get pi) (t_rows p)
      | None => []
      end
  | None => []
  end.

(** A world whose location already holds a table named like one of the
    nine (in other letter case, with other columns and a row), and a world
    whose only session is closed. *)
Definition legacy_world : world :=
  World example_env
        [ (db_path example_env,
           [ Table (TableDef "USERACCOUNT" [column "Login" TEXT] [])
                   [[VText "ann"]] ]) ]
        [] [] [] [].

Definition closed_world : world :=
  World example_env [] [Session (db_path example_env) true false] [] [] [].

(** The column named [n] of [d]: its position and its declaration. *)
Definition column_at (d : table_def) (n : string) (i : nat) (c : column_def)
  : Prop :=
  col_index n d = Some i /\ nth_error (tbl_columns d) i = Some c.

(** No foreign key of [ds] references its own table. *)
Definition no_self_reference (ds : list table_def) : bool :=
  forallb (fun d => forallb (fun f => negb (name_eqb (fk_parent_table f) (tbl_name d)))
                            (tbl_foreign_keys d)) ds.

(** *** References that do not dangle *)

(** In the row [r] of table [d] the foreign key [f] is NULL or is the key
    of a parent row of [db]. *)
Definition reference_ok (db : database) (d : table_def) (f : foreign_key)
  (r : row) : Prop :=
  field d (fk_column f) r = VNull
  \/ existsb (key_eqb (field d (fk_column f) r)) (parent_keys db f) = true.

Definition referential (db : database) : Prop :=
  forall t f r,
    In t db -> In f (tbl_foreign_keys (t_def t)) -> In r (t_rows t) ->
    reference_ok db (t_def t) f r.

(** The statement [st] leaves identifiers alone: it is no UPDATE whose
    SET list names the identifier column of its table. *)
Definition keeps_identifiers (db : database) (st : dml) : Prop :=
  match st with
  | Update tname _ set_ =>
      forall t asg j,
        find_table tname db = Some t -> resolve (t_def t) set_ = Some asg ->
        pk_index (t_def t) = Some j -> mem_nat j (map fst asg) = false
  | _ => True
  end.

(** The databases that row statements in enforcing sessions lead to from
    the initialized one, when no UPDATE names an identifier. *)
Inductive enforced : database -> Prop :=
| enforced_initialized : enforced initialized
| enforced_step (db db' : database) (now : string) (st : dml) :
    enforced db -> keeps_identifiers db st ->
    exec_dml true now st db = Ok db' -> enforced db'.

(** Column [ci] of the rows [children] holds NULL or the identifier of a
    row of [parents]. *)
Definition refs_ok (ci : nat) (children parents : list row) : Prop :=
  forall r, In r children ->
            get ci r = VNull
            \/ existsb (key_eqb (get ci r)) (map (get 0%nat) parents) = true.

(** The eleven foreign keys of the schema, on the rows of the nine
    tables. *)
Definition linked (u l b i tr dt dl rr rl : list row) : Prop :=
  (refs_ok 1 b l /\ refs_ok 5 b u)
  /\ (refs_ok 1 tr i /\ refs_ok 2 tr b /\ refs_ok 6 tr u)
  /\ (refs_ok 1 dl b /\ refs_ok 2 dl dt /\ refs_ok 5 dl u)
  /\ (refs_ok 2 rl b /\ refs_ok 3 rl rr /\ refs_ok 6 rl u).

(** *** Keys that stay distinct *)

(** Every table of [db] holds distinct values in each of its key
    columns. *)
Definition distinct_keys (db : database) : Prop :=
  forall t, In t db -> keys_distinct (indexed (t_def t)) (t_rows t) = true.

(** The example database with two return reasons and a return log for
    each, both for batch 1. *)
Definition returns_database : database :=
  the_database
    (rows_of "UserAccount" example_database)
    (rows_of "ProductionLine" example_database)
    (rows_of "ProductionBatch" example_database)
    (rows_of "InventoryItem" example_database)
    (rows_of "InventoryTransaction" example_database)
    (rows_of "DefectType" example_database)
    (rows_of "DefectLog" example_database)
    [ [VInt 1; VText "damaged"]; [VInt 2; VText "late"] ]
    [ [VInt 1; VNull; VInt 1; VInt 1; VText "2026-01-05 08:00:00"; VNull; VNull];
      [VInt 2; VNull; VInt 1; VInt 2; VText "2026-01-05 08:00:00"; VNull; VNull] ].
(* ================================================================== *)
(** ** Running the program *)
(* ================================================================== *)

Local Open Scope list_scope.

Lemma set_nth_last {A} (l : list A) (a b : A) :
  set_nth (List.length l) b (l ++ [a]) = (l ++ [b])%list.
Proof. induction l as [|x l IH]; cbn; [reflexivity | now rewrite IH]. Qed.

Lemma nth_error_last {A} (l : list A) (a : A) :
  nth_error (l ++ [a]) (List.length l) = Some a.
Proof. induction l as [|x l IH]; cbn; [reflexivity | exact IH]. Qed.

Lemma db_of_write p db fs : db_of p (write_file p db fs) = db.
Proof.
  unfold db_of. induction fs as [|[q old] fs IH]; cbn.
  - now rewrite String.eqb_refl.
  - destruct (String.eqb p q) eqn:E; cbn; rewrite E; [reflexivity | exact IH].
Qed.

Lemma write_write p a b fs :
  write_file p a (write_file p b fs) = write_file p a fs.
Proof.
  induction fs as [|[q old] fs IH]; cbn.
  - now rewrite String.eqb_refl.
  - destruct (String.eqb p q) eqn:E; cbn; rewrite E; [reflexivity | now rewrite IH].
Qed.

Lemma write_same p fs db :
  lookup_file p fs = Some db -> write_file p db fs = fs.
Proof.
  induction fs as [|[q old] fs IH]; cbn; [discriminate|].
  destruct (String.eqb p q) eqn:E.
  - intros [= ->]. reflexivity.
  - intros H. now rewrite IH.
Qed.

Lemma lookup_write_other p q db fs :
  String.eqb q p = false ->
  lookup_file q (write_file p db fs) = lookup_file q fs.
Proof.
  intros Hqp. induction fs as [|[k old] fs IH]; cbn.
  - now rewrite Hqp.
  - destruct (String.eqb p k) eqn:E; cbn.
    + apply String.eqb_eq in E. subst k. now rewrite Hqp.
    + destruct (String.eqb q k); [reflexivity | exact IH].
Qed.

Lemma db_of_opened p fs : db_of p (opened p fs) = db_of p fs.
Proof.
  unfold opened. destruct (lookup_file p fs) eqn:E; [reflexivity|].
  rewrite db_of_write. unfold db_of. now rewrite E.
Qed.

Lemma write_opened p db fs : write_file p db (opened p fs) = write_file p db fs.
Proof.
  unfold opened. destruct (lookup_file p fs); [reflexivity | apply write_write].
Qed.

Lemma exec_known s db :
  In s the_statements -> exec_ddl s db = Ok (ensure (def_of s) db).
Proof.
  intros H.
  assert (Hv : valid_def (def_of s) = true /\ s = CreateTable true (def_of s)).
  { unfold the_statements in H. simpl In in H.
    repeat (destruct H as [<-|H]; [split; vm_compute; reflexivity|]).
    contradiction. }
  destruct Hv as [Hv Hs]. rewrite Hs at 1.
  unfold exec_ddl, create_table, ensure. rewrite Hv.
  destruct (has_table _ _); reflexivity.
Qed.

(** One of the nine statements on an open connection. *)
Lemma execute_known env files sessions out faults lg conn s st :
  nth_error sessions conn = Some s -> s_open s = true -> In st the_statements ->
  execute conn (Ddl st) (World env files sessions out faults lg) =
  match faults with
  | Some e :: rest =>
      (Raise e, World env files sessions out rest (lg ++ [Ddl st]))
  | _ =>
      (Return tt,
       World env
         (write_file (s_path s) (ensure (def_of st) (db_of (s_path s) files)) files)
         sessions out (tl faults) (lg ++ [Ddl st]))
  end.
Proof.
  intros Hs Ho Hin.
  unfold execute, bind, the_session, log, engine_call, load, store, raise. cbn.
  rewrite Hs, Ho.
  destruct faults as [|[e|] rest]; cbn; try reflexivity.
  all: unfold db_at; cbn; fold (db_of (s_path s) files);
    rewrite (exec_known _ _ Hin); reflexivity.
Qed.

Arguments execute : simpl never.
Arguments ensure : simpl never.
Arguments write_file : simpl never.
Arguments db_of : simpl never.
Arguments opened : simpl never.
Arguments def_of : simpl never.

(** Run the next statement of [create_tables] on the open session [Hs]. *)
Ltac exec_step Hs Ho :=
  erewrite execute_known;
  [ | exact Hs | exact Ho | unfold the_statements; simpl In; tauto ];
  cbn [tl]; rewrite ?db_of_write, ?write_write; cbn.

Ltac enter_create_tables Hs Ho :=
  unfold create_tables, cursor, commit, try_except, bind, the_session, print,
    ret, engine_call;
  cbn; rewrite Hs, Ho; cbn.

Lemma create_tables_ok env files sessions out lg conn s :
  nth_error sessions conn = Some s -> s_open s = true ->
  create_tables conn (World env files sessions out [] lg) =
  (Return tt,
   World env
     (write_file (s_path s) (ensure_all the_schema (db_of (s_path s) files)) files)
     sessions
     (out ++ map creating the_schema ++ [all_created])%list
     [] (lg ++ map Ddl the_statements)%list).
Proof.
  intros Hs Ho. enter_create_tables Hs Ho.
  do 9 exec_step Hs Ho.
  rewrite Hs, Ho. cbn.
  repeat rewrite <- app_assoc. reflexivity.
Qed.

(** [create_tables] when the engine fails at statement number [k]
    (counted from 0) and not before. *)
Lemma create_tables_fault env files sessions out lg conn s k e rest :
  nth_error sessions conn = Some s -> s_open s = true -> (k < 9)%nat ->
  create_tables conn
    (World env files sessions out (repeat None k ++ Some e :: rest)%list lg) =
  (Return tt,
   World env
     (match k with
      | O => files
      | _ => write_file (s_path s)
               (ensure_all (firstn k the_schema) (db_of (s_path s) files)) files
      end)
     sessions
     (out ++ map creating (firstn (S k) the_schema)
          ++ [("Error creating tables: " ++ error_message e)%string])%list
     rest (lg ++ map Ddl (firstn (S k) the_statements))%list).
Proof.
  intros Hs Ho Hk.
  do 9 (destruct k as [|k]; [ enter_create_tables Hs Ho;
            repeat exec_step Hs Ho; repeat rewrite <- app_assoc; reflexivity | ]).
  lia.
Qed.

Lemma create_connection_run p env files sessions out faults lg :
  create_connection p (World env files sessions out faults lg) =
  match faults with
  | Some e :: rest =>
      (Return None, World env files sessions (out ++ [error_message e]) rest lg)
  | None :: Some e :: rest =>
      (Return (Some (List.length sessions)),
       World env (opened p files) (sessions ++ [Session p false true])
             (out ++ connected env p ++ [error_message e]) rest
             (lg ++ [PragmaForeignKeys true]))
  | _ =>
      (Return (Some (List.length sessions)),
       World env (opened p files) (sessions ++ [Session p true true])
             (out ++ connected env p) (tl (tl faults))
             (lg ++ [PragmaForeignKeys true]))
  end%list.
Proof.
  unfold create_connection, sqlite3_connect, execute, try_except, bind,
    the_session, set_session, getenv, log, print, ret, engine_call, opened.
  destruct faults as [|[e|] [|[e'|] rest]]; cbn;
    rewrite ?nth_error_last; cbn; rewrite ?set_nth_last;
    repeat rewrite <- app_assoc; reflexivity.
Qed.

Lemma close_last sessions s env files out faults lg :
  close (List.length sessions) (World env files (sessions ++ [s]) out faults lg) =
  (Return tt,
   World env files (sessions ++ [Session (s_path s) (s_foreign_keys s) false])
         out faults lg)%list.
Proof.
  unfold close, set_session. cbn. rewrite nth_error_last, set_nth_last.
  reflexivity.
Qed.

Arguments create_connection : simpl never.
Arguments create_tables : simpl never.
Arguments close : simpl never.

(** A run of [main] in which the engine never fails. *)
Lemma main_ok env files sessions out lg :
  main (World env files sessions out [] lg) =
  (Return tt,
   World env
     (write_file (db_path env) (ensure_all the_schema (db_of (db_path env) files))
                 files)
     (sessions ++ [Session (db_path env) true false])
     (out ++ transcript env) []
     (lg ++ PragmaForeignKeys true :: map Ddl the_statements))%list.
Proof.
  unfold main, bind, getenv. cbn.
  rewrite create_connection_run. cbn.
  erewrite create_tables_ok; [ | apply nth_error_last | reflexivity ]. cbn.
  rewrite close_last. cbn. unfold print. cbn.
  rewrite db_of_opened, write_opened.
  unfold transcript. repeat rewrite <- app_assoc. reflexivity.
Qed.

Lemma db_at_of p w : db_at p w = db_of p (w_files w).
Proof. reflexivity. Qed.

(** *** [CREATE TABLE IF NOT EXISTS] as a function *)

Lemma find_table_app n db l :
  find_table n (db ++ l) =
  match find_table n db with Some t => Some t | None => find_table n l end.
Proof.
  induction db as [|t db IH]; cbn; [reflexivity|].
  destruct (name_eqb n (tbl_name (t_def t))); [reflexivity | exact IH].
Qed.

Lemma has_table_ensure_mono n d db :
  has_table n db = true -> has_table n (ensure d db) = true.
Proof.
  unfold ensure, has_table. destruct (find_table (tbl_name d) db); [trivial|].
  rewrite find_table_app. destruct (find_table n db); [trivial | discriminate].
Qed.

Lemma has_table_ensure_same d db : has_table (tbl_name d) (ensure d db) = true.
Proof.
  unfold ensure. destruct (has_table (tbl_name d) db) eqn:E; [exact E|].
  unfold has_table in *. rewrite find_table_app.
  destruct (find_table (tbl_name d) db); [discriminate|]. cbn.
  unfold name_eqb. now rewrite String.eqb_refl.
Qed.

Lemma has_table_ensure_all_mono n ds : forall db,
  has_table n db = true -> has_table n (ensure_all ds db) = true.
Proof.
  induction ds as [|d ds IH]; intros db H; [exact H|].
  change (ensure_all (d :: ds) db) with (ensure_all ds (ensure d db)).
  apply IH, has_table_ensure_mono, H.
Qed.

Lemma has_table_ensure_all d ds : forall db,
  In d ds -> has_table (tbl_name d) (ensure_all ds db) = true.
Proof.
  induction ds as [|d' ds IH]; intros db Hin; [destruct Hin|].
  change (ensure_all (d' :: ds) db) with (ensure_all ds (ensure d' db)).
  destruct Hin as [->|Hin].
  - apply has_table_ensure_all_mono, has_table_ensure_same.
  - now apply IH.
Qed.

Lemma ensure_all_noop ds : forall db,
  (forall d, In d ds -> has_table (tbl_name d) db = true) ->
  ensure_all ds db = db.
Proof.
  induction ds as [|d ds IH]; intros db H; [reflexivity|].
  change (ensure_all (d :: ds) db) with (ensure_all ds (ensure d db)).
  replace (ensure d db) with db.
  - apply IH. intros d' Hd'. apply H. now right.
  - unfold ensure. now rewrite (H d (or_introl eq_refl)).
Qed.

Lemma ensure_all_idempotent ds db :
  ensure_all ds (ensure_all ds db) = ensure_all ds db.
Proof. apply ensure_all_noop. intros d Hd. now apply has_table_ensure_all. Qed.

Lemma ensure_extends d db : exists added, ensure d db = (db ++ added)%list.
Proof.
  unfold ensure. destruct (has_table _ _).
  - exists []. now rewrite app_nil_r.
  - eexists. reflexivity.
Qed.

Lemma ensure_all_extends ds : forall db,
  exists added, ensure_all ds db = (db ++ added)%list.
Proof.
  induction ds as [|d ds IH]; intros db.
  - exists []. now rewrite app_nil_r.
  - change (ensure_all (d :: ds) db) with (ensure_all ds (ensure d db)).
    destruct (ensure_extends d db) as [a1 ->].
    destruct (IH (db ++ a1)%list) as [a2 ->].
    exists (a1 ++ a2)%list. now rewrite app_assoc.
Qed.

Lemma parents_firstb_sound ds : forall earlier,
  parents_firstb earlier ds = true ->
  forall before d after,
    ds = (before ++ d :: after)%list -> parents_among (earlier ++ before) d.
Proof.
  induction ds as [|d0 ds IH]; intros earlier H before d after E.
  - destruct before; discriminate.
  - cbn in H. apply andb_true_iff in H as [Hd Hrest].
    destruct before as [|b before]; cbn in E; injection E as <- E.
    + rewrite app_nil_r. intros f Hf.
      rewrite forallb_forall in Hd. specialize (Hd f Hf).
      apply existsb_exists in Hd as (p & Hp & Hn).
      exists p. split; [exact Hp | now apply String.eqb_eq].
    + specialize (IH _ Hrest before d after E).
      now rewrite <- app_assoc in IH.
Qed.


(** A run of [main] in which the engine fails at the PRAGMA only. *)
Lemma main_pragma_fails env files sessions out lg e :
  main (World env files sessions out [None; Some e] lg) =
  (Return tt,
   World env
     (write_file (db_path env) (ensure_all the_schema (db_of (db_path env) files))
                 files)
     (sessions ++ [Session (db_path env) false false])
     (out ++ connected env (db_path env) ++ [error_message e]
          ++ map creating the_schema
          ++ [all_created; setup_complete (db_path env)]) []
     (lg ++ PragmaForeignKeys true :: map Ddl the_statements)).
Proof.
  unfold main, bind, getenv. cbn.
  rewrite create_connection_run. cbn.
  erewrite create_tables_ok; [ | apply nth_error_last | reflexivity ]. cbn.
  rewrite close_last. cbn. unfold print. cbn.
  rewrite db_of_opened, write_opened.
  repeat rewrite <- app_assoc. reflexivity.
Qed.


(** With an engine that works, the session that [create_connection] sets
    up is open and has foreign-key enforcement on. *)
Lemma create_connection_enforces p w :
  w_faults w = [] ->
  exists conn w',
    create_connection p w = (Return (Some conn), w')
    /\ nth_error (w_sessions w') conn = Some (Session p true true).
Proof.
  destruct w as [env files sessions out faults lg]. intros H.
  cbn in H. subst faults. do 2 eexists. rewrite create_connection_run.
  split; [reflexivity|]. apply nth_error_last.
Qed.

(** The process survives the failure: [main] closes the connection and
    prints its last line as in a run without error. *)
Lemma main_survives_ddl_failure env files sessions out lg k e rest :
  (k < 9)%nat ->
  exists w',
    main (World env files sessions out
                (None :: None :: repeat None k ++ Some e :: rest) lg)
    = (Return tt, w')
    /\ db_at (db_path env) w'
       = ensure_all (firstn k the_schema) (db_of (db_path env) files)
    /\ w_stdout w'
       = out ++ connected env (db_path env)
             ++ map creating (firstn (S k) the_schema)
             ++ [("Error creating tables: " ++ error_message e)%string;
                 setup_complete (db_path env)].
Proof.
  intros Hk. eexists. unfold main, bind, getenv. cbn [w_env].
  rewrite create_connection_run. cbn [tl].
  erewrite create_tables_fault; [ | apply nth_error_last | reflexivity | exact Hk ].
  rewrite close_last. unfold print. cbn [w_env w_files w_sessions w_stdout w_faults w_log].
  split; [reflexivity|]. rewrite db_at_of. cbn [w_files s_path].
  split.
  - destruct k; [apply db_of_opened|].
    now rewrite db_of_write, db_of_opened.
  - repeat rewrite <- app_assoc. reflexivity.
Qed.
(* ================================================================== *)
(** ** The properties of the initializer *)
(* ================================================================== *)

(** C1.  Running the initializer twice against the same location, with an
    engine that works, succeeds both times: each run returns normally and
    prints the transcript of an error-free run.  The first run leaves at
    the location the database it found, completed by the missing tables;
    the second run leaves every file exactly as the first run left it. *)
Theorem initializer_idempotent (w : world) :
  w_faults w = [] ->
  exists w1 w2,
    main w = (Return tt, w1) /\ main w1 = (Return tt, w2)
    /\ w_stdout w1 = (w_stdout w ++ transcript (w_env w))%list
    /\ w_stdout w2 = (w_stdout w1 ++ transcript (w_env w))%list
    /\ db_at (db_path (w_env w)) w1
       = ensure_all the_schema (db_at (db_path (w_env w)) w)
    /\ w_files w2 = w_files w1.
Proof.
  destruct w as [env files sessions out faults lg]. intros H.
  cbn in H. subst faults.
  do 2 eexists. split; [apply main_ok|]. split; [apply main_ok|].
  rewrite !db_at_of. cbn [w_env w_files w_stdout]. repeat split.
  - now rewrite db_of_write.
  - now rewrite db_of_write, write_write, ensure_all_idempotent.
Qed.

Lemma initializer_idempotent_witness :
  exists w1 w2,
    main example_world = (Return tt, w1) /\ main w1 = (Return tt, w2)
    /\ w_stdout w1 = (w_stdout example_world ++ transcript (w_env example_world))%list
    /\ w_stdout w2 = (w_stdout w1 ++ transcript (w_env example_world))%list
    /\ db_at (db_path (w_env example_world)) w1
       = ensure_all the_schema (db_at (db_path (w_env example_world)) example_world)
    /\ w_files w2 = w_files w1.
Proof. apply (initializer_idempotent example_world). reflexivity. Defined.

(** C2.  On a fresh location (no file, or an empty database) a run with
    an engine that works returns normally and leaves at the location
    exactly the nine tables, in the order of creation, with the columns,
    types, defaults, checks and foreign keys of the nine statements and
    no rows; and these nine definitions conform, one by one, to the data
    model as the specification words it. *)
Theorem fresh_run_creates_the_nine_tables (w : world) :
  w_faults w = [] ->
  db_at (db_path (w_env w)) w = [] ->
  exists w',
    main w = (Return tt, w')
    /\ db_at (db_path (w_env w)) w' = initialized
    /\ schema (db_at (db_path (w_env w)) w') = the_schema
    /\ table_names (db_at (db_path (w_env w)) w')
       = [ "UserAccount"; "ProductionLine"; "ProductionBatch"; "InventoryItem";
           "InventoryTransaction"; "DefectType"; "DefectLog"; "ReturnReason";
           "ReturnLog" ]%string
    /\ schema_conforms data_model (schema (db_at (db_path (w_env w)) w')) = true.
Proof.
  destruct w as [env files sessions out faults lg]. intros H Hfresh.
  cbn in H. subst faults. rewrite db_at_of in Hfresh. cbn [w_env w_files] in *.
  eexists. split; [apply main_ok|].
  rewrite !db_at_of. cbn [w_files]. rewrite db_of_write, Hfresh.
  repeat split; vm_compute; reflexivity.
Qed.

Lemma fresh_run_creates_the_nine_tables_witness :
  exists w',
    main example_world = (Return tt, w')
    /\ db_at (db_path example_env) w' = initialized.
Proof.
  destruct (fresh_run_creates_the_nine_tables example_world eq_refl eq_refl)
    as (w' & Hrun & Hdb & _).
  exists w'. split; [exact Hrun | exact Hdb].
Defined.
(** C6.  When the store cannot be opened or created, [create_connection]
    prints the error and returns no connection; [main] then prints its
    own message and runs no statement at all: no file is created or
    changed, no session exists. *)
Theorem connect_failure_creates_nothing (w : world) (e : sqlite_error)
  (rest : list (option sqlite_error)) :
  w_faults w = Some e :: rest ->
  (forall p, exists w1,
      create_connection p w = (Return None, w1)
      /\ w_stdout w1 = w_stdout w ++ [error_message e]
      /\ w_files w1 = w_files w)
  /\ exists w',
      main w = (Return tt, w')
      /\ w_stdout w' = w_stdout w ++ [error_message e;
                                      "Error! Cannot create the database connection."]
      /\ w_files w' = w_files w
      /\ w_sessions w' = w_sessions w
      /\ w_log w' = w_log w.
Proof.
  destruct w as [env files sessions out faults lg]. intros H.
  cbn in H. subst faults. split.
  - intros p. eexists. rewrite create_connection_run. cbn. auto.
  - eexists. unfold main, bind, getenv. cbn.
    rewrite create_connection_run. cbn. unfold print. cbn.
    repeat split. now rewrite <- app_assoc.
Qed.

Lemma connect_failure_creates_nothing_witness :
  let w := World example_env [] [] []
                 [Some (OperationalError "unable to open database file")] [] in
  exists w',
    main w = (Return tt, w')
    /\ w_stdout w' = w_stdout w ++ ["unable to open database file";
                                    "Error! Cannot create the database connection."]
    /\ w_files w' = w_files w
    /\ w_sessions w' = w_sessions w
    /\ w_log w' = w_log w.
Proof.
  exact (proj2 (connect_failure_creates_nothing
                  (World example_env [] [] []
                     [Some (OperationalError "unable to open database file")] [])
                  _ _ eq_refl)).
Defined.

(** C7.  When the engine fails at one of the nine statements, say the one
    numbered [k] from 0, [create_tables] catches the error, prints it and
    returns normally.  Nothing is rolled back: the database at the
    location is the one found, completed by the tables of the [k]
    statements that ran, so these tables are there, every table and row
    found before is still there, and the other files are untouched.  The
    process does not crash: [main] closes the connection and prints its
    last line. *)
Theorem ddl_failure_leaves_partial_schema (k : nat) (e : sqlite_error)
  (rest : list (option sqlite_error)) :
  (k < 9)%nat ->
  (forall w conn s,
      nth_error (w_sessions w) conn = Some s -> s_open s = true ->
      w_faults w = repeat None k ++ Some e :: rest ->
      exists w',
        create_tables conn w = (Return tt, w')
        /\ w_stdout w' = w_stdout w ++ map creating (firstn (S k) the_schema)
                           ++ [("Error creating tables: " ++ error_message e)%string]
        /\ db_at (s_path s) w'
           = ensure_all (firstn k the_schema) (db_at (s_path s) w)
        /\ (forall d, In d (firstn k the_schema) ->
                      has_table (tbl_name d) (db_at (s_path s) w') = true)
        /\ (exists added, db_at (s_path s) w' = db_at (s_path s) w ++ added)
        /\ (forall q, String.eqb q (s_path s) = false ->
                      lookup_file q (w_files w') = lookup_file q (w_files w)))
  /\ (forall w,
         w_faults w = None :: None :: repeat None k ++ Some e :: rest ->
         exists w',
           main w = (Return tt, w')
           /\ db_at (db_path (w_env w)) w'
              = ensure_all (firstn k the_schema) (db_at (db_path (w_env w)) w)
           /\ w_stdout w'
              = w_stdout w ++ connected (w_env w) (db_path (w_env w))
                  ++ map creating (firstn (S k) the_schema)
                  ++ [("Error creating tables: " ++ error_message e)%string;
                      setup_complete (db_path (w_env w))]).
Proof.
  intros Hk. split.
  - intros w conn s. destruct w as [env files sessions out faults lg].
    cbn [w_sessions w_faults].
    intros Hs Ho ->. eexists. split; [eapply create_tables_fault; eassumption|].
    rewrite !db_at_of. cbn [w_stdout w_files].
    assert (E : db_of (s_path s)
                  (match k with
                   | O => files
                   | S _ => write_file (s_path s)
                              (ensure_all (firstn k the_schema)
                                          (db_of (s_path s) files))
                              files
                   end) = ensure_all (firstn k the_schema) (db_of (s_path s) files)).
    { destruct k; [reflexivity | apply db_of_write]. }
    rewrite E. repeat split.
    + intros d Hd. now apply has_table_ensure_all.
    + apply ensure_all_extends.
    + intros q Hq. destruct k; [reflexivity | now apply lookup_write_other].
  - intros w. destruct w as [env files sessions out faults lg].
    cbn [w_faults w_env w_stdout]. intros ->.
    apply (main_survives_ddl_failure env files sessions out lg k e rest Hk).
Qed.

Lemma ddl_failure_leaves_partial_schema_witness :
  let w := World example_env [] [] []
                 [None; None; None; None; None;
                  Some (OperationalError "disk I/O error")] [] in
  exists w',
    main w = (Return tt, w')
    /\ table_names (db_at (db_path example_env) w')
       = ["UserAccount"; "ProductionLine"; "ProductionBatch"]%string.
Proof.
  destruct (proj2 (ddl_failure_leaves_partial_schema
                     3%nat (OperationalError "disk I/O error") [] ltac:(lia))
                  (World example_env [] [] []
                     [None; None; None; None; None;
                      Some (OperationalError "disk I/O error")] [])
                  eq_refl)
    as (w' & Hrun & Hdb & _).
  exists w'. split; [exact Hrun|].
  cbn [w_env] in Hdb. rewrite Hdb. reflexivity.
Defined.

(** C8.  With an engine that works, [create_tables] hands the nine
    statements to the engine in the order of [the_statements], and in
    that order every table comes after all the tables that its foreign
    keys reference. *)
Theorem parents_created_before_dependents (w : world) (conn : connection)
  (s : session) :
  nth_error (w_sessions w) conn = Some s -> s_open s = true ->
  w_faults w = [] ->
  exists w',
    create_tables conn w = (Return tt, w')
    /\ w_log w' = w_log w ++ map Ddl the_statements
    /\ parents_first (map def_of the_statements).
Proof.
  destruct w as [env files sessions out faults lg]. cbn [w_sessions w_faults].
  intros Hs Ho ->. eexists. split; [eapply create_tables_ok; eassumption|].
  split; [reflexivity|].
  intros before d after E.
  assert (Hb : parents_firstb [] (map def_of the_statements) = true)
    by (vm_compute; reflexivity).
  exact (parents_firstb_sound _ [] Hb _ _ _ E).
Qed.

Lemma parents_created_before_dependents_witness :
  let w := World example_env [] [Session "/srv/app/inventory_management_v1.db" true true]
                 [] [] [] in
  exists w',
    create_tables 0%nat w = (Return tt, w')
    /\ w_log w' = w_log w ++ map Ddl the_statements
    /\ parents_first (map def_of the_statements).
Proof.
  exact (parents_created_before_dependents
           (World example_env []
              [Session "/srv/app/inventory_management_v1.db" true true] [] [] [])
           0%nat _ eq_refl eq_refl eq_refl).
Defined.

(** C9.  When the store opens but the statement that switches foreign-key
    enforcement on fails, [create_connection] prints the error and still
    returns the connection, open and without enforcement.  [main] goes
    on: the nine statements run on that connection and complete the
    database, and the session ends closed with enforcement never on. *)
Theorem pragma_failure_still_creates_tables (w : world) (e : sqlite_error) :
  w_faults w = [None; Some e] ->
  let p := db_path (w_env w) in
  let conn := List.length (w_sessions w) in
  (exists w1,
      create_connection p w = (Return (Some conn), w1)
      /\ nth_error (w_sessions w1) conn = Some (Session p false true)
      /\ w_stdout w1 = w_stdout w ++ connected (w_env w) p ++ [error_message e])
  /\ exists w',
      main w = (Return tt, w')
      /\ w_log w' = w_log w ++ PragmaForeignKeys true :: map Ddl the_statements
      /\ db_at p w' = ensure_all the_schema (db_at p w)
      /\ (forall d, In d the_schema -> has_table (tbl_name d) (db_at p w') = true)
      /\ nth_error (w_sessions w') conn = Some (Session p false false).
Proof.
  destruct w as [env files sessions out faults lg]. intros H.
  cbn in H. subst faults. cbn [w_env w_sessions w_stdout w_log]. split.
  - eexists. rewrite create_connection_run. cbn [w_sessions w_stdout].
    split; [reflexivity|]. split; [apply nth_error_last | reflexivity].
  - eexists. split; [apply main_pragma_fails|].
    rewrite !db_at_of. cbn [w_log w_files w_sessions].
    rewrite db_of_write. repeat split.
    + intros d Hd. now apply has_table_ensure_all.
    + apply nth_error_last.
Qed.

Lemma pragma_failure_still_creates_tables_witness :
  let w := World example_env [] [] []
                 [None; Some (OperationalError "database is locked")] [] in
  exists w',
    main w = (Return tt, w')
    /\ db_at (db_path example_env) w' = initialized
    /\ nth_error (w_sessions w') 0%nat
       = Some (Session (db_path example_env) false false).
Proof.
  destruct (proj2 (pragma_failure_still_creates_tables
                     (World example_env [] [] []
                        [None; Some (OperationalError "database is locked")] [])
                     _ eq_refl))
    as (w' & Hrun & _ & Hdb & _ & Hs).
  exists w'. split; [exact Hrun|]. split; [|exact Hs].
  etransitivity; [exact Hdb | reflexivity].
Defined.

(* ================================================================== *)
(** ** The row statements on the schema *)
(* ================================================================== *)

(** *** Rows and lists *)

Lemma get_put_null i r : get i (put i VNull r) = VNull.
Proof.
  unfold get. revert i. induction r as [|x r IH]; intros [|i]; cbn; auto.
Qed.

Lemma get_put_other i j v r : i <> j -> get i (put j v r) = get i r.
Proof.
  unfold get. revert i j. induction r as [|x r IH]; intros [|i] [|j] H; cbn; auto.
  contradiction.
Qed.

Lemma mem_nat_single i j : mem_nat i [j] = Nat.eqb i j.
Proof. cbn. apply orb_false_r. Qed.

Lemma mem_nat_In i l : mem_nat i l = true <-> In i l.
Proof.
  induction l as [|j l IH]; cbn; [split; [discriminate | tauto]|].
  rewrite orb_true_iff, IH, Nat.eqb_eq. intuition congruence.
Qed.

Lemma forallb_const_true {A} (f : A -> bool) l :
  (forall a, f a = true) -> forallb f l = true.
Proof. intros H. apply forallb_forall. auto. Qed.

Lemma all_ok_forall {A} (f : A -> result unit) l :
  (forall a, In a l -> f a = Ok tt) -> all_ok f l = Ok tt.
Proof.
  induction l as [|a l IH]; intros H; cbn; [reflexivity|].
  rewrite (H a (or_introl eq_refl)). cbn. apply IH. intros b Hb. apply H. now right.
Qed.

Lemma existsb_false_filter {A} (f : A -> bool) l :
  existsb f l = false -> filter f l = [] /\ filter (fun a => negb (f a)) l = l.
Proof.
  induction l as [|a l IH]; cbn; [auto|].
  intros H. apply orb_false_iff in H as [Ha Hl]. rewrite Ha. cbn.
  destruct (IH Hl) as [-> ->]. auto.
Qed.

(** *** The catalogue under [set_rows] *)

Lemma schema_set_rows n rs db : schema (set_rows n rs db) = schema db.
Proof.
  unfold schema. induction db as [|t db IH]; cbn; [reflexivity|].
  destruct (name_eqb n (tbl_name (t_def t))); cbn; [reflexivity | now rewrite IH].
Qed.

Lemma name_eqb_true a b : name_eqb a b = true <-> lower a = lower b.
Proof. apply String.eqb_eq. Qed.

Lemma name_eqb_false a b : name_eqb a b = false <-> lower a <> lower b.
Proof. apply String.eqb_neq. Qed.

(** Decide a goal about [name_eqb] from the comparisons in the context. *)
Ltac names :=
  repeat match goal with
         | H : name_eqb _ _ = true |- _ => apply name_eqb_true in H
         | H : name_eqb _ _ = false |- _ => apply name_eqb_false in H
         end;
  match goal with
  | |- name_eqb _ _ = true => apply name_eqb_true; congruence
  | |- name_eqb _ _ = false => apply name_eqb_false; congruence
  | |- true = name_eqb _ _ => symmetry; apply name_eqb_true; congruence
  | |- false = name_eqb _ _ => symmetry; apply name_eqb_false; congruence
  end.

Lemma find_table_set_rows n m rs db :
  find_table n (set_rows m rs db) =
  match find_table n db with
  | Some t => Some (if name_eqb n m then Table (t_def t) rs else t)
  | None => None
  end.
Proof.
  induction db as [|t db IH]; cbn; [reflexivity|].
  destruct (name_eqb m (tbl_name (t_def t))) eqn:Em; cbn;
    destruct (name_eqb n (tbl_name (t_def t))) eqn:En; cbn.
  - replace (name_eqb n m) with true by names. reflexivity.
  - destruct (find_table n db) as [t'|] eqn:E; [|reflexivity].
    replace (name_eqb n m) with false by names. reflexivity.
  - replace (name_eqb n m) with false by names. reflexivity.
  - exact IH.
Qed.

Lemma find_table_set_rows_def n m rs db :
  option_map t_def (find_table n (set_rows m rs db))
  = option_map t_def (find_table n db).
Proof.
  rewrite find_table_set_rows. destruct (find_table n db) as [t|]; cbn; [|reflexivity].
  destruct (name_eqb n m); reflexivity.
Qed.

Lemma referencing_schema n db : forall db',
  schema db' = schema db -> referencing n db' = referencing n db.
Proof.
  unfold referencing, schema.
  induction db as [|t db IH]; intros [|t' db'] H; cbn in *; try discriminate;
    [reflexivity|].
  injection H as Ht H. rewrite Ht. f_equal. now apply IH.
Qed.

Lemma referencing_set_rows n m rs db :
  referencing n (set_rows m rs db) = referencing n db.
Proof. apply referencing_schema, schema_set_rows. Qed.

Lemma set_rows_same n db t :
  find_table n db = Some t -> set_rows n (t_rows t) db = db.
Proof.
  induction db as [|t0 db IH]; cbn; [discriminate|].
  destruct (name_eqb n (tbl_name (t_def t0))).
  - intros [= <-]. now destruct t0.
  - intros H. now rewrite IH.
Qed.

Lemma nullify_none ci hit rs : existsb hit rs = false -> nullify ci hit rs = rs.
Proof.
  unfold nullify. induction rs as [|r rs IH]; cbn; [reflexivity|].
  intros H. apply orb_false_iff in H as [-> Hrs]. now rewrite IH.
Qed.

(** *** Setting a column to NULL *)

Lemma update_to_null fk tname c hit db t ci :
  find_table tname db = Some t ->
  col_index c (t_def t) = Some ci ->
  nullable_column db tname ci = true ->
  (forall r, checks_ok_upd (t_def t) [ci] (put ci VNull r) = true) ->
  sql_update fk tname hit [(c, fun _ => VNull)] db
  = Ok (set_rows tname (nullify ci hit (t_rows t)) db).
Proof.
  intros Hfind Hci Hnull Hchecks.
  unfold nullable_column in Hnull. rewrite Hfind in Hnull.
  apply andb_true_iff in Hnull as [Hnull Hrefs].
  apply andb_true_iff in Hnull as [Hnull Hfks].
  apply andb_true_iff in Hnull as [Hpk Hcols].
  rewrite forallb_forall in Hcols, Hfks, Hrefs.
  unfold sql_update. rewrite Hfind. cbn [resolve]. rewrite Hci. cbn [map fst].
  set (d := t_def t) in *.
  set (news := map (apply_set [(ci, fun _ : row => VNull)]) (filter hit (t_rows t))).
  assert (Hnews : forall r, In r news -> exists r0, r = put ci VNull r0).
  { intros r Hr. apply in_map_iff in Hr as (r0 & <- & _). now exists r0. }
  replace (forallb (pk_typed_upd d [ci]) news) with true.
  2:{ symmetry. apply forallb_const_true. intros r. unfold pk_typed_upd.
      destruct (pk_index d); [|reflexivity].
      now rewrite mem_nat_single, Hpk. }
  replace (forallb (not_nulls_ok_upd d [ci]) news) with true.
  2:{ symmetry. apply forallb_const_true. intros r. unfold not_nulls_ok_upd.
      apply forallb_forall. intros ic Hic. specialize (Hcols ic Hic).
      rewrite mem_nat_single. unfold not_null_passes.
      destruct (Nat.eqb (fst ic) ci); cbn in *; [|reflexivity].
      apply andb_true_iff in Hcols as [-> _]. reflexivity. }
  replace (forallb (checks_ok_upd d [ci]) news) with true.
  2:{ symmetry. apply forallb_forall. intros r Hr.
      destruct (Hnews r Hr) as [r0 ->]. apply Hchecks. }
  cbn [guard rbind].
  replace (keys_distinct _ _) with true.
  2:{ symmetry. unfold keys_distinct. apply forallb_forall. intros ic Hic.
      apply filter_In in Hic as [Hic Hmem]. specialize (Hcols ic Hic).
      rewrite mem_nat_single in Hmem. rewrite Hmem in Hcols. cbn in Hcols.
      apply andb_true_iff in Hcols as [_ ->]. reflexivity. }
  cbn [guard rbind].
  change (map (fun r => if hit r then apply_set [(ci, fun _ : row => VNull)] r else r)
              (t_rows t)) with (nullify ci hit (t_rows t)).
  destruct fk; [|reflexivity].
  replace (child_keys_ok _ _ _ _) with (Ok tt).
  2:{ symmetry. apply all_ok_forall. intros f Hf. apply all_ok_forall. intros r Hr.
      destruct (Hnews r Hr) as [r0 ->].
      specialize (Hfks f Hf). apply filter_In in Hf as [_ Hin].
      unfold fk_in in Hin. unfold child_key_ok.
      pose proof (find_table_set_rows_def (fk_parent_table f) tname
                    (nullify ci hit (t_rows t)) db) as Hdef.
      destruct (find_table (fk_parent_table f) db) as [p|]; [|discriminate].
      destruct (find_table (fk_parent_table f) (set_rows _ _ db)) as [p'|];
        [|discriminate].
      cbn in Hdef. injection Hdef as ->.
      unfold known_column in Hfks.
      destruct (col_index (fk_column f) d) as [i|]; [|discriminate].
      rewrite mem_nat_single in Hin. apply Nat.eqb_eq in Hin. subst i.
      destruct (col_index (fk_parent_column f) (t_def p)); [|discriminate].
      now rewrite get_put_null. }
  cbn [rbind].
  replace (all_ok _ _) with (Ok tt); [reflexivity|].
  symmetry. apply all_ok_forall. intros cf Hcf.
  rewrite referencing_set_rows in Hcf. specialize (Hrefs cf Hcf).
  unfold parent_key_ok.
  destruct (col_index (fk_parent_column (snd cf)) d) as [pi|]; [|discriminate].
  destruct (col_index (fk_column (snd cf)) (fst cf)); [|discriminate].
  rewrite mem_nat_single. apply negb_true_iff in Hrefs. now rewrite Hrefs.
Qed.

(** *** DELETE with enforcement, step by step *)

Lemma delete_rows_eq depth tname dead db t :
  find_table tname db = Some t ->
  delete_rows depth tname dead db =
  (_ <-- all_ok (restrict_ok (t_def t) (filter dead (t_rows t)) db)
                (referencing tname db) ;;
   fold_left
     (fun acc cf =>
        db2 <-- acc ;;
        on_delete_action
          (match depth with O => None | S depth' => Some (delete_rows depth') end)
          (t_def t) (filter dead (t_rows t)) db2 cf)
     (referencing tname db)
     (Ok (set_rows tname (without dead (t_rows t)) db))).
Proof. intros H. destruct depth; cbn [delete_rows]; rewrite H; reflexivity. Qed.

Lemma action_set_null nested d gone db cd f n pi ci t :
  fk_on_delete f = SET_NULL ->
  tbl_name cd = n ->
  col_index (fk_parent_column f) d = Some pi ->
  col_index (fk_column f) cd = Some ci ->
  find_table n db = Some t -> t_def t = cd ->
  nullable_column db n ci = true ->
  (forall r, checks_ok_upd cd [ci] (put ci VNull r) = true) ->
  on_delete_action (Some nested) d gone db (cd, f)
  = Ok (set_rows n (nullify ci (child_of ci (map (get pi) gone)) (t_rows t)) db).
Proof.
  intros Ha Hn Hpi Hci Hfind Hdef Hnull Hchecks.
  unfold on_delete_action. cbn [fst snd]. rewrite Hpi, Hci, Ha, Hn.
  unfold rows_of. rewrite Hfind.
  destruct (existsb _ (t_rows t)) eqn:E.
  - apply update_to_null; subst cd; assumption.
  - rewrite (nullify_none _ _ _ E). now rewrite set_rows_same.
Qed.

Lemma action_cascade nested d gone db cd f n pi ci :
  fk_on_delete f = CASCADE ->
  tbl_name cd = n ->
  col_index (fk_parent_column f) d = Some pi ->
  col_index (fk_column f) cd = Some ci ->
  on_delete_action (Some nested) d gone db (cd, f)
  = if existsb (child_of ci (map (get pi) gone)) (rows_of n db)
    then nested n (child_of ci (map (get pi) gone)) db
    else Ok db.
Proof.
  intros Ha Hn Hpi Hci. unfold on_delete_action. cbn [fst snd].
  now rewrite Hpi, Hci, Ha, Hn.
Qed.

Lemma action_restrict nested d gone db cd f pi ci :
  fk_on_delete f = RESTRICT ->
  col_index (fk_parent_column f) d = Some pi ->
  col_index (fk_column f) cd = Some ci ->
  on_delete_action (Some nested) d gone db (cd, f) = Ok db.
Proof.
  intros Ha Hpi Hci. unfold on_delete_action. cbn [fst snd].
  rewrite Hpi, Hci, Ha. now destruct (existsb _ _).
Qed.

Lemma restrict_ok_restrict d gone db cd f pi ci :
  fk_on_delete f = RESTRICT ->
  col_index (fk_parent_column f) d = Some pi ->
  col_index (fk_column f) cd = Some ci ->
  restrict_ok d gone db (cd, f)
  = guard (negb (existsb (child_of ci (map (get pi) gone))
                         (rows_of (tbl_name cd) db)))
          (IntegrityError "FOREIGN KEY constraint failed").
Proof.
  intros Ha Hpi Hci. unfold restrict_ok. cbn [fst snd]. now rewrite Ha, Hpi, Hci.
Qed.

Lemma existsb_const_false {A} (f : A -> bool) l :
  (forall a, f a = false) -> existsb f l = false.
Proof. intros H. induction l as [|a l IH]; cbn; [reflexivity | now rewrite H]. Qed.

Lemma without_none dead rs : existsb dead rs = false -> without dead rs = rs.
Proof. intros H. now apply existsb_false_filter in H as [_ H]. Qed.

Lemma if_without {A} hit rows (F : list row -> A) :
  (if existsb hit rows then F (without hit rows) else F rows)
  = F (without hit rows).
Proof.
  destruct (existsb hit rows) eqn:E; [reflexivity|].
  now rewrite (without_none _ _ E).
Qed.

(** *** DELETE with enforcement on the nine tables *)

Ltac by_evaluation := vm_compute; reflexivity.

Section TheDatabase.

Variables (u l b i tr dt dl rr rl x : list row).

Lemma set_users :
  set_rows "UserAccount" x (the_database u l b i tr dt dl rr rl)
  = the_database x l b i tr dt dl rr rl.
Proof. by_evaluation. Qed.

Lemma set_lines :
  set_rows "ProductionLine" x (the_database u l b i tr dt dl rr rl)
  = the_database u x b i tr dt dl rr rl.
Proof. by_evaluation. Qed.

Lemma set_batches :
  set_rows "ProductionBatch" x (the_database u l b i tr dt dl rr rl)
  = the_database u l x i tr dt dl rr rl.
Proof. by_evaluation. Qed.

Lemma set_items :
  set_rows "InventoryItem" x (the_database u l b i tr dt dl rr rl)
  = the_database u l b x tr dt dl rr rl.
Proof. by_evaluation. Qed.

Lemma set_transactions :
  set_rows "InventoryTransaction" x (the_database u l b i tr dt dl rr rl)
  = the_database u l b i x dt dl rr rl.
Proof. by_evaluation. Qed.

Lemma set_defect_types :
  set_rows "DefectType" x (the_database u l b i tr dt dl rr rl)
  = the_database u l b i tr x dl rr rl.
Proof. by_evaluation. Qed.

Lemma set_defect_logs :
  set_rows "DefectLog" x (the_database u l b i tr dt dl rr rl)
  = the_database u l b i tr dt x rr rl.
Proof. by_evaluation. Qed.

Lemma set_return_reasons :
  set_rows "ReturnReason" x (the_database u l b i tr dt dl rr rl)
  = the_database u l b i tr dt dl x rl.
Proof. by_evaluation. Qed.

Lemma set_return_logs :
  set_rows "ReturnLog" x (the_database u l b i tr dt dl rr rl)
  = the_database u l b i tr dt dl rr x.
Proof. by_evaluation. Qed.

Lemma rows_users :
  rows_of "UserAccount" (the_database u l b i tr dt dl rr rl) = u.
Proof. by_evaluation. Qed.

Lemma rows_lines :
  rows_of "ProductionLine" (the_database u l b i tr dt dl rr rl) = l.
Proof. by_evaluation. Qed.

Lemma rows_batches :
  rows_of "ProductionBatch" (the_database u l b i tr dt dl rr rl) = b.
Proof. by_evaluation. Qed.

Lemma rows_items :
  rows_of "InventoryItem" (the_database u l b i tr dt dl rr rl) = i.
Proof. by_evaluation. Qed.

Lemma rows_transactions :
  rows_of "InventoryTransaction" (the_database u l b i tr dt dl rr rl) = tr.
Proof. by_evaluation. Qed.

Lemma rows_defect_types :
  rows_of "DefectType" (the_database u l b i tr dt dl rr rl) = dt.
Proof. by_evaluation. Qed.

Lemma rows_defect_logs :
  rows_of "DefectLog" (the_database u l b i tr dt dl rr rl) = dl.
Proof. by_evaluation. Qed.

Lemma rows_return_reasons :
  rows_of "ReturnReason" (the_database u l b i tr dt dl rr rl) = rr.
Proof. by_evaluation. Qed.

Lemma rows_return_logs :
  rows_of "ReturnLog" (the_database u l b i tr dt dl rr rl) = rl.
Proof. by_evaluation. Qed.

End TheDatabase.

Ltac read_db :=
  rewrite ?rows_users, ?rows_lines, ?rows_batches, ?rows_items,
    ?rows_transactions, ?rows_defect_types, ?rows_defect_logs,
    ?rows_return_reasons, ?rows_return_logs.

Ltac normalize_db :=
  rewrite ?set_users, ?set_lines, ?set_batches, ?set_items, ?set_transactions,
    ?set_defect_types, ?set_defect_logs, ?set_return_reasons, ?set_return_logs.

Ltac set_null_step t_ :=
  erewrite (action_set_null _ _ _ _ _ _ _ _ _ t_);
  [ | reflexivity | by_evaluation | by_evaluation | by_evaluation | by_evaluation
    | reflexivity | by_evaluation | intro; reflexivity ];
  cbn [t_rows rbind]; normalize_db.

Ltac cascade_step :=
  erewrite action_cascade;
  [ | reflexivity | by_evaluation | by_evaluation | by_evaluation ];
  read_db.

Lemma no_restrict d gone db refs :
  forallb (fun cf => match fk_on_delete (snd cf) with
                     | RESTRICT => false
                     | _ => true
                     end) refs = true ->
  all_ok (restrict_ok d gone db) refs = Ok tt.
Proof.
  intros H. apply all_ok_forall. intros cf Hcf.
  rewrite forallb_forall in H. specialize (H cf Hcf).
  unfold restrict_ok. now destruct (fk_on_delete (snd cf)).
Qed.

(** Enter [delete_rows] on table [t_] of a database whose foreign keys
    to that table are [refs_]. *)
Ltac enter_delete t_ refs_ :=
  rewrite (delete_rows_eq _ _ _ _ t_) by by_evaluation;
  match goal with
  | |- context [referencing ?n ?db] =>
      replace (referencing n db) with refs_ by by_evaluation
  end;
  cbn [t_def t_rows]; normalize_db.

Lemma delete_defect_logs depth dead (u l b i tr dt dl rr rl : list row) :
  delete_rows depth "DefectLog" dead (the_database u l b i tr dt dl rr rl)
  = Ok (the_database u l b i tr dt (without dead dl) rr rl).
Proof.
  enter_delete (Table DefectLog dl) (@nil (table_def * foreign_key)).
  reflexivity.
Qed.

Lemma delete_batches depth dead (u l b i tr dt dl rr rl : list row) :
  delete_rows (S depth) "ProductionBatch" dead
              (the_database u l b i tr dt dl rr rl)
  = Ok (the_database u l (without dead b) i
          (nullify 2 (child_of 2 (map (get 0%nat) (filter dead b))) tr) dt
          (without (child_of 1 (map (get 0%nat) (filter dead b))) dl) rr
          (nullify 2 (child_of 2 (map (get 0%nat) (filter dead b))) rl)).
Proof.
  enter_delete (Table ProductionBatch b)
    [ (InventoryTransaction,
       FOREIGN_KEY "BatchID" "ProductionBatch" "BatchID" SET_NULL);
      (DefectLog, FOREIGN_KEY "BatchID" "ProductionBatch" "BatchID" CASCADE);
      (ReturnLog, FOREIGN_KEY "BatchID" "ProductionBatch" "BatchID" SET_NULL) ].
  rewrite no_restrict by reflexivity.
  cbn [rbind fold_left].
  set_null_step (Table InventoryTransaction tr).
  cascade_step.
  rewrite delete_defect_logs.
  rewrite (if_without (child_of 1 (map (get 0%nat) (filter dead b))) dl
             (fun x => Ok (the_database u l (without dead b) i _ dt x rr rl))).
  cbn [rbind].
  set_null_step (Table ReturnLog rl).
  reflexivity.
Qed.

Lemma delete_lines depth dead (u l b i tr dt dl rr rl : list row) :
  let orphan := child_of 1 (map (get 0%nat) (filter dead l)) in
  let keys := map (get 0%nat) (filter orphan b) in
  delete_rows (S (S depth)) "ProductionLine" dead
              (the_database u l b i tr dt dl rr rl)
  = Ok (the_database u (without dead l) (without orphan b) i
          (nullify 2 (child_of 2 keys) tr) dt
          (without (child_of 1 keys) dl) rr
          (nullify 2 (child_of 2 keys) rl)).
Proof.
  intros orphan keys.
  enter_delete (Table ProductionLine l)
    [ (ProductionBatch,
       FOREIGN_KEY "ProductionLineID" "ProductionLine" "ProductionLineID" CASCADE) ].
  rewrite no_restrict by reflexivity.
  cbn [rbind fold_left].
  cascade_step. fold orphan.
  rewrite delete_batches. fold keys.
  destruct (existsb orphan b) eqn:E; [reflexivity|].
  destruct (existsb_false_filter _ _ E) as [Hnone _].
  unfold keys. rewrite Hnone, (without_none _ _ E). cbn [map].
  rewrite !(nullify_none 2 (child_of 2 [])), (without_none (child_of 1 []))
    by (apply existsb_const_false; intro; reflexivity).
  reflexivity.
Qed.

Lemma delete_users depth dead (u l b i tr dt dl rr rl : list row) :
  let keys := map (get 0%nat) (filter dead u) in
  delete_rows (S depth) "UserAccount" dead
              (the_database u l b i tr dt dl rr rl)
  = Ok (the_database (without dead u) l
          (nullify 5 (child_of 5 keys) b) i
          (nullify 6 (child_of 6 keys) tr) dt
          (nullify 5 (child_of 5 keys) dl) rr
          (nullify 6 (child_of 6 keys) rl)).
Proof.
  intros keys.
  enter_delete (Table UserAccount u)
    [ (ProductionBatch,
       FOREIGN_KEY "CreatedByUserID" "UserAccount" "UserID" SET_NULL);
      (InventoryTransaction,
       FOREIGN_KEY "UpdatedByUserID" "UserAccount" "UserID" SET_NULL);
      (DefectLog, FOREIGN_KEY "LoggedByUserID" "UserAccount" "UserID" SET_NULL);
      (ReturnLog, FOREIGN_KEY "ProcessedByUserID" "UserAccount" "UserID" SET_NULL) ].
  rewrite no_restrict by reflexivity.
  cbn [rbind fold_left].
  set_null_step (Table ProductionBatch b).
  set_null_step (Table InventoryTransaction tr).
  set_null_step (Table DefectLog dl).
  set_null_step (Table ReturnLog rl).
  reflexivity.
Qed.

Lemma delete_defect_types depth dead (u l b i tr dt dl rr rl : list row) :
  delete_rows (S depth) "DefectType" dead
              (the_database u l b i tr dt dl rr rl)
  = if existsb (child_of 2 (map (get 0%nat) (filter dead dt))) dl
    then Err (IntegrityError "FOREIGN KEY constraint failed")
    else Ok (the_database u l b i tr (without dead dt) dl rr rl).
Proof.
  enter_delete (Table DefectType dt)
    [ (DefectLog,
       FOREIGN_KEY "DefectTypeID" "DefectType" "DefectTypeID" RESTRICT) ].
  cbn [all_ok].
  erewrite restrict_ok_restrict; [ | reflexivity | by_evaluation | by_evaluation ].
  change (tbl_name DefectLog) with "DefectLog". read_db.
  destruct (existsb _ dl); cbn [negb guard rbind fold_left]; [reflexivity|].
  erewrite action_restrict; [ | reflexivity | by_evaluation | by_evaluation ].
  reflexivity.
Qed.

Lemma schema_inv db :
  schema db = the_schema ->
  exists u l b i tr dt dl rr rl, db = the_database u l b i tr dt dl rr rl.
Proof.
  unfold schema, the_schema, the_statements. cbn [map]. intros H.
  do 9 (destruct db as [|[? ?] db]; [discriminate|];
        cbn [map t_def] in H; injection H as E H; subst).
  destruct db; [|discriminate].
  do 9 eexists. reflexivity.
Qed.

Lemma schema_the_database u l b i tr dt dl rr rl :
  schema (the_database u l b i tr dt dl rr rl) = the_schema.
Proof. reflexivity. Qed.

Lemma child_of_refers ci pi dead parents r :
  child_of ci (map (get pi) (filter dead parents)) r
  = refers_to_dead (get ci r) (get pi) dead parents.
Proof.
  unfold child_of, refers_to_dead.
  induction parents as [|p ps IH]; cbn; [reflexivity|].
  destruct (dead p); cbn; now rewrite IH.
Qed.


(** *** What a successful statement has verified *)

Lemma rbind_ok {A B} (r : result A) (k : A -> result B) b :
  rbind r k = Ok b -> exists a, r = Ok a /\ k a = Ok b.
Proof. destruct r as [a|e]; cbn; [eauto | discriminate]. Qed.

Lemma guard_ok b e u : guard b e = Ok u -> b = true.
Proof. destruct b; [reflexivity | discriminate]. Qed.

(** Take a hypothesis [x <-- guard b e ;; k = Ok y] apart. *)
Ltac pass_guard H Hb :=
  apply rbind_ok in H as (? & Hb & H); apply guard_ok in Hb.

Lemma insert_ok_inv fk now tname asg db db' :
  sql_insert fk now tname asg db = Ok db' ->
  exists t,
    find_table tname db = Some t
    /\ let r := assign_rowid (t_def t) (t_rows t)
                  (map (initial_value now asg) (tbl_columns (t_def t))) in
       row_ok (t_def t) r = true
       /\ db' = set_rows tname (t_rows t ++ [r]) db.
Proof.
  unfold sql_insert. destruct (find_table tname db) as [t|]; [|discriminate].
  intros H. exists t. split; [reflexivity|].
  pass_guard H Hcols. pass_guard H Hpk. pass_guard H Hnn. pass_guard H Hck.
  pass_guard H Hkeys. apply rbind_ok in H as (? & _ & H). injection H as <-.
  cbv zeta. unfold row_ok. now rewrite Hnn, Hck.
Qed.

Lemma update_ok_inv fk tname where_ set_ db db' :
  sql_update fk tname where_ set_ db = Ok db' ->
  exists t asg,
    find_table tname db = Some t
    /\ resolve (t_def t) set_ = Some asg
    /\ (forall r, In r (t_rows t) -> where_ r = true ->
          not_nulls_ok_upd (t_def t) (map fst asg) (apply_set asg r) = true
          /\ checks_ok_upd (t_def t) (map fst asg) (apply_set asg r) = true)
    /\ db' = set_rows tname
               (map (fun r => if where_ r then apply_set asg r else r) (t_rows t))
               db.
Proof.
  unfold sql_update. destruct (find_table tname db) as [t|]; [|discriminate].
  destruct (resolve (t_def t) set_) as [asg|] eqn:Hres; [|discriminate].
  intros H. exists t, asg. split; [reflexivity|]. split; [exact Hres|].
  pass_guard H Hpk. pass_guard H Hnn. pass_guard H Hck. pass_guard H Hkeys.
  apply rbind_ok in H as (? & _ & H). injection H as <-.
  split; [|reflexivity].
  intros r Hr Hw. rewrite forallb_forall in Hnn, Hck.
  assert (Hin : In (apply_set asg r) (map (apply_set asg) (filter where_ (t_rows t)))).
  { apply in_map, filter_In. now split. }
  split; [now apply Hnn | now apply Hck].
Qed.

(** *** UPDATE keeps the constraints of the columns it does not name *)

Lemma apply_set_untouched (asg : list (nat * (row -> value))) r0 i : forall r,
  mem_nat i (map fst asg) = false ->
  get i (fold_left (fun acc a => put (fst a) (snd a r0) acc) asg r) = get i r.
Proof.
  induction asg as [|[j f] asg IH]; intros r H; [reflexivity|].
  cbn [map fst mem_nat] in H. apply orb_false_iff in H as [Hij H].
  cbn [fold_left]. rewrite IH by exact H.
  apply get_put_other. now apply Nat.eqb_neq.
Qed.

Lemma eval_untouched d chg r r' e :
  (forall i, mem_nat i chg = false -> get i r' = get i r) ->
  touches d chg e = false ->
  eval d r' e = eval d r e.
Proof.
  intros Hget. unfold touches.
  induction e as [n|z|a IHa b IHb]; cbn; intros H.
  - destruct (col_index n d) as [i|]; [|reflexivity].
    apply Hget. now rewrite orb_false_r in H.
  - reflexivity.
  - rewrite existsb_app in H. apply orb_false_iff in H as [Ha Hb].
    now rewrite IHa, IHb.
Qed.

Lemma row_ok_update d asg r :
  row_ok d r = true ->
  not_nulls_ok_upd d (map fst asg) (apply_set asg r) = true ->
  checks_ok_upd d (map fst asg) (apply_set asg r) = true ->
  row_ok d (apply_set asg r) = true.
Proof.
  unfold row_ok, not_nulls_ok, checks_ok, not_nulls_ok_upd, checks_ok_upd.
  intros Hok Hnn Hck. apply andb_true_iff in Hok as [Hnn0 Hck0].
  rewrite forallb_forall in Hnn0, Hck0, Hnn, Hck.
  assert (Hget : forall i, mem_nat i (map fst asg) = false ->
                           get i (apply_set asg r) = get i r)
    by (intros i Hi; now apply apply_set_untouched).
  apply andb_true_iff. split; apply forallb_forall.
  - intros ic Hic. specialize (Hnn ic Hic). specialize (Hnn0 ic Hic).
    destruct (mem_nat (fst ic) (map fst asg)) eqn:E; [exact Hnn|].
    unfold not_null_passes in *. now rewrite (Hget _ E).
  - intros c Hc. specialize (Hck c Hc). specialize (Hck0 c Hc).
    unfold check_passes in *. destruct (col_check c) as [e|]; [|reflexivity].
    destruct (touches d (map fst asg) e) eqn:E; [exact Hck|].
    now rewrite (eval_untouched d (map fst asg) r _ e Hget E).
Qed.

(** *** Every statement keeps the database sound *)

Lemma in_set_rows n rs db t' :
  In t' (set_rows n rs db) ->
  In t' db \/ exists t, find_table n db = Some t /\ t' = Table (t_def t) rs.
Proof.
  induction db as [|t0 db IH]; cbn; [tauto|].
  destruct (name_eqb n (tbl_name (t_def t0))).
  - intros [<-|H]; [right; eauto | left; now right].
  - intros [<-|H]; [left; now left|].
    destruct (IH H) as [H'|H']; [left; now right | now right].
Qed.

Lemma find_table_In n db t : find_table n db = Some t -> In t db.
Proof.
  induction db as [|t0 db IH]; cbn; [discriminate|].
  destruct (name_eqb n (tbl_name (t_def t0))); [intros [= <-]; now left|].
  intros H. right. now apply IH.
Qed.

Lemma sound_set_rows s n rs db t :
  sound s db -> find_table n db = Some t ->
  (forall r, In r rs -> row_ok (t_def t) r = true) ->
  sound s (set_rows n rs db).
Proof.
  intros [Hs Hok] Hfind Hrs. split; [now rewrite schema_set_rows|].
  intros t' Ht' r Hr. apply in_set_rows in Ht' as [Ht'|(t0 & Hf & ->)].
  - now apply (Hok t').
  - rewrite Hfind in Hf. injection Hf as <-. now apply Hrs.
Qed.

Lemma sound_insert s fk now tname asg db db' :
  sound s db -> sql_insert fk now tname asg db = Ok db' -> sound s db'.
Proof.
  intros Hdb H. apply insert_ok_inv in H as (t & Hfind & Hrow & ->).
  apply (sound_set_rows s _ _ _ t Hdb Hfind).
  intros r Hr. apply in_app_iff in Hr as [Hr|[<-|[]]]; [|exact Hrow].
  destruct Hdb as [_ Hok]. apply (Hok t); [now apply (find_table_In tname)|exact Hr].
Qed.

Lemma sound_update s fk tname where_ set_ db db' :
  sound s db -> sql_update fk tname where_ set_ db = Ok db' -> sound s db'.
Proof.
  intros Hdb H. apply update_ok_inv in H as (t & asg & Hfind & _ & Hchk & ->).
  apply (sound_set_rows s _ _ _ t Hdb Hfind).
  intros r Hr. apply in_map_iff in Hr as (r0 & <- & Hr0).
  assert (H0 : row_ok (t_def t) r0 = true).
  { destruct Hdb as [_ Hok]. apply (Hok t); [now apply (find_table_In tname)|exact Hr0]. }
  destruct (where_ r0) eqn:Hw; [|exact H0].
  destruct (Hchk r0 Hr0 Hw). now apply row_ok_update.
Qed.

Lemma sound_without s tname dead db t :
  sound s db -> find_table tname db = Some t ->
  sound s (set_rows tname (without dead (t_rows t)) db).
Proof.
  intros Hdb Hfind. apply (sound_set_rows s _ _ _ t Hdb Hfind).
  intros r Hr. apply filter_In in Hr as [Hr _].
  destruct Hdb as [_ Hok]. apply (Hok t); [now apply (find_table_In tname)|exact Hr].
Qed.

Lemma fold_actions_keep {X} (P : database -> Prop)
  (f : database -> X -> result database) (l : list X) :
  (forall db x db', P db -> f db x = Ok db' -> P db') ->
  forall acc db',
    (forall db, acc = Ok db -> P db) ->
    fold_left (fun acc x => db2 <-- acc ;; f db2 x) l acc = Ok db' -> P db'.
Proof.
  intros Hf. induction l as [|x l IH]; intros acc db' Hacc H; cbn in H.
  - now apply Hacc.
  - apply (IH _ _) in H; [exact H|].
    intros db Hdb. apply rbind_ok in Hdb as (db2 & -> & Hx).
    apply (Hf db2 x); [now apply Hacc | exact Hx].
Qed.

Lemma sound_action s nested d gone db cf db' :
  (forall n hit db1 db2, nested = Some n -> sound s db1 ->
                         forall tname, n tname hit db1 = Ok db2 -> sound s db2) ->
  sound s db -> on_delete_action nested d gone db cf = Ok db' -> sound s db'.
Proof.
  intros Hnested Hdb. unfold on_delete_action.
  destruct (col_index _ d) as [pi|]; [|discriminate].
  destruct (col_index _ (fst cf)) as [ci|]; [|discriminate].
  destruct (existsb _ _); [|now intros [= <-]].
  destruct nested as [delete_nested|]; [|discriminate].
  destruct (fk_on_delete (snd cf)).
  - intros H. eapply Hnested; [reflexivity | exact Hdb | exact H].
  - now apply sound_update.
  - now intros [= <-].
Qed.

Lemma sound_delete_rows s depth : forall tname dead db db',
  sound s db -> delete_rows depth tname dead db = Ok db' -> sound s db'.
Proof.
  induction depth as [|depth IH]; intros tname dead db db' Hdb H.
  all: destruct (find_table tname db) as [t|] eqn:Hfind;
    [|cbn in H; rewrite Hfind in H; discriminate].
  all: rewrite (delete_rows_eq _ _ _ _ t Hfind) in H.
  all: apply rbind_ok in H as (? & _ & H).
  all: refine (fold_actions_keep (sound s) _ _ _ _ _ _ H).
  all: try (intros db0 [= <-]; now apply sound_without).
  - intros db1 cf db2 H1. apply sound_action; [|exact H1]. discriminate.
  - intros db1 cf db2 H1. apply sound_action; [|exact H1].
    intros n0 hit d1 d2 [= <-] Hd1 tn. now apply IH.
Qed.

Lemma sound_delete s fk tname where_ db db' :
  sound s db -> sql_delete fk tname where_ db = Ok db' -> sound s db'.
Proof.
  unfold sql_delete. destruct fk; [apply sound_delete_rows|].
  destruct (find_table tname db) as [t|] eqn:Hfind; [|discriminate].
  intros Hdb [= <-]. now apply sound_without.
Qed.

Lemma reachable_sound db : reachable db -> sound the_schema db.
Proof.
  induction 1 as [|db db' fk now st _ IH H].
  - split; [reflexivity|]. intros t Ht r Hr.
    unfold initialized in Ht. apply in_map_iff in Ht as (d & <- & _). destruct Hr.
  - destruct st; cbn in H.
    + now apply (sound_insert _ _ _ _ _ _ _ IH H).
    + now apply (sound_update _ _ _ _ _ _ _ IH H).
    + now apply (sound_delete _ _ _ _ _ _ IH H).
Qed.

(** *** The checks [>= 0] *)

Lemma check_ge_zero d r c n :
  col_check c = Some (EGe (ECol n) (EInt 0)) ->
  check_passes d r c = true -> non_negative (field d n r).
Proof.
  unfold check_passes, field. intros -> H z Hz. cbn [eval] in *.
  rewrite Hz in H. cbn in H.
  destruct (Z.geb z 0) eqn:E; [|discriminate].
  apply Z.geb_le in E. lia.
Qed.

Lemma row_ok_non_negative d n r :
  checked_non_negative d n -> row_ok d r = true -> non_negative (field d n r).
Proof.
  intros (c & Hc & Hck) H. unfold row_ok in H.
  apply andb_true_iff in H as [_ H]. unfold checks_ok in H.
  rewrite forallb_forall in H. exact (check_ge_zero d r c n Hck (H c Hc)).
Qed.

Lemma upd_non_negative d n i chg r :
  checked_non_negative d n -> col_index n d = Some i -> mem_nat i chg = true ->
  checks_ok_upd d chg r = true -> non_negative (field d n r).
Proof.
  intros (c & Hc & Hck) Hi Hm H. unfold checks_ok_upd in H.
  rewrite forallb_forall in H. specialize (H c Hc). rewrite Hck in H.
  replace (touches d chg (EGe (ECol n) (EInt 0))) with true in H.
  - apply (check_ge_zero d r c n Hck H).
  - unfold touches. cbn. now rewrite Hi, Hm.
Qed.

Lemma fields_checked d n :
  In (d, n) non_negative_fields -> checked_non_negative d n /\ In d the_schema.
Proof.
  intros H. unfold non_negative_fields in H. cbn [In] in H.
  destruct H as [H|[H|[H|[]]]]; injection H as <- <-; split;
    try (vm_compute; tauto).
  - exists (nth 3 (tbl_columns InventoryItem) (column "" INT)).
    split; [vm_compute; tauto | reflexivity].
  - exists (nth 4 (tbl_columns InventoryItem) (column "" INT)).
    split; [vm_compute; tauto | reflexivity].
  - exists (nth 4 (tbl_columns ProductionBatch) (column "" INT)).
    split; [vm_compute; tauto | reflexivity].
Qed.

Lemma find_in_schema db d :
  schema db = the_schema -> In d the_schema ->
  exists rows, find_table (tbl_name d) db = Some (Table d rows).
Proof.
  intros H Hd. destruct (schema_inv db H) as (u&l&b&i&tr&dt&dl&rr&rl&->).
  unfold the_schema, the_statements in Hd. cbn [map In] in Hd.
  repeat (destruct Hd as [<-|Hd]; [eexists; by_evaluation|]).
  contradiction.
Qed.

Lemma rows_in_schema db d r :
  sound the_schema db -> In d the_schema -> In r (rows_of (tbl_name d) db) ->
  row_ok d r = true.
Proof.
  intros [Hs Hok] Hd Hr. destruct (find_in_schema db d Hs Hd) as [rows Hfind].
  unfold rows_of in Hr. rewrite Hfind in Hr.
  apply (Hok (Table d rows)); [now apply (find_table_In (tbl_name d)) | exact Hr].
Qed.

Lemma negative_not_non_negative v : negative v -> ~ non_negative v.
Proof. intros (z & -> & Hz) H. specialize (H z eq_refl). lia. Qed.

(** The value that an INSERT supplies for a column other than the
    identifier is the value of the new row. *)
Lemma supplied_value now asg d n v rows :
  In (d, n) non_negative_fields -> lookup_first n asg = Some v ->
  field d n (assign_rowid d rows (map (initial_value now asg) (tbl_columns d))) = v.
Proof.
  intros H Hv. unfold non_negative_fields in H. cbn [In] in H.
  destruct H as [H|[H|[H|[]]]]; injection H as <- <-.
  all: unfold assign_rowid;
    match goal with
    | |- context [pk_index ?d] =>
        replace (pk_index d) with (Some 0%nat) by by_evaluation
    end;
    match goal with
    | |- context [if ?c then _ else _] => destruct c
    end.
  all: unfold field; cbn [eval];
    match goal with
    | |- context [col_index ?n ?d] =>
        let i := eval vm_compute in (col_index n d) in
        replace (col_index n d) with i by by_evaluation
    end;
    rewrite ?get_put_other by discriminate.
  all: match goal with
       | |- get ?i (map ?f (tbl_columns ?d)) = _ =>
           let c := eval vm_compute in (nth i (tbl_columns d) (column "" INT)) in
           transitivity (f c); [by_evaluation|]
       end.
  all: unfold initial_value; cbn [col_name]; now rewrite Hv.
Qed.

(** *** INSERT into InventoryItem with a given ReorderThreshold *)

Lemma item_row now asg v :
  map (initial_value now (("ReorderThreshold", v) :: asg)) (tbl_columns InventoryItem)
  = [ initial_value now asg (nth 0 (tbl_columns InventoryItem) (column "" INT));
      initial_value now asg (nth 1 (tbl_columns InventoryItem) (column "" INT));
      initial_value now asg (nth 2 (tbl_columns InventoryItem) (column "" INT));
      initial_value now asg (nth 3 (tbl_columns InventoryItem) (column "" INT));
      v;
      initial_value now asg (nth 5 (tbl_columns InventoryItem) (column "" INT)) ].
Proof. by_evaluation. Qed.

Lemma item_guards rows a0 a1 a2 a3 a5 :
  let r0 := assign_rowid InventoryItem rows [a0; a1; a2; a3; VInt 0; a5] in
  let rn := assign_rowid InventoryItem rows [a0; a1; a2; a3; VNull; a5] in
  pk_typed InventoryItem rn = pk_typed InventoryItem r0
  /\ not_nulls_ok InventoryItem rn = not_nulls_ok InventoryItem r0
  /\ checks_ok InventoryItem rn = checks_ok InventoryItem r0
  /\ keys_fresh InventoryItem rows rn = keys_fresh InventoryItem rows r0
  /\ field InventoryItem "ReorderThreshold" rn = VNull.
Proof.
  unfold assign_rowid.
  replace (pk_index InventoryItem) with (Some 0%nat) by by_evaluation.
  cbv zeta. change (get 0 [a0; a1; a2; a3; VInt 0; a5]) with a0.
  change (get 0 [a0; a1; a2; a3; VNull; a5]) with a0.
  destruct (is_null a0); repeat split; by_evaluation.
Qed.


(** Without enforcement a DELETE removes the selected rows and does
    nothing else, whatever references them. *)
Lemma delete_without_enforcement tname where_ db t :
  find_table tname db = Some t ->
  sql_delete false tname where_ db
  = Ok (set_rows tname (without where_ (t_rows t)) db).
Proof. intros H. unfold sql_delete. now rewrite H. Qed.
(* ================================================================== *)
(** ** The properties of the schema *)
(* ================================================================== *)

(** C3.  On the nine tables and in a session with foreign-key enforcement
    on, which is how [create_connection] sets its session up, deleting
    ProductionLine rows succeeds and removes, with the lines, exactly the
    ProductionBatch rows whose ProductionLineID references a deleted line;
    deleting UserAccount rows succeeds and keeps every ProductionBatch
    row, with CreatedByUserID set to NULL in the rows that reference a
    deleted user and nothing else changed. *)
Theorem delete_cascades_and_nulls (s : session) (db : database)
  (dead : row -> bool) :
  s_foreign_keys s = true ->
  schema db = the_schema ->
  (exists db',
      sql_delete (s_foreign_keys s) "ProductionLine" dead db = Ok db'
      /\ schema db' = the_schema
      /\ rows_of "ProductionLine" db' = without dead (rows_of "ProductionLine" db)
      /\ rows_of "ProductionBatch" db'
         = without (fun batch =>
                      refers_to_dead (field ProductionBatch "ProductionLineID" batch)
                                     (field ProductionLine "ProductionLineID")
                                     dead (rows_of "ProductionLine" db))
                   (rows_of "ProductionBatch" db))
  /\ (exists db',
         sql_delete (s_foreign_keys s) "UserAccount" dead db = Ok db'
         /\ schema db' = the_schema
         /\ rows_of "UserAccount" db' = without dead (rows_of "UserAccount" db)
         /\ rows_of "ProductionBatch" db'
            = map (fun batch =>
                     if refers_to_dead (field ProductionBatch "CreatedByUserID" batch)
                                       (field UserAccount "UserID")
                                       dead (rows_of "UserAccount" db)
                     then with_field ProductionBatch "CreatedByUserID" VNull batch
                     else batch)
                  (rows_of "ProductionBatch" db)).
Proof.
  intros -> H. destruct (schema_inv db H) as (u&l&b&i&tr&dt&dl&rr&rl&->).
  unfold sql_delete. change max_trigger_depth with (S (S 998)).
  split; eexists.
  - rewrite delete_lines. split; [reflexivity|]. split; [reflexivity|].
    read_db. split; [reflexivity|].
    apply filter_ext. intros batch. now rewrite child_of_refers.
  - rewrite delete_users. split; [reflexivity|]. split; [reflexivity|].
    read_db. split; [reflexivity|].
    apply map_ext. intros batch. now rewrite child_of_refers.
Qed.

Lemma delete_cascades_and_nulls_witness :
  (exists db',
      sql_delete true "ProductionLine" (with_id 1) example_database = Ok db'
      /\ rows_of "ProductionBatch" db'
         = [ [VInt 2; VInt 2; VText "2026-01-05"; VNull; VInt 7; VInt 1;
              VText "2026-01-05 08:00:00"] ])
  /\ (exists db',
         sql_delete true "UserAccount" (with_id 1) example_database = Ok db'
         /\ rows_of "ProductionBatch" db'
            = [ [VInt 1; VInt 1; VText "2026-01-05"; VNull; VInt 5; VNull;
                 VText "2026-01-05 08:00:00"];
                [VInt 2; VInt 2; VText "2026-01-05"; VNull; VInt 7; VNull;
                 VText "2026-01-05 08:00:00"] ]).
Proof.
  destruct (delete_cascades_and_nulls (Session (db_path example_env) true true)
              example_database (with_id 1) eq_refl eq_refl)
    as [(d1 & R1 & _ & _ & B1) (d2 & R2 & _ & _ & B2)].
  split; [exists d1 | exists d2]; (split; [assumption|]).
  - rewrite B1. reflexivity.
  - rewrite B2. reflexivity.
Defined.

(** C3 as stated, without a condition on the connection, fails.  A
    connection has foreign-key enforcement off until it switches it on,
    and [create_connection] switches it on for its own connection only:
    the connection that [sqlite3.connect] returns for the database that
    [main] has set up is without it.  In such a session, on the nine
    tables, a delete of line 1 leaves in place batch 1, which references
    it, and a delete of user 1 leaves the CreatedByUserID of that batch
    as it was. *)
Lemma deletes_without_enforcement_leave_batches :
  exists w1 conn w2 s db1 db2 line user batch,
    main example_world = (Return tt, w1)
    /\ sqlite3_connect (db_path example_env) w1 = (Return conn, w2)
    /\ nth_error (w_sessions w2) conn = Some s
    /\ s_open s = true /\ s_foreign_keys s = false
    /\ schema example_database = the_schema
    /\ In line (rows_of "ProductionLine" example_database)
    /\ In user (rows_of "UserAccount" example_database)
    /\ In batch (rows_of "ProductionBatch" example_database)
    /\ references (field ProductionBatch "ProductionLineID" batch)
                  (field ProductionLine "ProductionLineID" line)
    /\ references (field ProductionBatch "CreatedByUserID" batch)
                  (field UserAccount "UserID" user)
    /\ with_id 1 line = true /\ with_id 1 user = true
    /\ sql_delete (s_foreign_keys s) "ProductionLine" (with_id 1) example_database
       = Ok db1
    /\ In batch (rows_of "ProductionBatch" db1)
    /\ sql_delete (s_foreign_keys s) "UserAccount" (with_id 1) example_database
       = Ok db2
    /\ In batch (rows_of "ProductionBatch" db2).
Proof.
  eexists. exists 1%nat. eexists.
  exists (Session (db_path example_env) false true).
  eexists. eexists.
  exists [VInt 1; VText "Line 1"; VNull],
         [VInt 1; VText "Ann"; VNull; VText "ann"; VText "hash"; VNull],
         [VInt 1; VInt 1; VText "2026-01-05"; VNull; VInt 5; VInt 1;
          VText "2026-01-05 08:00:00"].
  split; [by_evaluation|]. split; [by_evaluation|]. split; [reflexivity|].
  split; [reflexivity|]. split; [reflexivity|]. split; [reflexivity|].
  split; [now left|]. split; [now left|]. split; [now left|].
  split; [reflexivity|]. split; [reflexivity|].
  split; [reflexivity|]. split; [reflexivity|].
  split; [by_evaluation|]. split; [now left|].
  split; [by_evaluation|]. now left.
Qed.

(** C4.  On the nine tables and in a session with foreign-key enforcement
    on, a delete of DefectType rows fails exactly when some DefectLog row
    references, by its DefectTypeID, one of the rows to be deleted.  A
    statement that fails yields no database: the state stays as it was.
    When no such DefectLog row exists the delete succeeds and removes the
    rows from DefectType only. *)
Theorem defect_type_delete_restricted (s : session) (db : database)
  (dead : row -> bool) :
  s_foreign_keys s = true ->
  schema db = the_schema ->
  let referenced :=
    exists log type,
      In log (rows_of "DefectLog" db) /\ In type (rows_of "DefectType" db)
      /\ dead type = true
      /\ references (field DefectLog "DefectTypeID" log)
                    (field DefectType "DefectTypeID" type) in
  ((exists e, sql_delete (s_foreign_keys s) "DefectType" dead db = Err e)
   <-> referenced)
  /\ ((exists db', sql_delete (s_foreign_keys s) "DefectType" dead db = Ok db')
      <-> ~ referenced)
  /\ (forall db', sql_delete (s_foreign_keys s) "DefectType" dead db = Ok db' ->
        db' = set_rows "DefectType" (without dead (rows_of "DefectType" db)) db).
Proof.
  intros -> H. destruct (schema_inv db H) as (u&l&b&i&tr&dt&dl&rr&rl&->).
  unfold sql_delete. change max_trigger_depth with (S 999).
  rewrite delete_defect_types.
  read_db.
  assert (Hiff : existsb (child_of 2 (map (get 0%nat) (filter dead dt))) dl = true
                 <-> exists log type,
                       In log dl /\ In type dt /\ dead type = true
                       /\ references (field DefectLog "DefectTypeID" log)
                                     (field DefectType "DefectTypeID" type)).
  { rewrite existsb_exists. split.
    - intros (log & Hlog & Hc). rewrite child_of_refers in Hc.
      apply existsb_exists in Hc as (type & Htype & Hc).
      apply andb_true_iff in Hc as [Hd Hk]. now exists log, type.
    - intros (log & type & Hlog & Htype & Hd & Hk). exists log. split; [exact Hlog|].
      rewrite child_of_refers. apply existsb_exists. exists type.
      split; [exact Htype|]. apply andb_true_iff. now split. }
  cbv zeta. rewrite <- Hiff.
  destruct (existsb _ dl).
  - repeat split; try discriminate; eauto.
    + intros [? ?]. discriminate.
    + intros ?. congruence.
  - repeat split; try discriminate; eauto.
    + intros [? ?]. discriminate.
    + intros db' [= <-]. now rewrite set_defect_types.
Qed.

Lemma defect_type_delete_restricted_witness :
  (exists e, sql_delete true "DefectType" (with_id 1) example_database = Err e)
  /\ exists log type,
      In log (rows_of "DefectLog" example_database)
      /\ In type (rows_of "DefectType" example_database)
      /\ with_id 1 type = true
      /\ references (field DefectLog "DefectTypeID" log)
                    (field DefectType "DefectTypeID" type).
Proof.
  destruct (defect_type_delete_restricted (Session (db_path example_env) true true)
              example_database (with_id 1) eq_refl eq_refl)
    as [Hiff _].
  assert (R : exists log type,
             In log (rows_of "DefectLog" example_database)
             /\ In type (rows_of "DefectType" example_database)
             /\ with_id 1 type = true
             /\ references (field DefectLog "DefectTypeID" log)
                           (field DefectType "DefectTypeID" type)).
  { exists [VInt 1; VInt 1; VInt 1; VNull; VNull; VNull; VText "2026-01-05 08:00:00"],
           [VInt 1; VText "scratch"].
    repeat split; vm_compute; auto. }
  split; [apply Hiff; exact R | exact R].
Defined.

(** C4 as stated, without a condition on the connection, fails in the
    direction from the reference to the failure.  In a session without
    foreign-key enforcement, which is what [sqlite3.connect] returns for
    the database that [main] has set up, a delete of defect type 1
    succeeds and removes the type although a DefectLog row references
    it; the row stays, its reference dangling. *)
Lemma defect_type_delete_without_enforcement :
  exists w1 conn w2 s db' log type,
    main example_world = (Return tt, w1)
    /\ sqlite3_connect (db_path example_env) w1 = (Return conn, w2)
    /\ nth_error (w_sessions w2) conn = Some s
    /\ s_open s = true /\ s_foreign_keys s = false
    /\ schema example_database = the_schema
    /\ In log (rows_of "DefectLog" example_database)
    /\ In type (rows_of "DefectType" example_database)
    /\ with_id 1 type = true
    /\ references (field DefectLog "DefectTypeID" log)
                  (field DefectType "DefectTypeID" type)
    /\ sql_delete (s_foreign_keys s) "DefectType" (with_id 1) example_database
       = Ok db'
    /\ rows_of "DefectType" db' = []
    /\ In log (rows_of "DefectLog" db').
Proof.
  eexists. exists 1%nat. eexists.
  exists (Session (db_path example_env) false true).
  eexists.
  exists [VInt 1; VInt 1; VInt 1; VNull; VNull; VNull; VText "2026-01-05 08:00:00"],
         [VInt 1; VText "scratch"].
  split; [by_evaluation|]. split; [by_evaluation|]. split; [reflexivity|].
  split; [reflexivity|]. split; [reflexivity|]. split; [reflexivity|].
  split; [now left|]. split; [now left|].
  split; [reflexivity|]. split; [reflexivity|].
  split; [by_evaluation|]. split; [reflexivity|]. now left.
Qed.

(** C10.  ReorderThreshold of InventoryItem is declared with a default of
    0 and a check [>= 0] but without NOT NULL, and the check lets NULL
    pass.  So an INSERT that supplies NULL for it succeeds wherever the
    same INSERT with 0 in its place does, and an UPDATE that sets it to
    NULL always succeeds, on sessions with or without enforcement; a NULL
    threshold is in a database that row statements lead to from the
    initialized one. *)
Theorem null_reorder_threshold_accepted :
  (exists c, find_column "ReorderThreshold" InventoryItem = Some c
             /\ col_not_null c = false
             /\ col_default c = Some (DefaultLiteral (VInt 0))
             /\ col_check c = Some (EGe (ECol "ReorderThreshold") (EInt 0))
             /\ forall r, field InventoryItem "ReorderThreshold" r = VNull ->
                          check_passes InventoryItem r c = true)
  /\ (forall db fk now asg db0,
         schema db = the_schema ->
         sql_insert fk now "InventoryItem" (("ReorderThreshold", VInt 0) :: asg) db
         = Ok db0 ->
         exists db' r,
           sql_insert fk now "InventoryItem" (("ReorderThreshold", VNull) :: asg) db
           = Ok db'
           /\ rows_of "InventoryItem" db' = rows_of "InventoryItem" db ++ [r]
           /\ field InventoryItem "ReorderThreshold" r = VNull)
  /\ (forall db fk where_,
         schema db = the_schema ->
         exists db',
           sql_update fk "InventoryItem" where_
                      [("ReorderThreshold", fun _ => VNull)] db = Ok db'
           /\ rows_of "InventoryItem" db'
              = map (fun r => if where_ r
                              then with_field InventoryItem "ReorderThreshold" VNull r
                              else r)
                    (rows_of "InventoryItem" db))
  /\ (exists db r,
         reachable db /\ In r (rows_of "InventoryItem" db)
         /\ field InventoryItem "ReorderThreshold" r = VNull).
Proof.
  split; [|split; [|split]].
  - eexists. split; [by_evaluation|]. repeat split.
    intros r Hr. unfold check_passes. cbn [col_check]. cbn [eval].
    unfold field in Hr. cbn [eval] in Hr. now rewrite Hr.
  - intros db fk now asg db0 Hs H0.
    destruct (schema_inv db Hs) as (u&l&b&i&tr&dt&dl&rr&rl&->).
    unfold sql_insert in *.
    replace (find_table "InventoryItem" (the_database u l b i tr dt dl rr rl))
      with (Some (Table InventoryItem i)) in * by by_evaluation.
    cbn [t_def t_rows] in *. rewrite item_row in *.
    destruct (item_guards i
                (initial_value now asg (nth 0 (tbl_columns InventoryItem) (column "" INT)))
                (initial_value now asg (nth 1 (tbl_columns InventoryItem) (column "" INT)))
                (initial_value now asg (nth 2 (tbl_columns InventoryItem) (column "" INT)))
                (initial_value now asg (nth 3 (tbl_columns InventoryItem) (column "" INT)))
                (initial_value now asg (nth 5 (tbl_columns InventoryItem) (column "" INT))))
      as (Gpk & Gnn & Gck & Gkeys & Gnull).
    cbv zeta in Gpk, Gnn, Gck, Gkeys, Gnull.
    pass_guard H0 Hcols. pass_guard H0 Hpk. pass_guard H0 Hnn. pass_guard H0 Hck.
    pass_guard H0 Hkeys.
    cbn [forallb fst] in Hcols |- *. rewrite Hcols.
    rewrite Gpk, Hpk, Gnn, Hnn, Gck, Hck, Gkeys, Hkeys. cbn [guard rbind].
    replace (tbl_foreign_keys InventoryItem) with (@nil foreign_key) by reflexivity.
    do 2 eexists. split; [now destruct fk|].
    rewrite set_items. read_db. split; [reflexivity | exact Gnull].
  - intros db fk where_ Hs.
    destruct (schema_inv db Hs) as (u&l&b&i&tr&dt&dl&rr&rl&->).
    eexists. split.
    + apply (update_to_null fk "InventoryItem" "ReorderThreshold" where_ _
               (Table InventoryItem i) 4); try by_evaluation.
      intros r.
      transitivity (negb (value_eqb (value_ge (get 4 (put 4 VNull r)) (VInt 0))
                                    (VInt 0)) && true)%bool; [by_evaluation|].
      now rewrite get_put_null.
    + cbn [t_rows]. rewrite set_items. read_db. reflexivity.
  - exists (the_database [] [] []
              [[VInt 1; VNull; VText "bolt"; VInt 0; VNull; VText "now"]]
              [] [] [] [] []),
           [VInt 1; VNull; VText "bolt"; VInt 0; VNull; VText "now"].
    split; [|split; [now left | reflexivity]].
    apply (reach_step initialized _ false "now"
             (Insert "InventoryItem"
                     [("ItemName", VText "bolt"); ("ReorderThreshold", VNull)]));
      [apply reach_initialized | by_evaluation].
Qed.

Lemma null_reorder_threshold_accepted_witness :
  (exists db' r,
      sql_insert true "2026-01-05 08:00:00" "InventoryItem"
                 [("ReorderThreshold", VNull); ("ItemName", VText "nut")]
                 example_database = Ok db'
      /\ rows_of "InventoryItem" db' = rows_of "InventoryItem" example_database ++ [r]
      /\ field InventoryItem "ReorderThreshold" r = VNull)
  /\ (exists db',
         sql_update true "InventoryItem" (with_id 1)
                    [("ReorderThreshold", fun _ => VNull)] example_database = Ok db'
         /\ rows_of "InventoryItem" db'
            = [ [VInt 1; VNull; VText "bolt"; VInt 0; VNull;
                 VText "2026-01-05 08:00:00"] ]).
Proof.
  destruct null_reorder_threshold_accepted as (_ & Hins & Hupd & _).
  split.
  - apply (Hins example_database true "2026-01-05 08:00:00"
                [("ItemName", VText "nut")]
                (the_database
                   [ [VInt 1; VText "Ann"; VNull; VText "ann"; VText "hash"; VNull] ]
                   [ [VInt 1; VText "Line 1"; VNull]; [VInt 2; VText "Line 2"; VNull] ]
                   [ [VInt 1; VInt 1; VText "2026-01-05"; VNull; VInt 5; VInt 1;
                      VText "2026-01-05 08:00:00"];
                     [VInt 2; VInt 2; VText "2026-01-05"; VNull; VInt 7; VInt 1;
                      VText "2026-01-05 08:00:00"] ]
                   [ [VInt 1; VNull; VText "bolt"; VInt 0; VInt 0;
                      VText "2026-01-05 08:00:00"];
                     [VInt 2; VNull; VText "nut"; VInt 0; VInt 0;
                      VText "2026-01-05 08:00:00"] ]
                   [ [VInt 1; VInt 1; VInt 1; VInt (-3); VNull;
                      VText "2026-01-05 08:00:00"; VNull] ]
                   [ [VInt 1; VText "scratch"] ]
                   [ [VInt 1; VInt 1; VInt 1; VNull; VNull; VNull;
                      VText "2026-01-05 08:00:00"] ]
                   []
                   [ [VInt 1; VNull; VInt 1; VNull; VText "2026-01-05 08:00:00";
                      VNull; VNull] ])).
    + reflexivity.
    + reflexivity.
  - destruct (Hupd example_database true (with_id 1) eq_refl) as (db' & Hrun & Hrows).
    exists db'. split; [exact Hrun|]. rewrite Hrows. reflexivity.
Defined.

(* ================================================================== *)
(** ** Further properties of the initializer *)
(* ================================================================== *)

Lemma faults_split n : forall faults,
  clean n faults
  \/ exists k e rest, (k < n)%nat /\ faults = repeat None k ++ Some e :: rest.
Proof.
  induction n as [|n IH]; intros faults.
  - left. intros i Hi. lia.
  - destruct faults as [|[e|] faults].
    + left. intros i _. now destruct i.
    + right. exists 0%nat, e, faults. split; [lia | reflexivity].
    + destruct (IH faults) as [Hc|(k & e & rest & Hk & ->)].
      * left. intros [|i] Hi; [reflexivity|]. apply Hc. lia.
      * right. exists (S k), e, rest. split; [lia | reflexivity].
Qed.

Lemma clean_tail n f faults : clean (S n) (f :: faults) -> f = None /\ clean n faults.
Proof.
  intros H. split; [exact (H 0%nat ltac:(lia))|].
  intros i Hi. exact (H (S i) ltac:(lia)).
Qed.

(** [create_tables] when the engine fails at none of its ten calls. *)
Lemma create_tables_clean env files sessions out faults lg conn s :
  nth_error sessions conn = Some s -> s_open s = true -> clean 10 faults ->
  create_tables conn (World env files sessions out faults lg) =
  (Return tt,
   World env
     (write_file (s_path s) (ensure_all the_schema (db_of (s_path s) files)) files)
     sessions
     (out ++ map creating the_schema ++ [all_created])
     (skipn 10 faults) (lg ++ map Ddl the_statements)).
Proof.
  intros Hs Ho Hc.
  do 10 (destruct faults as [|f faults];
         [ enter_create_tables Hs Ho; repeat exec_step Hs Ho;
           rewrite ?Hs, ?Ho; cbn; repeat rewrite <- app_assoc; reflexivity
         | apply clean_tail in Hc as [-> Hc] ]).
  enter_create_tables Hs Ho. repeat exec_step Hs Ho.
  rewrite Hs, Ho. cbn. repeat rewrite <- app_assoc. reflexivity.
Qed.

(** [create_tables] when the nine statements run and the commit fails. *)
Lemma create_tables_commit_fault env files sessions out lg conn s e rest :
  nth_error sessions conn = Some s -> s_open s = true ->
  create_tables conn
    (World env files sessions out (repeat None 9 ++ Some e :: rest) lg) =
  (Return tt,
   World env
     (write_file (s_path s) (ensure_all the_schema (db_of (s_path s) files)) files)
     sessions
     (out ++ map creating the_schema
          ++ [("Error creating tables: " ++ error_message e)%string])
     rest (lg ++ map Ddl the_statements)).
Proof.
  intros Hs Ho. enter_create_tables Hs Ho. repeat exec_step Hs Ho.
  rewrite Hs, Ho. cbn. repeat rewrite <- app_assoc. reflexivity.
Qed.

(** [create_tables] on a connection that is closed, or is none. *)
Lemma create_tables_not_open env files sessions out faults lg conn :
  match nth_error sessions conn with
  | Some s => s_open s = false
  | None => True
  end ->
  create_tables conn (World env files sessions out faults lg) =
  (Return tt,
   World env files sessions
         (out ++ ["Error creating tables: Cannot operate on a closed database."%string])
         faults lg).
Proof.
  intros H.
  unfold create_tables, cursor, commit, try_except, bind, the_session, print,
    ret, engine_call. cbn.
  destruct (nth_error sessions conn) as [s|]; [rewrite H|]; reflexivity.
Qed.

(** Whatever the engine does, [create_tables] on an open connection
    returns normally, and the database at the location is the one found,
    completed by the tables of the first [k] statements, for some [k]. *)
Lemma create_tables_any env files sessions out faults lg conn s :
  nth_error sessions conn = Some s -> s_open s = true ->
  exists k files' out' faults' lg',
    create_tables conn (World env files sessions out faults lg)
    = (Return tt, World env files' sessions out' faults' lg')
    /\ (k <= 9)%nat
    /\ db_of (s_path s) files'
       = ensure_all (firstn k the_schema) (db_of (s_path s) files)
    /\ (forall q, String.eqb q (s_path s) = false ->
                  lookup_file q files' = lookup_file q files)
    /\ exists printed, out' = out ++ printed.
Proof.
  intros Hs Ho.
  destruct (faults_split 10 faults) as [Hc|(k & e & rest & Hk & ->)].
  - exists 9%nat. do 4 eexists.
    split; [eapply create_tables_clean; eassumption|].
    split; [lia|]. split; [apply db_of_write|].
    split; [|eexists; reflexivity].
    intros q Hq. now apply lookup_write_other.
  - assert (Hk' : (k < 9)%nat \/ k = 9%nat) by lia.
    destruct Hk' as [Hk'| ->].
    + exists k. do 4 eexists.
      split; [eapply create_tables_fault; eassumption|]. split; [lia|].
      split; [destruct k; [reflexivity | apply db_of_write]|].
      split; [|eexists; reflexivity].
      intros q Hq. destruct k; [reflexivity | now apply lookup_write_other].
    + exists 9%nat. do 4 eexists.
      split; [eapply create_tables_commit_fault; eassumption|].
      split; [lia|]. split; [apply db_of_write|].
      split; [|eexists; reflexivity].
      intros q Hq. now apply lookup_write_other.
Qed.

Lemma lookup_opened_other p q fs :
  String.eqb q p = false -> lookup_file q (opened p fs) = lookup_file q fs.
Proof.
  intros H. unfold opened. destruct (lookup_file p fs); [reflexivity|].
  now apply lookup_write_other.
Qed.

(** The rest of [main] once the connection is there. *)
Lemma main_connected env files sessions out faults lg fk :
  let p := db_path env in
  exists k files' out' faults' lg',
    (create_tables (List.length sessions) ;;
     close (List.length sessions) ;;
     print ("Database setup complete. File saved at: " ++ p))%py
      (World env (opened p files) (sessions ++ [Session p fk true]) out faults lg)
    = (Return tt,
       World env files' (sessions ++ [Session p fk false])
             (out' ++ [setup_complete p]) faults' lg')
    /\ (k <= 9)%nat
    /\ db_of p files' = ensure_all (firstn k the_schema) (db_of p files)
    /\ (forall q, String.eqb q p = false -> lookup_file q files' = lookup_file q files)
    /\ exists printed, out' = out ++ printed.
Proof.
  intros p.
  destruct (create_tables_any env (opened p files) (sessions ++ [Session p fk true])
              out faults lg (List.length sessions) (Session p fk true)
              (nth_error_last _ _) eq_refl)
    as (k & files' & out' & faults' & lg' & Hrun & Hk & Hdb & Hother & Hout).
  exists k, files', out', faults', lg'.
  unfold bind. rewrite Hrun, close_last. unfold print. cbn [w_env w_files w_sessions
    w_stdout w_faults w_log s_path s_foreign_keys].
  split; [reflexivity|]. split; [exact Hk|].
  cbn [s_path] in Hdb, Hother. rewrite db_of_opened in Hdb.
  split; [exact Hdb|]. split.
  - intros q Hq. rewrite (Hother q Hq). now apply lookup_opened_other.
  - exact Hout.
Qed.

(** Whatever the engine does, [main] returns normally.  It has opened at
    most one connection and left it closed; the database at its location
    is the one found, completed by the tables of the first [k] statements
    for some [k]; its last line tells which way it went. *)
Lemma main_any env files sessions out faults lg :
  let p := db_path env in
  exists k files' sessions' out' faults' lg' printed final,
    main (World env files sessions out faults lg)
    = (Return tt, World env files' sessions' out' faults' lg')
    /\ (sessions' = sessions
        \/ exists fk, sessions' = sessions ++ [Session p fk false])
    /\ (k <= 9)%nat
    /\ db_of p files' = ensure_all (firstn k the_schema) (db_of p files)
    /\ (forall q, String.eqb q p = false -> lookup_file q files' = lookup_file q files)
    /\ out' = out ++ printed ++ [final]
    /\ (final = setup_complete p
        \/ final = "Error! Cannot create the database connection."%string).
Proof.
  intros p. unfold main, bind at 1 2, getenv. cbn [w_env].
  rewrite create_connection_run. fold p.
  destruct faults as [|[e|] faults].
  - destruct (main_connected env files sessions (out ++ connected env p) []
                (lg ++ [PragmaForeignKeys true]) true)
      as (k & files' & out' & faults' & lg' & Hrun & Hk & Hdb & Hother & pr & ->).
    cbn [tl]. fold p in Hrun, Hdb, Hother. rewrite Hrun.
    exists k, files'. do 4 eexists. exists (connected env p ++ pr). eexists.
    split; [reflexivity|]. split; [right; eauto|]. split; [exact Hk|].
    split; [exact Hdb|]. split; [exact Hother|].
    split; [now rewrite <- !app_assoc | now left].
  - exists 0%nat, files. do 4 eexists. exists [error_message e]. eexists.
    unfold print. cbn [w_env w_files w_sessions w_stdout w_faults w_log].
    split; [reflexivity|]. split; [now left|]. split; [lia|].
    split; [reflexivity|]. split; [reflexivity|].
    split; [now rewrite <- app_assoc | now right].
  - destruct faults as [|[e|] faults].
    + destruct (main_connected env files sessions (out ++ connected env p) []
                  (lg ++ [PragmaForeignKeys true]) true)
        as (k & files' & out' & faults' & lg' & Hrun & Hk & Hdb & Hother & pr & ->).
      cbn [tl]. fold p in Hrun, Hdb, Hother. rewrite Hrun.
      exists k, files'. do 4 eexists. exists (connected env p ++ pr). eexists.
      split; [reflexivity|]. split; [right; eauto|]. split; [exact Hk|].
      split; [exact Hdb|]. split; [exact Hother|].
      split; [now rewrite <- !app_assoc | now left].
    + destruct (main_connected env files sessions
                  (out ++ connected env p ++ [error_message e]) faults
                  (lg ++ [PragmaForeignKeys true]) false)
        as (k & files' & out' & faults' & lg' & Hrun & Hk & Hdb & Hother & pr & ->).
      fold p in Hrun, Hdb, Hother. rewrite Hrun.
      exists k, files'. do 4 eexists.
      exists (connected env p ++ [error_message e] ++ pr). eexists.
      split; [reflexivity|]. split; [right; eauto|]. split; [exact Hk|].
      split; [exact Hdb|]. split; [exact Hother|].
      split; [now rewrite <- !app_assoc | now left].
    + destruct (main_connected env files sessions (out ++ connected env p) faults
                  (lg ++ [PragmaForeignKeys true]) true)
        as (k & files' & out' & faults' & lg' & Hrun & Hk & Hdb & Hother & pr & ->).
      cbn [tl]. fold p in Hrun, Hdb, Hother. rewrite Hrun.
      exists k, files'. do 4 eexists. exists (connected env p ++ pr). eexists.
      split; [reflexivity|]. split; [right; eauto|]. split; [exact Hk|].
      split; [exact Hdb|]. split; [exact Hother|].
      split; [now rewrite <- !app_assoc | now left].
Qed.

Lemma has_table_app n db l :
  has_table n (db ++ l) = (has_table n db || has_table n l)%bool.
Proof.
  unfold has_table. rewrite find_table_app.
  destruct (find_table n db); [reflexivity|]. now destruct (find_table n l).
Qed.



Lemma ensure_all_missing ds : forall db,
  distinct_names (map tbl_name ds) = true ->
  ensure_all ds db = db ++ map (fun d => Table d []) (missing ds db).
Proof.
  induction ds as [|d ds IH]; intros db Hd.
  - cbn. now rewrite app_nil_r.
  - change (ensure_all (d :: ds) db) with (ensure_all ds (ensure d db)).
    cbn [map distinct_names] in Hd. apply andb_true_iff in Hd as [Hfresh Hd].
    apply negb_true_iff in Hfresh.
    unfold missing. cbn [filter]. fold (missing ds db).
    unfold ensure. destruct (has_table (tbl_name d) db) eqn:E; cbn [negb].
    + now apply IH.
    + rewrite (IH _ Hd). rewrite <- app_assoc. cbn [app map]. do 3 f_equal.
      unfold missing. apply filter_ext_in. intros d' Hd'.
      rewrite has_table_app. cbn. unfold has_table at 2. cbn.
      replace (name_eqb (tbl_name d') (tbl_name d)) with false;
        [now rewrite orb_false_r|].
      symmetry. apply name_eqb_false. intros Heq.
      assert (Hex : existsb (name_eqb (tbl_name d)) (map tbl_name ds) = true).
      { apply existsb_exists. exists (tbl_name d'). split; [now apply in_map|].
        apply name_eqb_true. congruence. }
      congruence.
Qed.

(** X1.  No error of the engine escapes [create_connection] or
    [create_tables]: whatever [sqlite3.connect], the PRAGMA, [cursor], one
    of the nine statements or [commit] raises, at whichever call, and on
    whatever connection, open, closed or unknown, each of the two
    functions returns normally.  ([main] calls [close] outside any
    handler; nothing is said of it here.) *)
Theorem guarded_calls_never_raise (w : world) :
  (forall p, exists conn w', create_connection p w = (Return conn, w'))
  /\ (forall conn, exists w', create_tables conn w = (Return tt, w')).
Proof.
  destruct w as [env files sessions out faults lg]. split.
  - intros p. rewrite create_connection_run.
    destruct faults as [|[e|] [|[e'|] rest]]; eauto.
  - intros conn. destruct (nth_error sessions conn) as [s|] eqn:Hs.
    + destruct (s_open s) eqn:Ho.
      * destruct (create_tables_any env files sessions out faults lg conn s Hs Ho)
          as (k & files' & out' & faults' & lg' & Hrun & _).
        eauto.
      * rewrite create_tables_not_open by (now rewrite Hs). eauto.
    + rewrite create_tables_not_open by (now rewrite Hs). eauto.
Qed.

(** X2.  A run of [main] that returns normally has left no connection of
    its own open: the sessions after it are those before it, unchanged,
    followed, when it got a connection, by its own session, closed. *)
Theorem main_leaves_no_connection_open (w w' : world) :
  main w = (Return tt, w') ->
  w_sessions w' = w_sessions w
  \/ exists fk,
       w_sessions w' = w_sessions w ++ [Session (db_path (w_env w)) fk false].
Proof.
  destruct w as [env files sessions out faults lg].
  destruct (main_any env files sessions out faults lg)
    as (k & files' & sessions' & out' & faults' & lg' & pr & final
        & Hrun & Hs & _).
  rewrite Hrun. intros H. injection H as <-. exact Hs.
Qed.

Lemma main_leaves_no_connection_open_witness :
  exists w',
    main example_world = (Return tt, w')
    /\ (w_sessions w' = w_sessions example_world
        \/ exists fk,
             w_sessions w'
             = w_sessions example_world
                 ++ [Session (db_path (w_env example_world)) fk false]).
Proof.
  eexists. split; [by_evaluation|].
  apply (main_leaves_no_connection_open example_world). by_evaluation.
Defined.


(** X4.  On a store that holds tables only (no view and no index), and
    with an engine that works, [main] adds to the database exactly the
    tables of the nine that it has no table named like, in the order of
    the statements.  A table found under one of the nine names, in
    whatever letter case, stays as found: the definition of the statement
    is not applied to it. *)
Theorem main_adds_the_missing_tables (w : world) :
  w_faults w = [] ->
  let p := db_path (w_env w) in
  exists w',
    main w = (Return tt, w')
    /\ db_at p w' = db_at p w ++ map (fun d => Table d [])
                                     (missing the_schema (db_at p w))
    /\ forall d, In d the_schema -> has_table (tbl_name d) (db_at p w) = true ->
                 find_table (tbl_name d) (db_at p w')
                 = find_table (tbl_name d) (db_at p w).
Proof.
  destruct w as [env files sessions out faults lg]. intros H p.
  cbn in H. subst faults. cbn [w_env] in p.
  eexists. split; [apply main_ok|]. rewrite !db_at_of. cbn [w_files].
  rewrite db_of_write. fold p.
  assert (E : ensure_all the_schema (db_of p files)
              = db_of p files ++ map (fun d => Table d [])
                                     (missing the_schema (db_of p files))).
  { apply ensure_all_missing. vm_compute. reflexivity. }
  split; [exact E|].
  intros d _ Hhas. rewrite E, find_table_app.
  unfold has_table in Hhas. now destruct (find_table (tbl_name d) (db_of p files)).
Qed.

Lemma main_adds_the_missing_tables_witness :
  exists w',
    main legacy_world = (Return tt, w')
    /\ table_names (db_at (db_path example_env) w')
       = [ "USERACCOUNT"; "ProductionLine"; "ProductionBatch"; "InventoryItem";
           "InventoryTransaction"; "DefectType"; "DefectLog"; "ReturnReason";
           "ReturnLog" ]%string
    /\ find_table "UserAccount" (db_at (db_path example_env) w')
       = Some (Table (TableDef "USERACCOUNT" [column "Login" TEXT] [])
                     [[VText "ann"]]).
Proof.
  destruct (main_adds_the_missing_tables legacy_world eq_refl)
    as (w' & Hrun & Hdb & Hkeep).
  exists w'. split; [exact Hrun|]. split.
  - cbn [w_env legacy_world] in Hdb. rewrite Hdb. reflexivity.
  - exact (Hkeep UserAccount (or_introl eq_refl) eq_refl).
Defined.

(** X5.  On a connection that has been closed [create_tables] does
    nothing but report: the error of the first call is caught and
    printed, no statement reaches the engine and no file changes. *)
Theorem create_tables_on_closed_connection (w : world) (conn : connection)
  (s : session) :
  nth_error (w_sessions w) conn = Some s -> s_open s = false ->
  exists w',
    create_tables conn w = (Return tt, w')
    /\ w_stdout w' = w_stdout w
         ++ ["Error creating tables: Cannot operate on a closed database."%string]
    /\ w_files w' = w_files w /\ w_log w' = w_log w /\ w_faults w' = w_faults w.
Proof.
  destruct w as [env files sessions out faults lg]. cbn [w_sessions].
  intros Hs Ho. eexists. split.
  - apply create_tables_not_open. now rewrite Hs.
  - repeat split.
Qed.

Lemma create_tables_on_closed_connection_witness :
  exists w',
    create_tables 0%nat closed_world = (Return tt, w')
    /\ w_stdout w'
       = ["Error creating tables: Cannot operate on a closed database."%string]
    /\ w_files w' = [].
Proof.
  destruct (create_tables_on_closed_connection closed_world 0%nat
              (Session (db_path example_env) true false) eq_refl eq_refl)
    as (w' & Hrun & Hout & Hfiles & _).
  exists w'. split; [exact Hrun|]. split; [exact Hout | exact Hfiles].
Defined.

(* ================================================================== *)
(** ** Further properties of the schema *)
(* ================================================================== *)

(** *** The other deletes *)

Lemma delete_transactions depth dead (u l b i tr dt dl rr rl : list row) :
  delete_rows depth "InventoryTransaction" dead (the_database u l b i tr dt dl rr rl)
  = Ok (the_database u l b i (without dead tr) dt dl rr rl).
Proof.
  enter_delete (Table InventoryTransaction tr) (@nil (table_def * foreign_key)).
  reflexivity.
Qed.

Lemma delete_return_logs depth dead (u l b i tr dt dl rr rl : list row) :
  delete_rows depth "ReturnLog" dead (the_database u l b i tr dt dl rr rl)
  = Ok (the_database u l b i tr dt dl rr (without dead rl)).
Proof.
  enter_delete (Table ReturnLog rl) (@nil (table_def * foreign_key)).
  reflexivity.
Qed.

Lemma delete_items depth dead (u l b i tr dt dl rr rl : list row) :
  delete_rows (S depth) "InventoryItem" dead (the_database u l b i tr dt dl rr rl)
  = Ok (the_database u l b (without dead i)
          (without (child_of 1 (map (get 0%nat) (filter dead i))) tr)
          dt dl rr rl).
Proof.
  enter_delete (Table InventoryItem i)
    [ (InventoryTransaction,
       FOREIGN_KEY "InventoryItemID" "InventoryItem" "InventoryItemID" CASCADE) ].
  rewrite no_restrict by reflexivity.
  cbn [rbind fold_left].
  cascade_step. rewrite delete_transactions.
  apply (if_without (child_of 1 (map (get 0%nat) (filter dead i))) tr
           (fun x => Ok (the_database u l b (without dead i) x dt dl rr rl))).
Qed.

Lemma delete_return_reasons depth dead (u l b i tr dt dl rr rl : list row) :
  delete_rows (S depth) "ReturnReason" dead (the_database u l b i tr dt dl rr rl)
  = Ok (the_database u l b i tr dt dl (without dead rr)
          (nullify 3 (child_of 3 (map (get 0%nat) (filter dead rr))) rl)).
Proof.
  enter_delete (Table ReturnReason rr)
    [ (ReturnLog,
       FOREIGN_KEY "ReturnReasonID" "ReturnReason" "ReturnReasonID" SET_NULL) ].
  rewrite no_restrict by reflexivity.
  cbn [rbind fold_left].
  set_null_step (Table ReturnLog rl).
  reflexivity.
Qed.

Lemma refers_to_dead_ext k pk dead dead' parents :
  (forall p, dead p = dead' p) ->
  refers_to_dead k pk dead parents = refers_to_dead k pk dead' parents.
Proof.
  intros H. unfold refers_to_dead. induction parents as [|p ps IH]; cbn;
    [reflexivity | now rewrite H, IH].
Qed.

Lemma filter_without dead rs : filter dead (without dead rs) = [].
Proof.
  unfold without. induction rs as [|r rs IH]; cbn; [reflexivity|].
  destruct (dead r) eqn:E; cbn; [exact IH | now rewrite E].
Qed.

Lemma without_without dead rs : without dead (without dead rs) = without dead rs.
Proof.
  unfold without. induction rs as [|r rs IH]; cbn; [reflexivity|].
  destruct (dead r) eqn:E; cbn; [exact IH | now rewrite E, IH].
Qed.

Lemma nullify_no_keys ci rs : nullify ci (child_of ci []) rs = rs.
Proof. apply nullify_none, existsb_const_false. intro. reflexivity. Qed.

Lemma without_no_keys ci rs : without (child_of ci []) rs = rs.
Proof. apply without_none, existsb_const_false. intro. reflexivity. Qed.

(** Read the rows of the tables named in a goal [forall n, In n _ -> _]. *)
Ltac others_unchanged :=
  let n := fresh "n" in
  let Hn := fresh "Hn" in
  intros n Hn; cbn [In] in Hn;
  repeat (destruct Hn as [<-|Hn]; [read_db; reflexivity|]);
  contradiction.

(** X6.  A delete of ProductionLine rows in an enforcing session does what
    two deletes in that session do: first the ProductionBatch rows that
    reference the lines to go, then the lines. *)
Theorem line_delete_as_two_deletes (s : session) (db : database)
  (dead : row -> bool) :
  s_foreign_keys s = true ->
  schema db = the_schema ->
  sql_delete (s_foreign_keys s) "ProductionLine" dead db
  = (db1 <-- sql_delete (s_foreign_keys s) "ProductionBatch"
               (fun batch =>
                  refers_to_dead (field ProductionBatch "ProductionLineID" batch)
                                 (field ProductionLine "ProductionLineID")
                                 dead (rows_of "ProductionLine" db))
               db ;;
     sql_delete (s_foreign_keys s) "ProductionLine" dead db1).
Proof.
  intros -> H. destruct (schema_inv db H) as (u&l&b&i&tr&dt&dl&rr&rl&->).
  unfold sql_delete. change max_trigger_depth with (S (S 998)).
  read_db. rewrite delete_lines, delete_batches. cbn [rbind].
  rewrite delete_lines. cbv zeta.
  set (orphan := child_of 1 (map (get 0%nat) (filter dead l))).
  assert (E : filter (fun batch =>
                        refers_to_dead (field ProductionBatch "ProductionLineID" batch)
                                       (field ProductionLine "ProductionLineID")
                                       dead l) b = filter orphan b).
  { apply filter_ext. intros batch. unfold orphan. now rewrite child_of_refers. }
  assert (E' : without (fun batch =>
                        refers_to_dead (field ProductionBatch "ProductionLineID" batch)
                                       (field ProductionLine "ProductionLineID")
                                       dead l) b = without orphan b).
  { apply filter_ext. intros batch. unfold orphan. now rewrite child_of_refers. }
  rewrite E, E', filter_without, without_without. cbn [map].
  now rewrite !nullify_no_keys, without_no_keys.
Qed.

Lemma line_delete_as_two_deletes_witness :
  sql_delete true "ProductionLine" (with_id 1) example_database
  = (db1 <-- sql_delete true "ProductionBatch"
               (fun batch =>
                  refers_to_dead (field ProductionBatch "ProductionLineID" batch)
                                 (field ProductionLine "ProductionLineID")
                                 (with_id 1) (rows_of "ProductionLine" example_database))
               example_database ;;
     sql_delete true "ProductionLine" (with_id 1) db1).
Proof.
  exact (line_delete_as_two_deletes (Session (db_path example_env) true true)
           example_database (with_id 1) eq_refl eq_refl).
Defined.

(** X7.  A delete of ProductionBatch rows in an enforcing session always
    succeeds.  With the batches go the DefectLog rows that reference them;
    the InventoryTransaction and ReturnLog rows that reference them stay,
    their BatchID set to NULL; the other five tables are as before. *)
Theorem batch_delete_effects (s : session) (db : database) (dead : row -> bool) :
  s_foreign_keys s = true ->
  schema db = the_schema ->
  let gone k := refers_to_dead k (field ProductionBatch "BatchID") dead
                               (rows_of "ProductionBatch" db) in
  exists db',
    sql_delete (s_foreign_keys s) "ProductionBatch" dead db = Ok db'
    /\ schema db' = the_schema
    /\ rows_of "ProductionBatch" db' = without dead (rows_of "ProductionBatch" db)
    /\ rows_of "DefectLog" db'
       = without (fun log => gone (field DefectLog "BatchID" log))
                 (rows_of "DefectLog" db)
    /\ rows_of "InventoryTransaction" db'
       = map (fun t => if gone (field InventoryTransaction "BatchID" t)
                       then with_field InventoryTransaction "BatchID" VNull t
                       else t)
             (rows_of "InventoryTransaction" db)
    /\ rows_of "ReturnLog" db'
       = map (fun r => if gone (field ReturnLog "BatchID" r)
                       then with_field ReturnLog "BatchID" VNull r
                       else r)
             (rows_of "ReturnLog" db)
    /\ forall n, In n [ "UserAccount"; "ProductionLine"; "InventoryItem";
                        "DefectType"; "ReturnReason" ]%string ->
                 rows_of n db' = rows_of n db.
Proof.
  intros -> H gone. destruct (schema_inv db H) as (u&l&b&i&tr&dt&dl&rr&rl&->).
  unfold sql_delete. change max_trigger_depth with (S 999).
  rewrite delete_batches. eexists. split; [reflexivity|]. split; [reflexivity|].
  unfold gone. read_db. split; [reflexivity|].
  split; [apply filter_ext; intros r; now rewrite child_of_refers|].
  split; [apply map_ext; intros r; now rewrite child_of_refers|].
  split; [apply map_ext; intros r; now rewrite child_of_refers|].
  others_unchanged.
Qed.

Lemma batch_delete_effects_witness :
  exists db',
    sql_delete true "ProductionBatch" (with_id 1) example_database = Ok db'
    /\ rows_of "DefectLog" db' = []
    /\ rows_of "InventoryTransaction" db'
       = [ [VInt 1; VInt 1; VNull; VInt (-3); VNull; VText "2026-01-05 08:00:00";
            VNull] ].
Proof.
  destruct (batch_delete_effects (Session (db_path example_env) true true)
              example_database (with_id 1) eq_refl eq_refl)
    as (db' & Hrun & _ & _ & Hdl & Htr & _).
  exists db'. split; [exact Hrun|]. split.
  - rewrite Hdl. reflexivity.
  - rewrite Htr. reflexivity.
Defined.

(** X8.  A delete of UserAccount rows in an enforcing session always
    succeeds and deletes rows of no other table: every reference to a
    deleted user, the CreatedByUserID of a batch, the UpdatedByUserID of a
    transaction, the LoggedByUserID of a defect log, the ProcessedByUserID
    of a return log, is set to NULL in its row, and the tables that do not
    reference users are as before. *)
Theorem user_delete_nulls_every_reference (s : session) (db : database)
  (dead : row -> bool) :
  s_foreign_keys s = true ->
  schema db = the_schema ->
  let gone k := refers_to_dead k (field UserAccount "UserID") dead
                               (rows_of "UserAccount" db) in
  exists db',
    sql_delete (s_foreign_keys s) "UserAccount" dead db = Ok db'
    /\ rows_of "UserAccount" db' = without dead (rows_of "UserAccount" db)
    /\ rows_of "ProductionBatch" db'
       = map (fun b => if gone (field ProductionBatch "CreatedByUserID" b)
                       then with_field ProductionBatch "CreatedByUserID" VNull b
                       else b)
             (rows_of "ProductionBatch" db)
    /\ rows_of "InventoryTransaction" db'
       = map (fun t => if gone (field InventoryTransaction "UpdatedByUserID" t)
                       then with_field InventoryTransaction "UpdatedByUserID" VNull t
                       else t)
             (rows_of "InventoryTransaction" db)
    /\ rows_of "DefectLog" db'
       = map (fun l => if gone (field DefectLog "LoggedByUserID" l)
                       then with_field DefectLog "LoggedByUserID" VNull l
                       else l)
             (rows_of "DefectLog" db)
    /\ rows_of "ReturnLog" db'
       = map (fun r => if gone (field ReturnLog "ProcessedByUserID" r)
                       then with_field ReturnLog "ProcessedByUserID" VNull r
                       else r)
             (rows_of "ReturnLog" db)
    /\ forall n, In n [ "ProductionLine"; "InventoryItem"; "DefectType";
                        "ReturnReason" ]%string ->
                 rows_of n db' = rows_of n db.
Proof.
  intros -> H gone. destruct (schema_inv db H) as (u&l&b&i&tr&dt&dl&rr&rl&->).
  unfold sql_delete. change max_trigger_depth with (S 999).
  rewrite delete_users. eexists. split; [reflexivity|].
  unfold gone. read_db.
  split; [reflexivity|].
  split; [apply map_ext; intros r; now rewrite child_of_refers|].
  split; [apply map_ext; intros r; now rewrite child_of_refers|].
  split; [apply map_ext; intros r; now rewrite child_of_refers|].
  split; [apply map_ext; intros r; now rewrite child_of_refers|].
  others_unchanged.
Qed.

Lemma user_delete_nulls_every_reference_witness :
  exists db',
    sql_delete true "UserAccount" (with_id 1) example_database = Ok db'
    /\ rows_of "DefectLog" db'
       = rows_of "DefectLog" example_database
    /\ rows_of "ProductionLine" db' = rows_of "ProductionLine" example_database.
Proof.
  destruct (user_delete_nulls_every_reference
              (Session (db_path example_env) true true)
              example_database (with_id 1) eq_refl eq_refl)
    as (db' & Hrun & _ & _ & _ & Hdl & _ & Hother).
  exists db'. split; [exact Hrun|]. split.
  - rewrite Hdl. reflexivity.
  - apply Hother. now left.
Defined.

(** X9.  A delete of InventoryItem rows in an enforcing session always
    succeeds; with the items go exactly the InventoryTransaction rows
    whose InventoryItemID references them, and nothing else changes. *)
Theorem item_delete_cascades_to_transactions (s : session) (db : database)
  (dead : row -> bool) :
  s_foreign_keys s = true ->
  schema db = the_schema ->
  exists db',
    sql_delete (s_foreign_keys s) "InventoryItem" dead db = Ok db'
    /\ rows_of "InventoryItem" db' = without dead (rows_of "InventoryItem" db)
    /\ rows_of "InventoryTransaction" db'
       = without (fun t =>
                    refers_to_dead (field InventoryTransaction "InventoryItemID" t)
                                   (field InventoryItem "InventoryItemID")
                                   dead (rows_of "InventoryItem" db))
                 (rows_of "InventoryTransaction" db)
    /\ forall n, In n [ "UserAccount"; "ProductionLine"; "ProductionBatch";
                        "DefectType"; "DefectLog"; "ReturnReason";
                        "ReturnLog" ]%string ->
                 rows_of n db' = rows_of n db.
Proof.
  intros -> H. destruct (schema_inv db H) as (u&l&b&i&tr&dt&dl&rr&rl&->).
  unfold sql_delete. change max_trigger_depth with (S 999).
  rewrite delete_items. eexists. split; [reflexivity|].
  read_db. split; [reflexivity|].
  split; [apply filter_ext; intros r; now rewrite child_of_refers|].
  others_unchanged.
Qed.

Lemma item_delete_cascades_to_transactions_witness :
  exists db',
    sql_delete true "InventoryItem" (with_id 1) example_database = Ok db'
    /\ rows_of "InventoryItem" db' = []
    /\ rows_of "InventoryTransaction" db' = [].
Proof.
  destruct (item_delete_cascades_to_transactions
              (Session (db_path example_env) true true)
              example_database (with_id 1) eq_refl eq_refl)
    as (db' & Hrun & Hi & Htr & _).
  exists db'. split; [exact Hrun|]. split.
  - rewrite Hi. reflexivity.
  - rewrite Htr. reflexivity.
Defined.

(** X10.  A delete of ReturnReason rows in an enforcing session always
    succeeds; the ReturnLog rows that reference a deleted reason stay,
    their ReturnReasonID set to NULL, and nothing else changes. *)
Theorem return_reason_delete_nulls_return_logs (s : session) (db : database)
  (dead : row -> bool) :
  s_foreign_keys s = true ->
  schema db = the_schema ->
  exists db',
    sql_delete (s_foreign_keys s) "ReturnReason" dead db = Ok db'
    /\ rows_of "ReturnReason" db' = without dead (rows_of "ReturnReason" db)
    /\ rows_of "ReturnLog" db'
       = map (fun r =>
                if refers_to_dead (field ReturnLog "ReturnReasonID" r)
                                  (field ReturnReason "ReturnReasonID")
                                  dead (rows_of "ReturnReason" db)
                then with_field ReturnLog "ReturnReasonID" VNull r
                else r)
             (rows_of "ReturnLog" db)
    /\ forall n, In n [ "UserAccount"; "ProductionLine"; "ProductionBatch";
                        "InventoryItem"; "InventoryTransaction"; "DefectType";
                        "DefectLog" ]%string ->
                 rows_of n db' = rows_of n db.
Proof.
  intros -> H. destruct (schema_inv db H) as (u&l&b&i&tr&dt&dl&rr&rl&->).
  unfold sql_delete. change max_trigger_depth with (S 999).
  rewrite delete_return_reasons. eexists. split; [reflexivity|].
  read_db. split; [reflexivity|].
  split; [apply map_ext; intros r; now rewrite child_of_refers|].
  others_unchanged.
Qed.

Lemma return_reason_delete_nulls_return_logs_witness :
  exists db',
    sql_delete true "ReturnReason" (with_id 1) returns_database = Ok db'
    /\ rows_of "ReturnReason" db' = [ [VInt 2; VText "late"] ]
    /\ rows_of "ReturnLog" db'
       = [ [VInt 1; VNull; VInt 1; VNull; VText "2026-01-05 08:00:00"; VNull; VNull];
           [VInt 2; VNull; VInt 1; VInt 2; VText "2026-01-05 08:00:00"; VNull; VNull] ]
    /\ rows_of "ProductionBatch" db' = rows_of "ProductionBatch" returns_database.
Proof.
  destruct (return_reason_delete_nulls_return_logs
              (Session (db_path example_env) true true)
              returns_database (with_id 1) eq_refl eq_refl)
    as (db' & Hrun & Hrr & Hrl & Hother).
  exists db'. split; [exact Hrun|]. split; [|split].
  - rewrite Hrr. reflexivity.
  - rewrite Hrl. reflexivity.
  - apply Hother. right. right. now left.
Defined.

(** X11.  RESTRICT on DefectLog.DefectTypeID is the only obstacle to a
    delete: in an enforcing session a delete from any of the other eight
    tables succeeds, whichever rows it selects and whatever references
    them. *)
Theorem only_defect_types_resist_delete (s : session) (db : database)
  (d : table_def) (dead : row -> bool) :
  s_foreign_keys s = true ->
  schema db = the_schema ->
  In d the_schema -> d <> DefectType ->
  exists db', sql_delete (s_foreign_keys s) (tbl_name d) dead db = Ok db'
              /\ schema db' = the_schema.
Proof.
  intros -> H Hd Hne. destruct (schema_inv db H) as (u&l&b&i&tr&dt&dl&rr&rl&->).
  unfold sql_delete. change max_trigger_depth with (S (S 998)).
  unfold the_schema, the_statements in Hd. cbn [map In] in Hd.
  destruct Hd as [<-|[<-|[<-|[<-|[<-|[<-|[<-|[<-|[<-|[]]]]]]]]]].
  - change (tbl_name _) with "UserAccount". rewrite delete_users. eauto.
  - change (tbl_name _) with "ProductionLine". rewrite delete_lines. eauto.
  - change (tbl_name _) with "ProductionBatch". rewrite delete_batches. eauto.
  - change (tbl_name _) with "InventoryItem". rewrite delete_items. eauto.
  - change (tbl_name _) with "InventoryTransaction". rewrite delete_transactions. eauto.
  - contradiction.
  - change (tbl_name _) with "DefectLog". rewrite delete_defect_logs. eauto.
  - change (tbl_name _) with "ReturnReason". rewrite delete_return_reasons. eauto.
  - change (tbl_name _) with "ReturnLog". rewrite delete_return_logs. eauto.
Qed.

Lemma only_defect_types_resist_delete_witness :
  exists db', sql_delete true "UserAccount" (fun _ => true) example_database = Ok db'
              /\ schema db' = the_schema.
Proof.
  apply (only_defect_types_resist_delete (Session (db_path example_env) true true)
           example_database UserAccount (fun _ => true) eq_refl eq_refl).
  - now left.
  - discriminate.
Defined.

(** *** What an INSERT has verified *)

Lemma insert_ok_full fk now tname asg db db' :
  sql_insert fk now tname asg db = Ok db' ->
  exists t,
    find_table tname db = Some t
    /\ let d := t_def t in
       let r := assign_rowid d (t_rows t)
                  (map (initial_value now asg) (tbl_columns d)) in
       not_nulls_ok d r = true
       /\ keys_fresh d (t_rows t) r = true
       /\ db' = set_rows tname (t_rows t ++ [r]) db
       /\ (fk = true -> child_keys_ok db' d (tbl_foreign_keys d) [r] = Ok tt).
Proof.
  unfold sql_insert. destruct (find_table tname db) as [t|]; [|discriminate].
  intros H. exists t. split; [reflexivity|].
  pass_guard H Hcols. pass_guard H Hpk. pass_guard H Hnn. pass_guard H Hck.
  pass_guard H Hkeys. apply rbind_ok in H as (u & Hfk & H). injection H as <-.
  cbv zeta. repeat split; try assumption.
  intros ->. now destruct u.
Qed.

Lemma all_ok_inv {A} (f : A -> result unit) l a :
  all_ok f l = Ok tt -> In a l -> f a = Ok tt.
Proof.
  induction l as [|b l IH]; cbn; [contradiction|].
  intros H [<-|Ha].
  - destruct (f b) as [[]|]; [reflexivity | discriminate].
  - apply IH; [|exact Ha]. destruct (f b); [exact H | discriminate].
Qed.

Lemma indexed_from_In {A} (l : list A) : forall a i c,
  In (i, c) (combine (seq a (List.length l)) l)
  <-> (a <= i)%nat /\ nth_error l (i - a) = Some c.
Proof.
  induction l as [|x l IH]; intros a i c; cbn.
  - split; [contradiction|]. intros [_ H]. now destruct (i - a)%nat.
  - rewrite IH. split.
    + intros [[= <- <-]|[Hle Hn]].
      * split; [lia|]. now rewrite Nat.sub_diag.
      * split; [lia|]. replace (i - a)%nat with (S (i - S a)) by lia. exact Hn.
    + intros [Hle Hn]. destruct (i - a)%nat as [|k] eqn:E.
      * left. injection Hn as <-. f_equal. lia.
      * right. split; [lia|]. replace (i - S a)%nat with k by lia. exact Hn.
Qed.

Lemma indexed_In d i c :
  In (i, c) (indexed d) <-> nth_error (tbl_columns d) i = Some c.
Proof.
  unfold indexed. rewrite indexed_from_In, Nat.sub_0_r.
  split; [now intros [_ H] | intros H; split; [lia | exact H]].
Qed.

Lemma col_index_from_named n cols : forall a i,
  col_index_from a n cols = Some i ->
  exists c, (a <= i)%nat /\ nth_error cols (i - a) = Some c
            /\ name_eqb n (col_name c) = true.
Proof.
  induction cols as [|x cols IH]; intros a i; cbn; [discriminate|].
  destruct (name_eqb n (col_name x)) eqn:E.
  - intros [= <-]. exists x. rewrite Nat.sub_diag. repeat split; [lia | exact E].
  - intros H. destruct (IH _ _ H) as (c & Hle & Hn & Hc).
    exists c. split; [lia|]. split; [|exact Hc].
    replace (i - a)%nat with (S (i - S a)) by lia. exact Hn.
Qed.

Lemma column_at_named d n i c : column_at d n i c -> lower n = lower (col_name c).
Proof.
  intros [Hi Hc]. unfold col_index in Hi.
  destruct (col_index_from_named _ _ _ _ Hi) as (c' & _ & Hn & Hname).
  rewrite Nat.sub_0_r, Hc in Hn. injection Hn as <-. now apply name_eqb_true.
Qed.

Lemma lookup_first_lower {A} n m (l : list (string * A)) :
  lower n = lower m -> lookup_first n l = lookup_first m l.
Proof.
  intros H. induction l as [|[k a] l IH]; cbn; [reflexivity|].
  unfold name_eqb. now rewrite H, IH.
Qed.

Lemma get_map_nth {A} (f : A -> value) l i c :
  nth_error l i = Some c -> get i (map f l) = f c.
Proof.
  unfold get. revert i. induction l as [|x l IH]; intros [|i]; cbn;
    try discriminate; [now intros [= ->] | apply IH].
Qed.

Lemma get_put_same i v r : (i < List.length r)%nat -> get i (put i v r) = v.
Proof.
  unfold get. revert i. induction r as [|x r IH]; intros [|i] H; cbn in *;
    try lia; [reflexivity | apply IH; lia].
Qed.

Lemma pk_index_column d j :
  pk_index d = Some j ->
  exists c, nth_error (tbl_columns d) j = Some c /\ col_primary_key c = true.
Proof.
  unfold pk_index.
  destruct (filter _ (indexed d)) as [|[j' c] rest] eqn:E; [discriminate|].
  intros [= <-]. exists c.
  assert (H : In (j', c) (filter (fun ic => col_primary_key (snd ic)) (indexed d)))
    by (rewrite E; now left).
  apply filter_In in H as [H1 H2]. split; [now apply indexed_In | exact H2].
Qed.

(** The value of a column in the row that an INSERT makes: the value
    supplied, when one that is not NULL is supplied; else, in a column
    that is not the identifier, the default or NULL. *)
Lemma supplied_is_stored now asg d rows n i c v :
  column_at d n i c -> lookup_first n asg = Some v -> v <> VNull ->
  get i (assign_rowid d rows (map (initial_value now asg) (tbl_columns d))) = v.
Proof.
  intros Hat Hv Hnn. pose proof (column_at_named d n i c Hat) as Hname.
  destruct Hat as [_ Hc].
  assert (H0 : get i (map (initial_value now asg) (tbl_columns d)) = v).
  { rewrite (get_map_nth _ _ _ _ Hc). unfold initial_value.
    now rewrite <- (lookup_first_lower n (col_name c) asg Hname), Hv. }
  unfold assign_rowid. destruct (pk_index d) as [j|]; [|exact H0].
  destruct (is_null (get j _)) eqn:E; [|exact H0].
  destruct (Nat.eq_dec i j) as [->|Hij]; [|now rewrite get_put_other].
  rewrite H0 in E. destruct v; [contradiction | discriminate..].
Qed.

Lemma unsupplied_is_default now asg d rows n i c :
  column_at d n i c -> col_primary_key c = false ->
  get i (assign_rowid d rows (map (initial_value now asg) (tbl_columns d)))
  = initial_value now asg c.
Proof.
  intros [_ Hc] Hpk.
  assert (H0 : get i (map (initial_value now asg) (tbl_columns d))
               = initial_value now asg c) by now apply get_map_nth.
  unfold assign_rowid. destruct (pk_index d) as [j|] eqn:Ej; [|exact H0].
  destruct (is_null (get j _)); [|exact H0].
  destruct (Nat.eq_dec i j) as [->|Hij]; [|now rewrite get_put_other].
  destruct (pk_index_column d j Ej) as (c' & Hc' & Hpk').
  rewrite Hc in Hc'. injection Hc' as <-. congruence.
Qed.

Lemma value_eqb_refl v : value_eqb v v = true.
Proof. destruct v; cbn; [reflexivity | apply Z.eqb_refl | apply String.eqb_refl]. Qed.

Lemma key_eqb_refl v : v <> VNull -> key_eqb v v = true.
Proof. intros H. unfold key_eqb. rewrite value_eqb_refl. now destruct v. Qed.

Lemma column_at_exists d n i :
  col_index n d = Some i -> exists c, column_at d n i c.
Proof.
  intros H. pose proof H as H'. unfold col_index in H'.
  destruct (col_index_from_named _ _ _ _ H') as (c & _ & Hc & _).
  rewrite Nat.sub_0_r in Hc. exists c. now split.
Qed.

Lemma existsb_map_keys v (g : row -> value) rs :
  existsb (key_eqb v) (map g rs) = existsb (fun r => key_eqb v (g r)) rs.
Proof. induction rs as [|r rs IH]; cbn; [reflexivity | now rewrite IH]. Qed.

Lemma rows_of_set_rows n rs db t :
  find_table n db = Some t -> rows_of n (set_rows n rs db) = rs.
Proof.
  intros H. unfold rows_of. rewrite find_table_set_rows, H.
  unfold name_eqb. now rewrite String.eqb_refl.
Qed.

Lemma field_get d n i r : col_index n d = Some i -> field d n r = get i r.
Proof. intros H. unfold field. cbn [eval]. now rewrite H. Qed.

Lemma fold_max_ge zs : forall a x, In x (a :: zs) -> x <= fold_left Z.max zs a.
Proof.
  induction zs as [|z zs IH]; intros a x H; cbn.
  - destruct H as [H|[]]. lia.
  - destruct H as [H|[H|H]].
    + transitivity (Z.max a z); [lia | apply IH; now left].
    + transitivity (Z.max a z); [lia | apply IH; now left].
    + apply IH. now right.
Qed.

Lemma next_rowid_fresh i rows r0 :
  In r0 rows -> get i r0 <> VInt (next_rowid i rows).
Proof.
  intros Hin E.
  assert (Hk : In (next_rowid i rows) (int_keys i rows)).
  { unfold int_keys. apply in_flat_map. exists r0. split; [exact Hin|].
    rewrite E. now left. }
  unfold next_rowid in *. destruct (int_keys i rows) as [|z zs]; [contradiction|].
  pose proof (fold_max_ge zs z _ Hk). lia.
Qed.

(** X12.  In an enforcing session a row cannot be inserted with a reference
    to nothing: for every foreign key of the nine tables, an INSERT that
    supplies for its column a value that is not NULL and is the key of no
    row of the parent table fails. *)
Theorem insert_needs_parent (s : session) (db : database) (now : string)
  (asg : list (string * value)) (d : table_def) (f : foreign_key) (v : value) :
  s_foreign_keys s = true ->
  schema db = the_schema ->
  In d the_schema -> In f (tbl_foreign_keys d) ->
  lookup_first (fk_column f) asg = Some v -> v <> VNull ->
  existsb (key_eqb v) (parent_keys db f) = false ->
  exists e, sql_insert (s_foreign_keys s) now (tbl_name d) asg db = Err e.
Proof.
  intros -> Hs Hd Hf Hv Hnn Hnone.
  destruct (sql_insert true now (tbl_name d) asg db) as [db'|e] eqn:H; [|eauto].
  exfalso. apply insert_ok_full in H as (t & Hfind & _ & _ & -> & Hfk).
  destruct (find_in_schema db d Hs Hd) as [rows Hfind'].
  rewrite Hfind' in Hfind. injection Hfind as <-. cbn [t_def t_rows] in Hfk.
  specialize (Hfk eq_refl).
  apply (all_ok_inv _ _ f) in Hfk; [|exact Hf].
  eapply all_ok_inv in Hfk; [|left; reflexivity].
  unfold child_key_ok in Hfk. rewrite find_table_set_rows in Hfk.
  assert (Hself : name_eqb (fk_parent_table f) (tbl_name d) = false).
  { assert (Hb : no_self_reference the_schema = true) by (vm_compute; reflexivity).
    unfold no_self_reference in Hb. rewrite forallb_forall in Hb.
    specialize (Hb d Hd). rewrite forallb_forall in Hb.
    now apply negb_true_iff, Hb. }
  rewrite Hself in Hfk. unfold parent_keys in Hnone.
  destruct (find_table (fk_parent_table f) db) as [p|]; [|discriminate].
  destruct (col_index (fk_column f) d) as [ci|] eqn:Eci; [|discriminate].
  destruct (col_index (fk_parent_column f) (t_def p)) as [pi|]; [|discriminate].
  destruct (column_at_exists d _ ci Eci) as [c Hat].
  rewrite (supplied_is_stored now asg d rows _ ci c v Hat Hv Hnn) in Hfk.
  rewrite existsb_map_keys in Hnone. rewrite Hnone in Hfk.
  destruct v; [contradiction | discriminate..].
Qed.

Lemma insert_needs_parent_witness :
  exists e,
    sql_insert true "2026-01-05 08:00:00" "ProductionBatch"
               [ ("ProductionLineID", VInt 7); ("ShiftDate", VText "2026-01-05");
                 ("QuantityProduced", VInt 1) ]
               example_database = Err e.
Proof.
  apply (insert_needs_parent (Session (db_path example_env) true true)
           example_database _ _ ProductionBatch
           (FOREIGN_KEY "ProductionLineID" "ProductionLine" "ProductionLineID" CASCADE)
           (VInt 7)).
  - reflexivity.
  - reflexivity.
  - vm_compute. tauto.
  - now left.
  - reflexivity.
  - discriminate.
  - reflexivity.
Defined.

(** X13.  Identifiers and UNIQUE columns hold no value twice: on any
    session, an INSERT that supplies for such a column a value, not NULL,
    that a row of the table already has there fails. *)
Theorem duplicate_key_rejected (db : database) (fk : bool) (now : string)
  (asg : list (string * value)) (d : table_def) (n : string) (i : nat)
  (c : column_def) (v : value) (r : row) :
  schema db = the_schema -> In d the_schema ->
  column_at d n i c -> is_key c = true ->
  lookup_first n asg = Some v -> v <> VNull ->
  In r (rows_of (tbl_name d) db) -> field d n r = v ->
  exists e, sql_insert fk now (tbl_name d) asg db = Err e.
Proof.
  intros Hs Hd Hat Hkey Hv Hnn Hr Hfield.
  destruct (sql_insert fk now (tbl_name d) asg db) as [db'|e] eqn:H; [|eauto].
  exfalso. apply insert_ok_full in H as (t & Hfind & _ & Hfresh & _).
  destruct (find_in_schema db d Hs Hd) as [rows Hfind'].
  unfold rows_of in Hr. rewrite Hfind' in Hr.
  rewrite Hfind' in Hfind. injection Hfind as <-. cbn [t_def t_rows] in *.
  unfold keys_fresh in Hfresh. rewrite forallb_forall in Hfresh.
  specialize (Hfresh (i, c) (proj2 (indexed_In d i c) (proj2 Hat))).
  cbn [fst snd] in Hfresh. rewrite Hkey in Hfresh. cbn in Hfresh.
  apply negb_true_iff in Hfresh.
  rewrite (supplied_is_stored now asg d rows n i c v Hat Hv Hnn) in Hfresh.
  rewrite existsb_map_keys in Hfresh.
  assert (Hex : existsb (fun r0 => key_eqb v (get i r0)) rows = true).
  { apply existsb_exists. exists r. split; [exact Hr|].
    rewrite <- (field_get d n i r (proj1 Hat)), Hfield. now apply key_eqb_refl. }
  congruence.
Qed.

Lemma duplicate_key_rejected_witness :
  exists e,
    sql_insert false "2026-01-05 08:00:00" "UserAccount"
               [ ("FullName", VText "Another Ann"); ("Username", VText "ann");
                 ("PasswordHash", VText "other") ]
               example_database = Err e.
Proof.
  apply (duplicate_key_rejected example_database false _ _ UserAccount "Username"
           3%nat (column "Username" (VARCHAR 100) |> NOT_NULL |> UNIQUE)
           (VText "ann")
           [VInt 1; VText "Ann"; VNull; VText "ann"; VText "hash"; VNull]).
  - reflexivity.
  - now left.
  - split; reflexivity.
  - reflexivity.
  - reflexivity.
  - discriminate.
  - now left.
  - reflexivity.
Defined.

(** X14.  A column declared NOT NULL is never NULL: on any session, an
    INSERT fails that supplies NULL for such a column, or supplies nothing
    where the column has no default; and in every database that row
    statements lead to from the initialized one no row has NULL in such a
    column. *)
Theorem required_columns_are_never_null :
  (forall db fk now asg d n i c,
      schema db = the_schema -> In d the_schema ->
      column_at d n i c -> col_not_null c = true ->
      lookup_first n asg = Some VNull
      \/ (lookup_first n asg = None /\ col_default c = None) ->
      exists e, sql_insert fk now (tbl_name d) asg db = Err e)
  /\ (forall db d n i c r,
         reachable db -> In d the_schema ->
         column_at d n i c -> col_not_null c = true ->
         In r (rows_of (tbl_name d) db) -> field d n r <> VNull).
Proof.
  split.
  - intros db fk now asg d n i c Hs Hd Hat Hreq Hnone.
    destruct (sql_insert fk now (tbl_name d) asg db) as [db'|e] eqn:H; [|eauto].
    exfalso. apply insert_ok_full in H as (t & Hfind & Hnn & _).
    destruct (find_in_schema db d Hs Hd) as [rows Hfind'].
    rewrite Hfind' in Hfind. injection Hfind as <-. cbn [t_def t_rows] in Hnn.
    unfold not_nulls_ok in Hnn. rewrite forallb_forall in Hnn.
    specialize (Hnn (i, c) (proj2 (indexed_In d i c) (proj2 Hat))).
    unfold not_null_passes in Hnn. cbn [fst snd] in Hnn. rewrite Hreq in Hnn.
    cbn in Hnn. apply negb_true_iff in Hnn.
    assert (Hpk : col_primary_key c = false).
    { assert (Hb : forallb (fun d => forallb (fun c => negb (col_primary_key c
                                                           && col_not_null c))
                                             (tbl_columns d)) the_schema = true)
        by (vm_compute; reflexivity).
      rewrite forallb_forall in Hb. specialize (Hb d Hd).
      rewrite forallb_forall in Hb.
      specialize (Hb c (nth_error_In _ _ (proj2 Hat))).
      rewrite Hreq, andb_true_r in Hb. now apply negb_true_iff. }
    rewrite (unsupplied_is_default now asg d rows n i c Hat Hpk) in Hnn.
    unfold initial_value in Hnn.
    rewrite <- (lookup_first_lower n (col_name c) asg (column_at_named d n i c Hat))
      in Hnn.
    destruct Hnone as [Hv|[Hv Hdef]]; rewrite Hv in Hnn;
      [|rewrite Hdef in Hnn]; discriminate.
  - intros db d n i c r Hreach Hd Hat Hreq Hr Hnull.
    apply reachable_sound in Hreach.
    pose proof (rows_in_schema db d r Hreach Hd Hr) as Hok.
    apply andb_true_iff in Hok as [Hnn _].
    unfold not_nulls_ok in Hnn. rewrite forallb_forall in Hnn.
    specialize (Hnn (i, c) (proj2 (indexed_In d i c) (proj2 Hat))).
    unfold not_null_passes in Hnn. cbn [fst snd] in Hnn.
    rewrite Hreq, <- (field_get d n i r (proj1 Hat)), Hnull in Hnn. discriminate.
Qed.

Lemma required_columns_are_never_null_witness :
  exists e,
    sql_insert false "2026-01-05 08:00:00" "UserAccount"
               [ ("FullName", VText "Bob"); ("Username", VText "bob") ]
               example_database = Err e.
Proof.
  apply (proj1 required_columns_are_never_null example_database false _ _
           UserAccount "PasswordHash" 4%nat
           (column "PasswordHash" (VARCHAR 255) |> NOT_NULL)).
  - reflexivity.
  - now left.
  - split; reflexivity.
  - reflexivity.
  - right. split; reflexivity.
Defined.

(** X15.  Identifiers are assigned by the store: when an INSERT that
    supplies no identifier, or NULL, succeeds in a table whose largest
    identifier in use is not the largest integer that the store holds,
    the new row comes last in its table and its identifier is the integer
    after the largest in use (1 in an empty table), which no row of the
    table has.  (Once the largest integer is in use the store picks an
    unused identifier at random; nothing is said of that case.) *)
Theorem identifier_is_assigned_fresh (db db' : database) (fk : bool)
  (now : string) (asg : list (string * value)) (d : table_def) (n : string)
  (i : nat) (c : column_def) :
  schema db = the_schema -> In d the_schema ->
  column_at d n i c -> pk_index d = Some i ->
  lookup_first n asg = None \/ lookup_first n asg = Some VNull ->
  next_rowid i (rows_of (tbl_name d) db) <= max_integer ->
  sql_insert fk now (tbl_name d) asg db = Ok db' ->
  exists r,
    rows_of (tbl_name d) db' = rows_of (tbl_name d) db ++ [r]
    /\ field d n r = VInt (next_rowid i (rows_of (tbl_name d) db))
    /\ (forall r0, In r0 (rows_of (tbl_name d) db) -> field d n r0 <> field d n r)
    /\ (rows_of (tbl_name d) db = [] -> field d n r = VInt 1).
Proof.
  intros Hs Hd Hat Hpk Hnone _ H.
  apply insert_ok_full in H as (t & Hfind & _ & _ & -> & _).
  destruct (find_in_schema db d Hs Hd) as [rows Hfind'].
  rewrite Hfind' in Hfind. injection Hfind as <-. cbn [t_def t_rows].
  rewrite (rows_of_set_rows _ _ _ _ Hfind').
  assert (Hrows : rows_of (tbl_name d) db = rows)
    by (unfold rows_of; now rewrite Hfind').
  rewrite !Hrows.
  eexists. split; [reflexivity|].
  assert (Hdef : col_default c = None).
  { assert (Hb : forallb (fun d => forallb (fun c => negb (col_primary_key c)
                                       || match col_default c with
                                          | None => true
                                          | Some _ => false
                                          end)
                                             (tbl_columns d)) the_schema = true)
      by (vm_compute; reflexivity).
    rewrite forallb_forall in Hb. specialize (Hb d Hd).
    rewrite forallb_forall in Hb.
    specialize (Hb c (nth_error_In _ _ (proj2 Hat))).
    destruct (pk_index_column d i Hpk) as (c' & Hc' & Hpk').
    rewrite (proj2 Hat) in Hc'. injection Hc' as <-. rewrite Hpk' in Hb.
    cbn in Hb. now destruct (col_default c). }
  assert (Hnew : field d n
                   (assign_rowid d rows (map (initial_value now asg) (tbl_columns d)))
                 = VInt (next_rowid i rows)).
  { rewrite (field_get d n i _ (proj1 Hat)). unfold assign_rowid. rewrite Hpk.
    assert (H0 : get i (map (initial_value now asg) (tbl_columns d)) = VNull).
    { rewrite (get_map_nth _ _ _ _ (proj2 Hat)). unfold initial_value.
      rewrite <- (lookup_first_lower n (col_name c) asg (column_at_named d n i c Hat)).
      destruct Hnone as [-> | ->]; [now rewrite Hdef | reflexivity]. }
    rewrite H0. cbn [is_null]. apply get_put_same.
    rewrite length_map. apply nth_error_Some. now rewrite (proj2 Hat). }
  split; [exact Hnew|]. split.
  - intros r0 Hr0. rewrite Hnew, (field_get d n i _ (proj1 Hat)).
    now apply next_rowid_fresh.
  - intros E. rewrite Hnew, E. reflexivity.
Qed.

Lemma identifier_is_assigned_fresh_witness :
  exists r,
    rows_of "ProductionLine"
            (the_database
               [ [VInt 1; VText "Ann"; VNull; VText "ann"; VText "hash"; VNull] ]
               [ [VInt 1; VText "Line 1"; VNull]; [VInt 2; VText "Line 2"; VNull];
                 [VInt 3; VText "Line 3"; VNull] ]
               (rows_of "ProductionBatch" example_database)
               (rows_of "InventoryItem" example_database)
               (rows_of "InventoryTransaction" example_database)
               (rows_of "DefectType" example_database)
               (rows_of "DefectLog" example_database)
               [] (rows_of "ReturnLog" example_database))
    = rows_of "ProductionLine" example_database ++ [r]
    /\ field ProductionLine "ProductionLineID" r = VInt 3.
Proof.
  destruct (identifier_is_assigned_fresh example_database _ false
              "2026-01-05 08:00:00" [("LineName", VText "Line 3")]
              ProductionLine "ProductionLineID" 0%nat
              (column "ProductionLineID" INTEGER |> PRIMARY_KEY)
              eq_refl ltac:(vm_compute; tauto) (conj eq_refl eq_refl) eq_refl
              (or_introl eq_refl) ltac:(vm_compute; intro H; discriminate H)
              eq_refl)
    as (r & Hrows & Hid & _).
  exists r. split; [exact Hrows | exact Hid].
Defined.

(** *** References under the changes that statements make *)

Lemma refs_ok_nil ci parents : refs_ok ci [] parents.
Proof. intros r []. Qed.

Lemma refs_ok_without ci h children parents :
  refs_ok ci children parents -> refs_ok ci (without h children) parents.
Proof. intros H r Hr. apply filter_In in Hr as [Hr _]. now apply H. Qed.

Lemma get_put_null_cases ci cj r :
  get ci (put cj VNull r) = VNull \/ get ci (put cj VNull r) = get ci r.
Proof.
  destruct (Nat.eq_dec ci cj) as [->|H].
  - left. apply get_put_null.
  - right. now apply get_put_other.
Qed.

Lemma refs_ok_nullify ci cj h children parents :
  refs_ok ci children parents -> refs_ok ci (nullify cj h children) parents.
Proof.
  intros H r Hr. apply in_map_iff in Hr as (r0 & <- & Hr0).
  destruct (h r0); [|now apply H].
  destruct (get_put_null_cases ci cj r0) as [E|E]; rewrite E; [now left | now apply H].
Qed.

Lemma keys_nullify cj h parents :
  cj <> 0%nat -> map (get 0%nat) (nullify cj h parents) = map (get 0%nat) parents.
Proof.
  intros Hc. unfold nullify. rewrite map_map. apply map_ext. intros r.
  destruct (h r); [|reflexivity]. apply get_put_other. congruence.
Qed.

Lemma refs_ok_parents ci children parents parents' :
  (forall k, existsb (key_eqb k) (map (get 0%nat) parents) = true ->
             existsb (key_eqb k) (map (get 0%nat) parents') = true) ->
  refs_ok ci children parents -> refs_ok ci children parents'.
Proof. intros Hk H r Hr. destruct (H r Hr); [now left | right; now apply Hk]. Qed.

Lemma refs_ok_parents_nullify ci cj h children parents :
  cj <> 0%nat ->
  refs_ok ci children parents -> refs_ok ci children (nullify cj h parents).
Proof.
  intros Hc. apply refs_ok_parents. intros k Hk. now rewrite keys_nullify.
Qed.

Lemma refs_ok_parents_grow ci children parents r :
  refs_ok ci children parents -> refs_ok ci children (parents ++ [r]).
Proof.
  apply refs_ok_parents. intros k Hk.
  rewrite map_app, existsb_app, Hk. reflexivity.
Qed.

(** A key that references no deleted parent references a surviving one. *)
Lemma surviving_parent k dead parents :
  existsb (key_eqb k) (map (get 0%nat) parents) = true ->
  existsb (key_eqb k) (map (get 0%nat) (filter dead parents)) = false ->
  existsb (key_eqb k) (map (get 0%nat) (without dead parents)) = true.
Proof.
  unfold without. induction parents as [|p ps IH]; cbn; [discriminate|].
  destruct (dead p); cbn.
  - intros H1 H2. apply orb_false_iff in H2 as [Hp H2]. rewrite Hp in H1.
    now apply IH.
  - intros H1 H2. destruct (key_eqb k (get 0%nat p)); [reflexivity | now apply IH].
Qed.

Lemma refs_ok_cascade ci dead children parents :
  refs_ok ci children parents ->
  refs_ok ci (without (child_of ci (map (get 0%nat) (filter dead parents))) children)
          (without dead parents).
Proof.
  intros H r Hr. apply filter_In in Hr as [Hr Hc]. apply negb_true_iff in Hc.
  destruct (H r Hr) as [E|E]; [now left|]. right.
  now apply surviving_parent.
Qed.

Lemma refs_ok_set_null ci dead children parents :
  refs_ok ci children parents ->
  refs_ok ci (nullify ci (child_of ci (map (get 0%nat) (filter dead parents))) children)
          (without dead parents).
Proof.
  intros H r Hr. apply in_map_iff in Hr as (r0 & <- & Hr0).
  destruct (child_of ci _ r0) eqn:Hc; [left; apply get_put_null|].
  destruct (H r0 Hr0) as [E|E]; [now left|]. right.
  now apply surviving_parent.
Qed.

Lemma refs_ok_add_child ci children parents r :
  refs_ok ci children parents ->
  get ci r = VNull \/ existsb (key_eqb (get ci r)) (map (get 0%nat) parents) = true ->
  refs_ok ci (children ++ [r]) parents.
Proof.
  intros H Hr r0 Hr0. apply in_app_iff in Hr0 as [Hr0|[<-|[]]]; [now apply H | exact Hr].
Qed.

(** *** Names that differ in letter case only *)

Lemma find_table_name n db t :
  find_table n db = Some t -> name_eqb n (tbl_name (t_def t)) = true.
Proof.
  induction db as [|t0 db IH]; cbn; [discriminate|].
  destruct (name_eqb n (tbl_name (t_def t0))) eqn:E; [|exact IH].
  intros H. injection H as <-. exact E.
Qed.

Lemma name_eqb_left n m x : name_eqb n m = true -> name_eqb n x = name_eqb m x.
Proof. intros H. apply name_eqb_true in H. unfold name_eqb. now rewrite H. Qed.

Lemma name_eqb_right n m x : name_eqb n m = true -> name_eqb x n = name_eqb x m.
Proof. intros H. apply name_eqb_true in H. unfold name_eqb. now rewrite H. Qed.

Lemma find_table_lower n m db : name_eqb n m = true -> find_table n db = find_table m db.
Proof.
  intros H. induction db as [|t db IH]; cbn; [reflexivity|].
  now rewrite (name_eqb_left n m _ H), IH.
Qed.

Lemma set_rows_lower n m rs db : name_eqb n m = true -> set_rows n rs db = set_rows m rs db.
Proof.
  intros H. induction db as [|t db IH]; cbn; [reflexivity|].
  now rewrite (name_eqb_left n m _ H), IH.
Qed.

Lemma referencing_lower n m db : name_eqb n m = true -> referencing n db = referencing m db.
Proof.
  intros H. unfold referencing. apply flat_map_ext. intros t. f_equal.
  apply filter_ext. intros f. now apply name_eqb_right.
Qed.

Lemma delete_rows_lower depth n m dead db t :
  find_table n db = Some t -> name_eqb n m = true ->
  delete_rows depth n dead db = delete_rows depth m dead db.
Proof.
  intros Hf Hn.
  rewrite (delete_rows_eq depth n dead db t Hf).
  rewrite (delete_rows_eq depth m dead db t)
    by (now rewrite <- (find_table_lower n m db Hn)).
  now rewrite (referencing_lower n m db Hn), (set_rows_lower n m _ db Hn).
Qed.

(** *** What the child-side check has verified *)

Lemma child_key_ok_inv db d r f ci :
  child_key_ok db d r f = Ok tt -> col_index (fk_column f) d = Some ci ->
  get ci r = VNull
  \/ existsb (key_eqb (get ci r)) (parent_keys db f) = true.
Proof.
  unfold child_key_ok, parent_keys. intros H Hci.
  destruct (find_table (fk_parent_table f) db) as [p|]; [|discriminate].
  rewrite Hci in H.
  destruct (col_index (fk_parent_column f) (t_def p)) as [pi|]; [|discriminate].
  apply guard_ok, orb_true_iff in H as [H|H].
  - left. now destruct (get ci r).
  - right. now rewrite existsb_map_keys.
Qed.

Lemma child_keys_ok_inv db d fks rs f ci r :
  child_keys_ok db d fks rs = Ok tt ->
  In f fks -> col_index (fk_column f) d = Some ci -> In r rs ->
  get ci r = VNull
  \/ existsb (key_eqb (get ci r)) (parent_keys db f) = true.
Proof.
  unfold child_keys_ok. intros H Hf Hci Hr.
  eapply all_ok_inv in H; [|exact Hf]. cbv beta in H.
  eapply all_ok_inv in H; [|exact Hr]. cbv beta in H.
  eapply child_key_ok_inv; eassumption.
Qed.

Lemma update_ok_fk tname where_ set_ db db' :
  sql_update true tname where_ set_ db = Ok db' ->
  exists t asg,
    find_table tname db = Some t
    /\ resolve (t_def t) set_ = Some asg
    /\ db' = set_rows tname
               (map (fun r => if where_ r then apply_set asg r else r) (t_rows t))
               db
    /\ child_keys_ok db' (t_def t)
         (filter (fk_in (t_def t) (map fst asg)) (tbl_foreign_keys (t_def t)))
         (map (apply_set asg) (filter where_ (t_rows t))) = Ok tt.
Proof.
  unfold sql_update. destruct (find_table tname db) as [t|]; [|discriminate].
  destruct (resolve (t_def t) set_) as [asg|] eqn:Hres; [|discriminate].
  intros H. exists t, asg. split; [reflexivity|]. split; [exact Hres|].
  pass_guard H Hpk. pass_guard H Hnn. pass_guard H Hck. pass_guard H Hkeys.
  apply rbind_ok in H as (? & Hfk & H). injection H as <-.
  split; [reflexivity|].
  apply rbind_ok in Hfk as ([] & Hfk & _). exact Hfk.
Qed.

(** *** References under UPDATE *)

Lemma keys_update (where_ : row -> bool) asg rows :
  mem_nat 0 (map fst asg) = false ->
  map (get 0%nat) (map (fun r => if where_ r then apply_set asg r else r) rows)
  = map (get 0%nat) rows.
Proof.
  intros H. rewrite map_map. apply map_ext. intros r.
  destruct (where_ r); [|reflexivity].
  now apply apply_set_untouched.
Qed.

Lemma refs_ok_parents_update ci (where_ : row -> bool) asg children parents :
  mem_nat 0 (map fst asg) = false ->
  refs_ok ci children parents ->
  refs_ok ci children
          (map (fun r => if where_ r then apply_set asg r else r) parents).
Proof.
  intros H. apply refs_ok_parents. intros k Hk. now rewrite keys_update.
Qed.

Lemma refs_ok_update ci (where_ : row -> bool) asg children parents :
  refs_ok ci children parents ->
  (mem_nat ci (map fst asg) = true ->
   forall r, In r (map (apply_set asg) (filter where_ children)) ->
             get ci r = VNull
             \/ existsb (key_eqb (get ci r)) (map (get 0%nat) parents) = true) ->
  refs_ok ci (map (fun r => if where_ r then apply_set asg r else r) children)
          parents.
Proof.
  intros H Hnew r Hr. apply in_map_iff in Hr as (r0 & <- & Hr0).
  destruct (where_ r0) eqn:Hw; [|now apply H].
  destruct (mem_nat ci (map fst asg)) eqn:Hm.
  - apply (Hnew eq_refl). apply in_map, filter_In. now split.
  - unfold apply_set. rewrite apply_set_untouched by exact Hm. now apply H.
Qed.

Lemma refs_ok_restrict ci dead children parents :
  existsb (child_of ci (map (get 0%nat) (filter dead parents))) children = false ->
  refs_ok ci children parents -> refs_ok ci children (without dead parents).
Proof.
  intros Hnone H r Hr. destruct (H r Hr) as [E|E]; [now left|]. right.
  apply surviving_parent; [exact E|].
  destruct (child_of ci (map (get 0%nat) (filter dead parents)) r) eqn:Hc; [|exact Hc].
  assert (Ht : existsb (child_of ci (map (get 0%nat) (filter dead parents))) children = true)
    by (apply existsb_exists; eauto).
  congruence.
Qed.

(** *** The foreign keys of the nine tables, statement by statement *)

Lemma fk_in_index d chg f ci :
  col_index (fk_column f) d = Some ci -> fk_in d chg f = mem_nat ci chg.
Proof. unfold fk_in. now intros ->. Qed.

Ltac normalize_db_in H :=
  rewrite ?set_users, ?set_lines, ?set_batches, ?set_items, ?set_transactions,
    ?set_defect_types, ?set_defect_logs, ?set_return_reasons, ?set_return_logs
    in H.

(** The table that [Hfind : find_table n (the_database ..) = Some t] has
    found is one of the nine; [n] is replaced by its name as declared. *)
Ltac which_table Hfind Hn :=
  pose proof (find_table_name _ _ _ Hfind) as Hn;
  apply find_table_In in Hfind; unfold the_database in Hfind;
  cbn [In] in Hfind;
  destruct Hfind as [<-|[<-|[<-|[<-|[<-|[<-|[<-|[<-|[<-|[]]]]]]]]]];
  cbn [t_def t_rows] in *.

Ltac literal_name :=
  match goal with
  | Hn : name_eqb _ (tbl_name ?X) = true |- _ =>
      let n := eval vm_compute in (tbl_name X) in
      change (tbl_name X) with n in Hn
  end.

Ltac one_of_list :=
  solve [vm_compute; repeat (first [left; reflexivity | right])].

(** The new row's key, by the foreign key among [fks] that the check
    [Hfk] has verified. *)
Ltac try_fks fks k :=
  match fks with
  | ?f :: ?rest => first [k f | try_fks rest k]
  end.

Ltac checked_key Hfk :=
  match type of Hfk with
  | child_keys_ok ?db' ?X _ _ = _ =>
      match goal with
      | |- get ?ci ?r = VNull \/ existsb _ (map (get 0%nat) ?P) = true =>
          let fks := eval vm_compute in (tbl_foreign_keys X) in
          try_fks fks
            ltac:(fun f =>
                    replace (map (get 0%nat) P) with (parent_keys db' f)
                      by by_evaluation;
                    apply (child_keys_ok_inv _ _ _ _ f ci r Hfk);
                    [ first [ one_of_list
                            | apply filter_In; split;
                              [ one_of_list
                              | rewrite (fk_in_index _ _ _ ci) by by_evaluation;
                                assumption ] ]
                    | by_evaluation
                    | first [now left | assumption] ])
      end
  end.

Ltac relink :=
  repeat first
    [ assumption
    | apply refs_ok_cascade
    | apply refs_ok_set_null
    | apply refs_ok_without
    | apply refs_ok_nullify
    | apply refs_ok_parents_nullify; [discriminate|]
    | apply refs_ok_parents_grow ].

Lemma insert_linked now tname asg u l b i tr dt dl rr rl db' :
  linked u l b i tr dt dl rr rl ->
  sql_insert true now tname asg (the_database u l b i tr dt dl rr rl) = Ok db' ->
  exists u' l' b' i' tr' dt' dl' rr' rl',
    db' = the_database u' l' b' i' tr' dt' dl' rr' rl'
    /\ linked u' l' b' i' tr' dt' dl' rr' rl'.
Proof.
  intros ((L1&L2)&(L3&L4&L5)&(L6&L7&L8)&(L9&L10&L11)) H.
  apply insert_ok_full in H as (t & Hfind & _ & _ & -> & Hfk).
  specialize (Hfk eq_refl). cbv zeta in Hfk.
  which_table Hfind Hn; literal_name;
    rewrite (set_rows_lower _ _ _ _ Hn) in *; normalize_db; normalize_db_in Hfk;
    match type of Hfk with
    | child_keys_ok _ _ _ [?r] = _ => set (new := r) in *
    end;
    do 9 eexists; (split; [reflexivity|]);
    unfold linked; repeat split;
    first [ solve [relink]
          | apply refs_ok_add_child; [assumption | checked_key Hfk] ].
Qed.

Lemma update_linked tname where_ set_ u l b i tr dt dl rr rl db' :
  linked u l b i tr dt dl rr rl ->
  keeps_identifiers (the_database u l b i tr dt dl rr rl) (Update tname where_ set_) ->
  sql_update true tname where_ set_ (the_database u l b i tr dt dl rr rl) = Ok db' ->
  exists u' l' b' i' tr' dt' dl' rr' rl',
    db' = the_database u' l' b' i' tr' dt' dl' rr' rl'
    /\ linked u' l' b' i' tr' dt' dl' rr' rl'.
Proof.
  intros ((L1&L2)&(L3&L4&L5)&(L6&L7&L8)&(L9&L10&L11)) Hkeep H.
  apply update_ok_fk in H as (t & asg & Hfind & Hres & -> & Hfk).
  specialize (Hkeep t asg 0%nat Hfind Hres).
  which_table Hfind Hn; literal_name;
    rewrite (set_rows_lower _ _ _ _ Hn) in *; normalize_db; normalize_db_in Hfk;
    match type of Hkeep with
    | ?A -> _ => let Hpk := fresh "Hpk" in
                 assert (Hpk : A) by by_evaluation; specialize (Hkeep Hpk)
    end;
    do 9 eexists; (split; [reflexivity|]);
    unfold linked; repeat split;
    first [ assumption
          | apply refs_ok_parents_update; assumption
          | apply refs_ok_update; [assumption | intros Hm r Hr; checked_key Hfk] ].
Qed.

Lemma delete_rows_missing depth n dead db :
  find_table n db = None ->
  delete_rows depth n dead db = Err (OperationalError ("no such table: " ++ n)).
Proof. intros H. destruct depth; cbn [delete_rows]; rewrite H; reflexivity. Qed.

Lemma delete_linked tname dead u l b i tr dt dl rr rl db' :
  linked u l b i tr dt dl rr rl ->
  sql_delete true tname dead (the_database u l b i tr dt dl rr rl) = Ok db' ->
  exists u' l' b' i' tr' dt' dl' rr' rl',
    db' = the_database u' l' b' i' tr' dt' dl' rr' rl'
    /\ linked u' l' b' i' tr' dt' dl' rr' rl'.
Proof.
  intros ((L1&L2)&(L3&L4&L5)&(L6&L7&L8)&(L9&L10&L11)) H.
  unfold sql_delete in H. change max_trigger_depth with (S (S 998)) in H.
  destruct (find_table tname (the_database u l b i tr dt dl rr rl)) as [t|] eqn:Hfind.
  2:{ rewrite delete_rows_missing in H by exact Hfind. discriminate. }
  rewrite (delete_rows_lower _ _ _ _ _ _ Hfind (find_table_name _ _ _ Hfind)) in H.
  which_table Hfind Hn; clear Hn;
    match type of H with
    | context [tbl_name ?X] =>
        let n := eval vm_compute in (tbl_name X) in
        change (tbl_name X) with n in H
    end.
  - rewrite delete_users in H. injection H as <-.
    do 9 eexists; (split; [reflexivity|]); unfold linked; repeat split; relink.
  - rewrite delete_lines in H. injection H as <-.
    do 9 eexists; (split; [reflexivity|]); unfold linked; repeat split; relink.
  - rewrite delete_batches in H. injection H as <-.
    do 9 eexists; (split; [reflexivity|]); unfold linked; repeat split; relink.
  - rewrite delete_items in H. injection H as <-.
    do 9 eexists; (split; [reflexivity|]); unfold linked; repeat split; relink.
  - rewrite delete_transactions in H. injection H as <-.
    do 9 eexists; (split; [reflexivity|]); unfold linked; repeat split; relink.
  - rewrite delete_defect_types in H.
    destruct (existsb _ dl) eqn:Hnone; [discriminate|]. injection H as <-.
    do 9 eexists; (split; [reflexivity|]); unfold linked; repeat split;
      first [ solve [relink] | now apply refs_ok_restrict ].
  - rewrite delete_defect_logs in H. injection H as <-.
    do 9 eexists; (split; [reflexivity|]); unfold linked; repeat split; relink.
  - rewrite delete_return_reasons in H. injection H as <-.
    do 9 eexists; (split; [reflexivity|]); unfold linked; repeat split; relink.
  - rewrite delete_return_logs in H. injection H as <-.
    do 9 eexists; (split; [reflexivity|]); unfold linked; repeat split; relink.
Qed.

Lemma enforced_linked db :
  enforced db ->
  exists u l b i tr dt dl rr rl,
    db = the_database u l b i tr dt dl rr rl /\ linked u l b i tr dt dl rr rl.
Proof.
  induction 1 as [|db db' now st _ IH Hkeep Hstep].
  - exists [], [], [], [], [], [], [], [], []. split; [by_evaluation|].
    unfold linked. repeat split; apply refs_ok_nil.
  - destruct IH as (u&l&b&i&tr&dt&dl&rr&rl&->&L).
    destruct st as [tname asg|tname where_ set_|tname where_]; cbn [exec_dml] in Hstep.
    + eapply insert_linked; eassumption.
    + eapply update_linked; eassumption.
    + eapply delete_linked; eassumption.
Qed.

Lemma linked_referential u l b i tr dt dl rr rl :
  linked u l b i tr dt dl rr rl ->
  referential (the_database u l b i tr dt dl rr rl).
Proof.
  intros ((L1&L2)&(L3&L4&L5)&(L6&L7&L8)&(L9&L10&L11)) t f r Ht Hf Hr.
  unfold the_database in Ht. cbn [In] in Ht.
  destruct Ht as [<-|[<-|[<-|[<-|[<-|[<-|[<-|[<-|[<-|[]]]]]]]]]];
    cbn [t_def t_rows] in *; vm_compute in Hf;
    repeat match type of Hf with
           | _ \/ _ => destruct Hf as [<-|Hf]
           | False => destruct Hf
           end;
    unfold reference_ok;
    match goal with
    | |- field ?d ?n r = _ \/ _ =>
        let i := eval vm_compute in (col_index n d) in
        match i with
        | Some ?ci => rewrite (field_get d n ci r) by by_evaluation
        end
    end;
    match goal with
    | L : refs_ok ?ci ?C ?P, Hr : In r ?C
      |- get ?ci r = _ \/ existsb _ (parent_keys ?db ?f) = _ =>
        replace (parent_keys db f) with (map (get 0%nat) P) by by_evaluation;
        exact (L r Hr)
    end.
Qed.


(* ================================================================== *)
(** ** References that do not dangle *)
(* ================================================================== *)

(** X16.  The foreign keys of the nine tables hold in every database
    that INSERT, UPDATE and DELETE statements in enforcing sessions lead to
    from the initialized one, when no UPDATE changes an identifier: in
    every row every foreign key is NULL or the identifier of a row that
    the parent table has. *)
Theorem references_never_dangle (db : database) :
  enforced db -> referential db.
Proof.
  intros H. destruct (enforced_linked db H) as (u&l&b&i&tr&dt&dl&rr&rl&->&L).
  now apply linked_referential.
Qed.

Lemma references_never_dangle_witness :
  exists db1 db2 db3,
    exec_dml true "2026-01-05 08:00:00"
      (Insert "ProductionLine" [("LineName", VText "Line 1")]) initialized = Ok db1
    /\ exec_dml true "2026-01-05 08:00:00"
         (Insert "ProductionBatch"
            [("ProductionLineID", VInt 1); ("ShiftDate", VText "2026-01-05");
             ("QuantityProduced", VInt 5)]) db1 = Ok db2
    /\ exec_dml true "2026-01-05 09:00:00"
         (Update "ProductionBatch" (fun _ => true)
            [("QuantityProduced", fun _ => VInt 6)]) db2 = Ok db3
    /\ rows_of "ProductionBatch" db3
       = [[VInt 1; VInt 1; VText "2026-01-05"; VNull; VInt 6; VNull;
           VText "2026-01-05 08:00:00"]]
    /\ referential db3.
Proof.
  eexists. eexists. eexists.
  split; [by_evaluation|]. split; [by_evaluation|]. split; [by_evaluation|].
  split; [by_evaluation|].
  apply references_never_dangle.
  eapply (enforced_step _ _ "2026-01-05 09:00:00"
            (Update "ProductionBatch" (fun _ => true)
               [("QuantityProduced", fun _ => VInt 6)])).
  - eapply (enforced_step _ _ "2026-01-05 08:00:00"
              (Insert "ProductionBatch"
                 [("ProductionLineID", VInt 1); ("ShiftDate", VText "2026-01-05");
                  ("QuantityProduced", VInt 5)])).
    + eapply (enforced_step _ _ "2026-01-05 08:00:00"
                (Insert "ProductionLine" [("LineName", VText "Line 1")])).
      * apply enforced_initialized.
      * exact I.
      * by_evaluation.
    + exact I.
    + by_evaluation.
  - intros t asg j Ht Hres Hj. vm_compute in Ht. injection Ht as Et. subst t.
    vm_compute in Hres. injection Hres as Ea. subst asg.
    vm_compute in Hj. injection Hj as Ej. subst j. reflexivity.
  - by_evaluation.
Defined.

(** *** Distinct keys under the changes that statements make *)

Lemma value_eqb_sym a b : value_eqb a b = value_eqb b a.
Proof.
  destruct a, b; cbn; try reflexivity; [apply Z.eqb_sym | apply String.eqb_sym].
Qed.

Lemma key_eqb_sym a b : key_eqb a b = key_eqb b a.
Proof.
  unfold key_eqb. rewrite (value_eqb_sym a b). destruct a, b; reflexivity.
Qed.

Lemma distinct_values_grow l v :
  distinct_values l = true -> existsb (key_eqb v) l = false ->
  distinct_values (l ++ [v]) = true.
Proof.
  induction l as [|x l IH]; cbn; [reflexivity|].
  intros Hd Hv. apply andb_true_iff in Hd as [Hx Hd].
  apply orb_false_iff in Hv as [Hvx Hv].
  rewrite existsb_app, (IH Hd Hv). cbn.
  apply negb_true_iff in Hx. rewrite Hx, key_eqb_sym, Hvx. reflexivity.
Qed.

Lemma distinct_values_filter (g : row -> value) (h : row -> bool) rows :
  distinct_values (map g rows) = true ->
  distinct_values (map g (filter h rows)) = true.
Proof.
  induction rows as [|r rows IH]; cbn; [reflexivity|].
  intros Hd. apply andb_true_iff in Hd as [Hr Hd].
  destruct (h r); cbn; [|now apply IH].
  rewrite (IH Hd), andb_true_r. apply negb_true_iff in Hr. apply negb_true_iff.
  destruct (existsb (key_eqb (g r)) (map g (filter h rows))) eqn:E; [|reflexivity].
  apply existsb_exists in E as (v & Hv & Hk).
  apply in_map_iff in Hv as (r0 & <- & Hr0). apply filter_In in Hr0 as [Hr0 _].
  rewrite <- Hr. symmetry. apply existsb_exists. exists (g r0).
  split; [now apply in_map | exact Hk].
Qed.

Lemma keys_distinct_insert d rows r :
  keys_distinct (indexed d) rows = true -> keys_fresh d rows r = true ->
  keys_distinct (indexed d) (rows ++ [r]) = true.
Proof.
  unfold keys_distinct, keys_fresh. rewrite !forallb_forall.
  intros Hd Hf ic Hic. specialize (Hd ic Hic). specialize (Hf ic Hic).
  destruct (is_key (snd ic)); cbn in *; [|reflexivity].
  rewrite map_app. cbn [map]. apply distinct_values_grow; [exact Hd|].
  now apply negb_true_iff.
Qed.

Lemma keys_distinct_without cols dead rows :
  keys_distinct cols rows = true -> keys_distinct cols (without dead rows) = true.
Proof.
  unfold keys_distinct. rewrite !forallb_forall.
  intros Hd ic Hic. specialize (Hd ic Hic).
  destruct (is_key (snd ic)); cbn in *; [|reflexivity].
  now apply distinct_values_filter.
Qed.

Lemma keys_distinct_update d (where_ : row -> bool) asg rows :
  keys_distinct (indexed d) rows = true ->
  keys_distinct (filter (fun ic => mem_nat (fst ic) (map fst asg)) (indexed d))
                (map (fun r => if where_ r then apply_set asg r else r) rows) = true ->
  keys_distinct (indexed d)
                (map (fun r => if where_ r then apply_set asg r else r) rows) = true.
Proof.
  unfold keys_distinct. rewrite !forallb_forall.
  intros Hd Hnew ic Hic. specialize (Hd ic Hic).
  destruct (mem_nat (fst ic) (map fst asg)) eqn:Hm.
  - apply Hnew, filter_In. now split.
  - destruct (is_key (snd ic)); cbn in *; [|reflexivity].
    rewrite map_map.
    erewrite map_ext; [exact Hd|]. intros r. cbv beta.
    destruct (where_ r); [|reflexivity]. now apply apply_set_untouched.
Qed.

Lemma update_ok_keys fk tname where_ set_ db db' :
  sql_update fk tname where_ set_ db = Ok db' ->
  exists t asg,
    find_table tname db = Some t
    /\ db' = set_rows tname
               (map (fun r => if where_ r then apply_set asg r else r) (t_rows t))
               db
    /\ keys_distinct
         (filter (fun ic => mem_nat (fst ic) (map fst asg)) (indexed (t_def t)))
         (map (fun r => if where_ r then apply_set asg r else r) (t_rows t)) = true.
Proof.
  unfold sql_update. destruct (find_table tname db) as [t|]; [|discriminate].
  destruct (resolve (t_def t) set_) as [asg|] eqn:Hres; [|discriminate].
  intros H. exists t, asg. split; [reflexivity|].
  pass_guard H Hpk. pass_guard H Hnn. pass_guard H Hck. pass_guard H Hkeys.
  apply rbind_ok in H as (? & _ & H). injection H as <-.
  split; [reflexivity | exact Hkeys].
Qed.

(** *** Every statement keeps the keys distinct *)

Lemma distinct_keys_set_rows n rs db t :
  distinct_keys db -> find_table n db = Some t ->
  keys_distinct (indexed (t_def t)) rs = true ->
  distinct_keys (set_rows n rs db).
Proof.
  intros Hdb Hfind Hrs t' Ht'. apply in_set_rows in Ht' as [Ht'|(t0 & Hf & ->)].
  - now apply Hdb.
  - rewrite Hfind in Hf. injection Hf as <-. exact Hrs.
Qed.

Lemma distinct_keys_insert fk now tname asg db db' :
  distinct_keys db -> sql_insert fk now tname asg db = Ok db' -> distinct_keys db'.
Proof.
  intros Hdb H. apply insert_ok_full in H as (t & Hfind & _ & Hfresh & -> & _).
  apply (distinct_keys_set_rows _ _ _ t Hdb Hfind).
  apply keys_distinct_insert; [|exact Hfresh].
  apply Hdb. now apply (find_table_In tname).
Qed.

Lemma distinct_keys_update fk tname where_ set_ db db' :
  distinct_keys db -> sql_update fk tname where_ set_ db = Ok db' -> distinct_keys db'.
Proof.
  intros Hdb H. apply update_ok_keys in H as (t & asg & Hfind & -> & Hkeys).
  apply (distinct_keys_set_rows _ _ _ t Hdb Hfind).
  apply keys_distinct_update; [|exact Hkeys].
  apply Hdb. now apply (find_table_In tname).
Qed.

Lemma distinct_keys_without tname dead db t :
  distinct_keys db -> find_table tname db = Some t ->
  distinct_keys (set_rows tname (without dead (t_rows t)) db).
Proof.
  intros Hdb Hfind. apply (distinct_keys_set_rows _ _ _ t Hdb Hfind).
  apply keys_distinct_without, Hdb. now apply (find_table_In tname).
Qed.

Lemma distinct_keys_action nested d gone db cf db' :
  (forall n hit db1 db2, nested = Some n -> distinct_keys db1 ->
                         forall tname, n tname hit db1 = Ok db2 -> distinct_keys db2) ->
  distinct_keys db -> on_delete_action nested d gone db cf = Ok db' -> distinct_keys db'.
Proof.
  intros Hnested Hdb. unfold on_delete_action.
  destruct (col_index _ d) as [pi|]; [|discriminate].
  destruct (col_index _ (fst cf)) as [ci|]; [|discriminate].
  destruct (existsb _ _); [|now intros [= <-]].
  destruct nested as [delete_nested|]; [|discriminate].
  destruct (fk_on_delete (snd cf)).
  - intros H. eapply Hnested; [reflexivity | exact Hdb | exact H].
  - now apply distinct_keys_update.
  - now intros [= <-].
Qed.

Lemma distinct_keys_delete_rows depth : forall tname dead db db',
  distinct_keys db -> delete_rows depth tname dead db = Ok db' -> distinct_keys db'.
Proof.
  induction depth as [|depth IH]; intros tname dead db db' Hdb H.
  all: destruct (find_table tname db) as [t|] eqn:Hfind;
    [|cbn in H; rewrite Hfind in H; discriminate].
  all: rewrite (delete_rows_eq _ _ _ _ t Hfind) in H.
  all: apply rbind_ok in H as (? & _ & H).
  all: refine (fold_actions_keep distinct_keys _ _ _ _ _ _ H).
  all: try (intros db0 [= <-]; now apply distinct_keys_without).
  - intros db1 cf db2 H1. apply distinct_keys_action; [|exact H1]. discriminate.
  - intros db1 cf db2 H1. apply distinct_keys_action; [|exact H1].
    intros n0 hit d1 d2 [= <-] Hd1 tn. now apply IH.
Qed.

Lemma distinct_keys_delete fk tname where_ db db' :
  distinct_keys db -> sql_delete fk tname where_ db = Ok db' -> distinct_keys db'.
Proof.
  unfold sql_delete. destruct fk; [apply distinct_keys_delete_rows|].
  destruct (find_table tname db) as [t|] eqn:Hfind; [|discriminate].
  intros Hdb [= <-]. now apply distinct_keys_without.
Qed.

Lemma reachable_distinct_keys db : reachable db -> distinct_keys db.
Proof.
  induction 1 as [|db db' fk now st _ IH H].
  - intros t Ht. unfold initialized in Ht. apply in_map_iff in Ht as (d & <- & _).
    cbn [t_def t_rows]. unfold keys_distinct. apply forallb_forall.
    intros ic _. cbn. apply orb_true_r.
  - destruct st; cbn in H.
    + now apply (distinct_keys_insert _ _ _ _ _ _ IH H).
    + now apply (distinct_keys_update _ _ _ _ _ _ IH H).
    + now apply (distinct_keys_delete _ _ _ _ _ IH H).
Qed.

Lemma distinct_values_nth l : forall j k a b,
  distinct_values l = true ->
  nth_error l j = Some a -> nth_error l k = Some b -> j <> k ->
  a <> VNull -> a <> b.
Proof.
  induction l as [|x l IH]; intros j k a b Hd Hj Hk Hjk Ha;
    [destruct j; discriminate|].
  cbn in Hd. apply andb_true_iff in Hd as [Hx Hd]. apply negb_true_iff in Hx.
  destruct j as [|j], k as [|k]; cbn in Hj, Hk.
  - congruence.
  - injection Hj as ->. intros <-.
    assert (Ht : existsb (key_eqb a) l = true).
    { apply existsb_exists. exists a. split; [now apply (nth_error_In l k)|].
      now apply key_eqb_refl. }
    congruence.
  - injection Hk as ->. intros <-.
    assert (Ht : existsb (key_eqb a) l = true).
    { apply existsb_exists. exists a. split; [now apply (nth_error_In l j)|].
      now apply key_eqb_refl. }
    congruence.
  - apply (IH j k); auto.
Qed.


(* ================================================================== *)
(** ** Keys that stay distinct *)
(* ================================================================== *)

(** X17.  PRIMARY KEY and UNIQUE hold in every database that row
    statements lead to from the initialized one, on sessions with or
    without foreign-key enforcement: two different rows of a table never
    hold the same value in an identifier column or a column declared
    UNIQUE, unless that value is NULL. *)
Theorem keys_never_repeat (db : database) (d : table_def) (n : string)
  (i : nat) (c : column_def) (j k : nat) (r1 r2 : row) :
  reachable db -> In d the_schema ->
  column_at d n i c -> is_key c = true ->
  nth_error (rows_of (tbl_name d) db) j = Some r1 ->
  nth_error (rows_of (tbl_name d) db) k = Some r2 ->
  j <> k ->
  field d n r1 <> VNull ->
  field d n r1 <> field d n r2.
Proof.
  intros Hreach Hd Hat Hkey Hj Hk Hjk Hnull.
  pose proof (reachable_distinct_keys db Hreach) as Hu.
  apply reachable_sound in Hreach as [Hs _].
  destruct (find_in_schema db d Hs Hd) as [rows Hfind].
  unfold rows_of in Hj, Hk. rewrite Hfind in Hj, Hk. cbn [t_rows] in Hj, Hk.
  specialize (Hu _ (find_table_In _ _ _ Hfind)). cbn [t_def t_rows] in Hu.
  unfold keys_distinct in Hu. rewrite forallb_forall in Hu.
  specialize (Hu (i, c) (proj2 (indexed_In d i c) (proj2 Hat))).
  cbn [fst snd] in Hu. rewrite Hkey in Hu. cbn in Hu.
  rewrite !(field_get d n i _ (proj1 Hat)) in *.
  apply (distinct_values_nth (map (get i) rows) j k);
    [exact Hu | now apply map_nth_error | now apply map_nth_error
    | exact Hjk | exact Hnull].
Qed.

Lemma keys_never_repeat_witness :
  exists db1 db2 r1 r2,
    sql_insert false "2026-01-05 08:00:00" "ProductionLine"
               [("LineName", VText "Line 1")] initialized = Ok db1
    /\ sql_insert false "2026-01-05 08:00:00" "ProductionLine"
                  [("LineName", VText "Line 2")] db1 = Ok db2
    /\ rows_of "ProductionLine" db2 = [r1; r2]
    /\ field ProductionLine "LineName" r1 <> field ProductionLine "LineName" r2.
Proof.
  eexists. eexists. eexists. eexists.
  split; [by_evaluation|]. split; [by_evaluation|]. split; [by_evaluation|].
  eapply (keys_never_repeat _ ProductionLine "LineName" 1%nat
            (column "LineName" (VARCHAR 255) |> NOT_NULL |> UNIQUE) 0%nat 1%nat).
  - eapply (reach_step _ _ false "2026-01-05 08:00:00"
              (Insert "ProductionLine" [("LineName", VText "Line 2")])).
    + eapply (reach_step _ _ false "2026-01-05 08:00:00"
                (Insert "ProductionLine" [("LineName", VText "Line 1")])).
      * apply reach_initialized.
      * by_evaluation.
    + by_evaluation.
  - one_of_list.
  - split; by_evaluation.
  - reflexivity.
  - by_evaluation.
  - by_evaluation.
  - discriminate.
  - discriminate.
Defined.

(** *** Quantities under the statements that supply numbers *)

Lemma numbers_reachable db : reachable_with_numbers db -> reachable db.
Proof.
  induction 1 as [|db db' fk now st _ IH _ H]; [apply reach_initialized|].
  exact (reach_step db db' fk now st IH H).
Qed.

Lemma numbers_at_without k dead rs : numbers_at k rs -> numbers_at k (without dead rs).
Proof. intros H r Hr. apply filter_In in Hr as [Hr _]. now apply H. Qed.

Lemma numbers_at_nullify k j hit rs :
  k <> j -> numbers_at k rs -> numbers_at k (nullify j hit rs).
Proof.
  intros Hkj H r Hr. apply in_map_iff in Hr as (r0 & <- & Hr0).
  destruct (hit r0); [|now apply H].
  rewrite get_put_other by exact Hkj. now apply H.
Qed.

Lemma numbers_at_grow k rs r :
  numbers_at k rs -> number_or_null (get k r) -> numbers_at k (rs ++ [r]).
Proof.
  intros H Hr r0 Hr0. apply in_app_iff in Hr0 as [Hr0|[<-|[]]]; [now apply H | exact Hr].
Qed.

Lemma get_put_cases i j v r :
  get i (put j v r) = get i r \/ (i = j /\ get i (put j v r) = v).
Proof.
  destruct (Nat.eq_dec i j) as [->|H]; [|left; now apply get_put_other].
  destruct (Nat.lt_ge_cases j (List.length r)) as [Hlt|Hge].
  - right. split; [reflexivity | now apply get_put_same].
  - left. f_equal. revert j Hge.
    induction r as [|x r IH]; intros [|j] Hge; cbn in *; try reflexivity; try lia.
    f_equal. apply IH. lia.
Qed.

(** The value that a SET list gives a column is the old one or the value
    of one of its assignments to the column. *)
Lemma apply_set_value (asg : list (nat * (row -> value))) r0 i : forall r,
  get i (fold_left (fun acc a => put (fst a) (snd a r0) acc) asg r) = get i r
  \/ exists f, In (i, f) asg
               /\ get i (fold_left (fun acc a => put (fst a) (snd a r0) acc) asg r)
                  = f r0.
Proof.
  induction asg as [|[j f] asg IH]; intros r; cbn [fold_left fst snd]; [now left|].
  destruct (IH (put j (f r0) r)) as [E|(g & Hg & E)].
  - rewrite E. destruct (get_put_cases i j (f r0) r) as [E'|[-> E']].
    + now left.
    + right. exists f. split; [now left | exact E'].
  - right. exists g. split; [now right | exact E].
Qed.

Lemma resolve_In d set_ : forall asg i f,
  resolve d set_ = Some asg -> In (i, f) asg ->
  exists n, In (n, f) set_ /\ col_index n d = Some i.
Proof.
  induction set_ as [|[n g] set_ IH]; intros asg i f; cbn.
  - intros [= <-] [].
  - destruct (col_index n d) as [j|] eqn:Hj; [|discriminate].
    destruct (resolve d set_) as [l|]; [|discriminate].
    intros [= <-] [H|H].
    + injection H as <- <-. exists n. split; [now left | exact Hj].
    + destruct (IH l i f eq_refl H) as (m & Hm & Hi).
      exists m. split; [now right | exact Hi].
Qed.

Lemma lookup_first_In {A} n (l : list (string * A)) a :
  lookup_first n l = Some a -> exists m, In (m, a) l /\ name_eqb n m = true.
Proof.
  induction l as [|[k b] l IH]; cbn; [discriminate|].
  destruct (name_eqb n k) eqn:E.
  - intros [= <-]. exists k. split; [now left | exact E].
  - intros H. destruct (IH H) as (m & Hm & Hn). exists m. split; [now right | exact Hn].
Qed.

Lemma quantity_column_named d n m :
  In (d, n) non_negative_fields -> name_eqb m n = true -> quantity_column m = true.
Proof.
  intros H Hm. unfold quantity_column. apply existsb_exists.
  exists (d, n). split; [exact H | exact Hm].
Qed.

Lemma name_eqb_sym a b : name_eqb a b = name_eqb b a.
Proof. unfold name_eqb. apply String.eqb_sym. Qed.

(** The value of a quantity field that an INSERT does not supply is the
    default 0, or NULL where there is no default. *)
Lemma unsupplied_value now asg d n rows :
  In (d, n) non_negative_fields -> lookup_first n asg = None ->
  number_or_null
    (field d n (assign_rowid d rows (map (initial_value now asg) (tbl_columns d)))).
Proof.
  intros H Hv. unfold non_negative_fields in H. cbn [In] in H.
  destruct H as [H|[H|[H|[]]]]; injection H as <- <-.
  all: unfold assign_rowid;
    match goal with
    | |- context [pk_index ?d] =>
        replace (pk_index d) with (Some 0%nat) by by_evaluation
    end;
    match goal with
    | |- context [if ?c then _ else _] => destruct c
    end.
  all: unfold field; cbn [eval];
    match goal with
    | |- context [col_index ?n ?d] =>
        let i := eval vm_compute in (col_index n d) in
        replace (col_index n d) with i by by_evaluation
    end;
    rewrite ?get_put_other by discriminate.
  all: match goal with
       | |- number_or_null (get ?i (map ?f (tbl_columns ?d))) =>
           let c := eval vm_compute in (nth i (tbl_columns d) (column "" INT)) in
           replace (get i (map f (tbl_columns d))) with (f c) by by_evaluation
       end.
  all: unfold initial_value; cbn [col_name col_default]; rewrite Hv.
  all: first [ now left
             | right; exists 0; split; [reflexivity | unfold stored_integer; split; discriminate] ].
Qed.

Lemma inserted_quantity now asg d n rows :
  In (d, n) non_negative_fields -> supplies_numbers (Insert (tbl_name d) asg) ->
  number_or_null
    (field d n (assign_rowid d rows (map (initial_value now asg) (tbl_columns d)))).
Proof.
  intros H Hst. destruct (lookup_first n asg) as [v|] eqn:Hv.
  - rewrite (supplied_value now asg d n v rows H Hv).
    destruct (lookup_first_In n asg v Hv) as (m & Hm & Hn).
    apply (Hst m v Hm). apply (quantity_column_named d n m H).
    now rewrite name_eqb_sym.
  - now apply unsupplied_value.
Qed.

Lemma quantity_index d n i m :
  In (d, n) non_negative_fields ->
  col_index n d = Some i -> col_index m d = Some i -> quantity_column m = true.
Proof.
  intros H Hn Hm. apply (quantity_column_named d n m H).
  unfold col_index in Hn, Hm.
  destruct (col_index_from_named _ _ _ _ Hn) as (c & _ & Hc & Hnc).
  destruct (col_index_from_named _ _ _ _ Hm) as (c' & _ & Hc' & Hmc).
  rewrite Hc in Hc'. injection Hc' as <-. names.
Qed.

Lemma numbers_at_update d n k (where_ : row -> bool) set_ asg rs :
  In (d, n) non_negative_fields -> col_index n d = Some k ->
  resolve d set_ = Some asg ->
  (forall m f r, In (m, f) set_ -> quantity_column m = true -> number_or_null (f r)) ->
  numbers_at k rs ->
  numbers_at k (map (fun r => if where_ r then apply_set asg r else r) rs).
Proof.
  intros Hd Hk Hres Hst H r Hr. apply in_map_iff in Hr as (r0 & <- & Hr0).
  destruct (where_ r0); [|now apply H].
  unfold apply_set. destruct (apply_set_value asg r0 k r0) as [E|(f & Hf & E)];
    rewrite E; [now apply H|].
  destruct (resolve_In d set_ asg k f Hres Hf) as (m & Hm & Hi).
  apply (Hst m f r0 Hm). exact (quantity_index d n k m Hd Hk Hi).
Qed.

(** The three quantity columns of the nine tables hold numbers or NULL. *)
Ltac quantities :=
  repeat match goal with
         | |- _ /\ _ => split
         end;
  first
    [ assumption
    | apply numbers_at_without; assumption
    | apply numbers_at_nullify; [discriminate | assumption] ].

Lemma insert_numbers fk now tname asg u l b i tr dt dl rr rl db' :
  supplies_numbers (Insert tname asg) ->
  numbers_at 4 b /\ numbers_at 3 i /\ numbers_at 4 i ->
  sql_insert fk now tname asg (the_database u l b i tr dt dl rr rl) = Ok db' ->
  exists u' l' b' i' tr' dt' dl' rr' rl',
    db' = the_database u' l' b' i' tr' dt' dl' rr' rl'
    /\ numbers_at 4 b' /\ numbers_at 3 i' /\ numbers_at 4 i'.
Proof.
  intros Hst (Hb & Hi3 & Hi4) H.
  apply insert_ok_inv in H as (t & Hfind & _ & ->).
  which_table Hfind Hn; literal_name;
    rewrite (set_rows_lower _ _ _ _ Hn); normalize_db;
    do 9 eexists; (split; [reflexivity|]).
  all: try solve [quantities].
  - split; [|split; assumption].
    apply numbers_at_grow; [exact Hb|].
    apply (inserted_quantity now asg ProductionBatch "QuantityProduced" b);
      [one_of_list | exact Hst].
  - split; [exact Hb|]. split.
    + apply numbers_at_grow; [exact Hi3|].
      apply (inserted_quantity now asg InventoryItem "QuantityInStock" i);
        [one_of_list | exact Hst].
    + apply numbers_at_grow; [exact Hi4|].
      apply (inserted_quantity now asg InventoryItem "ReorderThreshold" i);
        [one_of_list | exact Hst].
Qed.

Lemma update_numbers fk tname where_ set_ u l b i tr dt dl rr rl db' :
  supplies_numbers (Update tname where_ set_) ->
  numbers_at 4 b /\ numbers_at 3 i /\ numbers_at 4 i ->
  sql_update fk tname where_ set_ (the_database u l b i tr dt dl rr rl) = Ok db' ->
  exists u' l' b' i' tr' dt' dl' rr' rl',
    db' = the_database u' l' b' i' tr' dt' dl' rr' rl'
    /\ numbers_at 4 b' /\ numbers_at 3 i' /\ numbers_at 4 i'.
Proof.
  intros Hst (Hb & Hi3 & Hi4) H.
  apply update_ok_inv in H as (t & asg & Hfind & Hres & _ & ->).
  which_table Hfind Hn; literal_name;
    rewrite (set_rows_lower _ _ _ _ Hn); normalize_db;
    do 9 eexists; (split; [reflexivity|]).
  all: try solve [quantities].
  - split; [|split; assumption].
    apply (numbers_at_update ProductionBatch "QuantityProduced" 4 where_ set_ asg);
      [one_of_list | reflexivity | exact Hres | exact Hst | exact Hb].
  - split; [exact Hb|]. split.
    + apply (numbers_at_update InventoryItem "QuantityInStock" 3 where_ set_ asg);
        [one_of_list | reflexivity | exact Hres | exact Hst | exact Hi3].
    + apply (numbers_at_update InventoryItem "ReorderThreshold" 4 where_ set_ asg);
        [one_of_list | reflexivity | exact Hres | exact Hst | exact Hi4].
Qed.

Lemma ok_inj {A} (a b : A) : Ok a = Ok b -> a = b.
Proof. now intros [= ->]. Qed.

Lemma delete_numbers fk tname dead u l b i tr dt dl rr rl db' :
  numbers_at 4 b /\ numbers_at 3 i /\ numbers_at 4 i ->
  sql_delete fk tname dead (the_database u l b i tr dt dl rr rl) = Ok db' ->
  exists u' l' b' i' tr' dt' dl' rr' rl',
    db' = the_database u' l' b' i' tr' dt' dl' rr' rl'
    /\ numbers_at 4 b' /\ numbers_at 3 i' /\ numbers_at 4 i'.
Proof.
  intros (Hb & Hi3 & Hi4) H.
  destruct (find_table tname (the_database u l b i tr dt dl rr rl)) as [t|] eqn:Hfind.
  2:{ unfold sql_delete in H. rewrite Hfind in H.
      rewrite delete_rows_missing in H by exact Hfind. destruct fk; discriminate. }
  destruct fk.
  - unfold sql_delete in H. change max_trigger_depth with (S (S 998)) in H.
    rewrite (delete_rows_lower _ _ _ _ _ _ Hfind (find_table_name _ _ _ Hfind)) in H.
    which_table Hfind Hn; clear Hn;
      match type of H with
      | context [tbl_name ?X] =>
          let n := eval vm_compute in (tbl_name X) in
          change (tbl_name X) with n in H
      end.
    + rewrite delete_users in H. injection H as <-.
      do 9 eexists; (split; [reflexivity|]); quantities.
    + rewrite delete_lines in H. injection H as <-.
      do 9 eexists; (split; [reflexivity|]); quantities.
    + rewrite delete_batches in H. injection H as <-.
      do 9 eexists; (split; [reflexivity|]); quantities.
    + rewrite delete_items in H. injection H as <-.
      do 9 eexists; (split; [reflexivity|]); quantities.
    + rewrite delete_transactions in H. injection H as <-.
      do 9 eexists; (split; [reflexivity|]); quantities.
    + rewrite delete_defect_types in H.
      destruct (existsb _ dl); [discriminate|]. injection H as <-.
      do 9 eexists; (split; [reflexivity|]); quantities.
    + rewrite delete_defect_logs in H. injection H as <-.
      do 9 eexists; (split; [reflexivity|]); quantities.
    + rewrite delete_return_reasons in H. injection H as <-.
      do 9 eexists; (split; [reflexivity|]); quantities.
    + rewrite delete_return_logs in H. injection H as <-.
      do 9 eexists; (split; [reflexivity|]); quantities.
  - rewrite (delete_without_enforcement _ _ _ _ Hfind) in H.
    apply ok_inj in H. subst db'.
    which_table Hfind Hn; literal_name;
      rewrite (set_rows_lower _ _ _ _ Hn); normalize_db;
      do 9 eexists; (split; [reflexivity|]); quantities.
Qed.

Lemma numbers_kept db :
  reachable_with_numbers db ->
  exists u l b i tr dt dl rr rl,
    db = the_database u l b i tr dt dl rr rl
    /\ numbers_at 4 b /\ numbers_at 3 i /\ numbers_at 4 i.
Proof.
  induction 1 as [|db db' fk now st _ IH Hst Hstep].
  - exists [], [], [], [], [], [], [], [], []. split; [by_evaluation|].
    repeat split; intros r [].
  - destruct IH as (u&l&b&i&tr&dt&dl&rr&rl&->&Q).
    destruct st as [tname asg|tname where_ set_|tname where_]; cbn [exec_dml] in Hstep.
    + eapply insert_numbers; eassumption.
    + eapply update_numbers; eassumption.
    + eapply delete_numbers; eassumption.
Qed.

(** In every database that row statements lead to, the checked fields
    hold no negative number, and the two that are declared NOT NULL are
    not NULL. *)
Lemma checked_fields_in_reachable db :
  reachable db ->
  (forall d n r, In (d, n) non_negative_fields ->
                 In r (rows_of (tbl_name d) db) ->
                 non_negative (field d n r))
  /\ (forall r, In r (rows_of "InventoryItem" db) ->
                field InventoryItem "QuantityInStock" r <> VNull)
  /\ (forall r, In r (rows_of "ProductionBatch" db) ->
                field ProductionBatch "QuantityProduced" r <> VNull).
Proof.
  intros Hreach. apply reachable_sound in Hreach.
  split; [|split].
  - intros d n r Hf Hr. destruct (fields_checked d n Hf) as [Hck Hd].
    apply (row_ok_non_negative d n r Hck).
    now apply (rows_in_schema db).
  - intros r Hr.
    assert (Hok : row_ok InventoryItem r = true).
    { apply (rows_in_schema db); [exact Hreach | vm_compute; tauto | exact Hr]. }
    apply andb_true_iff in Hok as [Hnn _].
    unfold not_nulls_ok in Hnn. rewrite forallb_forall in Hnn.
    specialize (Hnn (3%nat, nth 3 (tbl_columns InventoryItem) (column "" INT))
                    ltac:(vm_compute; tauto)).
    change (field InventoryItem "QuantityInStock" r) with (get 3 r).
    intros E. unfold not_null_passes in Hnn. cbn [fst] in Hnn.
    rewrite E in Hnn. discriminate.
  - intros r Hr.
    assert (Hok : row_ok ProductionBatch r = true).
    { apply (rows_in_schema db); [exact Hreach | vm_compute; tauto | exact Hr]. }
    apply andb_true_iff in Hok as [Hnn _].
    unfold not_nulls_ok in Hnn. rewrite forallb_forall in Hnn.
    specialize (Hnn (4%nat, nth 4 (tbl_columns ProductionBatch) (column "" INT))
                    ltac:(vm_compute; tauto)).
    change (field ProductionBatch "QuantityProduced" r) with (get 4 r).
    intros E. unfold not_null_passes in Hnn. cbn [fst] in Hnn.
    rewrite E in Hnn. discriminate.
Qed.


(* ================================================================== *)
(** ** Quantities *)
(* ================================================================== *)

(** C5.  QuantityInStock and ReorderThreshold of InventoryItem and
    QuantityProduced of ProductionBatch carry a check [>= 0]:
    - an INSERT that supplies a negative number for one of them fails, on
      any session and whatever else it supplies, and
    - an UPDATE whose SET list names one of them and would give a negative
      number to a row it selects fails;
    - so in every database that row statements lead to from the
      initialized one none of these fields is a negative number, and
      QuantityInStock and QuantityProduced are not NULL either;
    - where the statements give these fields numbers (integers that the
      store holds, or NULL), each of the fields holds an integer from 0
      to the largest that the store holds, or, ReorderThreshold only,
      NULL;
    - QuantityChange of InventoryTransaction has no such check: for every
      integer that the store holds, negative or not, a database is
      reached in which a transaction has it as its change. *)
Theorem quantities_never_negative :
  (forall db fk now asg d n v,
      schema db = the_schema -> In (d, n) non_negative_fields ->
      lookup_first n asg = Some v -> negative v ->
      exists e, sql_insert fk now (tbl_name d) asg db = Err e)
  /\ (forall db fk where_ set_ d n r r',
         schema db = the_schema -> In (d, n) non_negative_fields ->
         In r (rows_of (tbl_name d) db) -> where_ r = true ->
         assigned d set_ n = true -> new_row d set_ r = Some r' ->
         negative (field d n r') ->
         exists e, sql_update fk (tbl_name d) where_ set_ db = Err e)
  /\ (forall db, reachable db ->
        (forall d n r, In (d, n) non_negative_fields ->
                       In r (rows_of (tbl_name d) db) ->
                       non_negative (field d n r))
        /\ (forall r, In r (rows_of "InventoryItem" db) ->
                      field InventoryItem "QuantityInStock" r <> VNull)
        /\ (forall r, In r (rows_of "ProductionBatch" db) ->
                      field ProductionBatch "QuantityProduced" r <> VNull))
  /\ (forall db, reachable_with_numbers db ->
        forall d n r, In (d, n) non_negative_fields ->
                      In r (rows_of (tbl_name d) db) ->
                      (exists z, field d n r = VInt z /\ 0 <= z <= max_integer)
                      \/ (n = "ReorderThreshold"%string /\ field d n r = VNull))
  /\ (forall z, stored_integer z ->
        exists db r,
          reachable_with_numbers db
          /\ In r (rows_of "InventoryTransaction" db)
          /\ field InventoryTransaction "QuantityChange" r = VInt z).
Proof.
  split; [|split; [|split; [|split]]].
  - intros db fk now asg d n v Hs Hf Hv Hneg.
    destruct (sql_insert fk now (tbl_name d) asg db) as [db'|e] eqn:H; [|eauto].
    exfalso. apply insert_ok_inv in H as (t & Hfind & Hrow & _).
    destruct (fields_checked d n Hf) as [Hck Hd].
    destruct (find_in_schema db d Hs Hd) as [rows Hfind'].
    rewrite Hfind' in Hfind. injection Hfind as <-. cbn [t_def t_rows] in Hrow.
    apply (row_ok_non_negative d n _ Hck) in Hrow.
    rewrite (supplied_value now asg d n v rows Hf Hv) in Hrow.
    exact (negative_not_non_negative v Hneg Hrow).
  - intros db fk where_ set_ d n r r' Hs Hf Hr Hw Hasg Hnew Hneg.
    destruct (sql_update fk (tbl_name d) where_ set_ db) as [db'|e] eqn:H; [|eauto].
    exfalso. apply update_ok_inv in H as (t & asg & Hfind & Hres & Hchk & _).
    destruct (fields_checked d n Hf) as [Hck Hd].
    destruct (find_in_schema db d Hs Hd) as [rows Hfind'].
    unfold rows_of in Hr. rewrite Hfind' in Hr.
    rewrite Hfind' in Hfind. injection Hfind as <-. cbn [t_def t_rows] in *.
    unfold new_row in Hnew. rewrite Hres in Hnew. injection Hnew as <-.
    unfold assigned in Hasg. rewrite Hres in Hasg.
    destruct (col_index n d) as [i|] eqn:Hi; [|discriminate].
    destruct (Hchk r Hr Hw) as [_ Hc].
    exact (negative_not_non_negative _ Hneg
             (upd_non_negative d n i _ _ Hck Hi Hasg Hc)).
  - exact checked_fields_in_reachable.
  - intros db Hnum d n r Hf Hr.
    destruct (checked_fields_in_reachable db (numbers_reachable db Hnum))
      as (Hnn & Hstock & Hmade).
    specialize (Hnn d n r Hf Hr).
    destruct (numbers_kept db Hnum) as (u&l&b&i&tr&dt&dl&rr&rl&->&Hb&Hi3&Hi4).
    unfold non_negative_fields in Hf. cbn [In] in Hf.
    destruct Hf as [Hf|[Hf|[Hf|[]]]]; injection Hf as <- <-.
    + specialize (Hstock r Hr).
      change (tbl_name InventoryItem) with "InventoryItem"%string in Hr.
      rewrite rows_items in Hr.
      change (field InventoryItem "QuantityInStock" r) with (get 3 r) in *.
      destruct (Hi3 r Hr) as [E|(z & E & _ & Hz)]; [contradiction|].
      left. exists z. split; [exact E|]. split; [now apply Hnn | exact Hz].
    + change (tbl_name InventoryItem) with "InventoryItem"%string in Hr.
      rewrite rows_items in Hr.
      change (field InventoryItem "ReorderThreshold" r) with (get 4 r) in *.
      destruct (Hi4 r Hr) as [E|(z & E & _ & Hz)]; [right; now split|].
      left. exists z. split; [exact E|]. split; [now apply Hnn | exact Hz].
    + specialize (Hmade r Hr).
      change (tbl_name ProductionBatch) with "ProductionBatch"%string in Hr.
      rewrite rows_batches in Hr.
      change (field ProductionBatch "QuantityProduced" r) with (get 4 r) in *.
      destruct (Hb r Hr) as [E|(z & E & _ & Hz)]; [contradiction|].
      left. exists z. split; [exact E|]. split; [now apply Hnn | exact Hz].
  - intros z Hz.
    exists (the_database [] [] []
              [[VInt 1; VNull; VText "bolt"; VInt 0; VInt 0; VText "now"]]
              [[VInt 1; VInt 1; VNull; VInt z; VNull; VText "now"; VNull]]
              [] [] [] []),
           [VInt 1; VInt 1; VNull; VInt z; VNull; VText "now"; VNull].
    split; [|split; [now left | reflexivity]].
    apply (numbers_step
             (the_database [] [] []
                [[VInt 1; VNull; VText "bolt"; VInt 0; VInt 0; VText "now"]]
                [] [] [] [] [])
             _ true "now"
             (Insert "InventoryTransaction"
                     [("InventoryItemID", VInt 1); ("QuantityChange", VInt z)])).
    + apply (numbers_step initialized _ true "now"
               (Insert "InventoryItem" [("ItemName", VText "bolt")]));
        [apply numbers_initialized | | by_evaluation].
      intros n v [H|[]] Hq. injection H as <- <-. discriminate.
    + intros n v [H|[H|[]]] Hq; injection H as <- <-; discriminate.
    + by_evaluation.
Qed.


Lemma quantities_never_negative_witness :
  (exists e,
      sql_insert true "2026-01-05 08:00:00" "InventoryItem"
                 [("ItemName", VText "bolt"); ("QuantityInStock", VInt (-1))]
                 initialized = Err e)
  /\ (exists e,
         sql_update true "InventoryItem" (with_id 1)
                    [("QuantityInStock",
                      fun r => match get 3%nat r with
                               | VInt z => VInt (z - 1)
                               | v => v
                               end)]
                    example_database = Err e).
Proof.
  destruct quantities_never_negative as (Hins & Hupd & _).
  split.
  - apply (Hins initialized true _ _ InventoryItem "QuantityInStock" (VInt (-1))).
    + reflexivity.
    + now left.
    + reflexivity.
    + exists (-1). split; [reflexivity | lia].
  - apply (Hupd example_database true _ _ InventoryItem "QuantityInStock"
             [VInt 1; VNull; VText "bolt"; VInt 0; VInt 0; VText "2026-01-05 08:00:00"]
             [VInt 1; VNull; VText "bolt"; VInt (-1); VInt 0;
              VText "2026-01-05 08:00:00"]).
    + reflexivity.
    + now left.
    + now left.
    + reflexivity.
    + reflexivity.
    + reflexivity.
    + exists (-1). split; [reflexivity | lia].
Defined.
